(** * Agents-Template: the integration orchestrator and the contract validators

    A shallow embedding of [scripts/github_integrator.py],
    [scripts/validate_agent_report.py], [scripts/validate_agent_task.py],
    [scripts/validate_agent_linkage.py] and
    [.instructions/scripts/check_github_auth.py], followed by the properties
    established for them.

    Conventions.
    - A Python [str] is a [string]; its characters are the code points 0..255,
      on which [lower], [\w] and [\s] are exactly Python's.
    - A value read from YAML is a [yaml] tree; a mapping keeps its insertion
      order, as a Python [dict] does.
    - Code that can raise returns a [result]; code that runs subprocesses is a
      [prog] tree that is executed against an arbitrary environment. *)

From Stdlib Require Import ZArith NArith Ascii String DecimalString Lia.
From stdpp Require Import base option list strings gmap sorting.

(** ** Python strings *)

Module Py.

Definition code (c : ascii) : N := N_of_ascii c.

Definition between (lo hi : N) (c : ascii) : bool :=
  ((lo <=? code c) && (code c <=? hi))%N.

Definition has_code (n : N) (c : ascii) : bool := (code c =? n)%N.

(** [\w] of the [re] module on [str] patterns: alphanumeric or underscore. *)
Definition is_word (c : ascii) : bool :=
  between 48 57 c || between 65 90 c || has_code 95 c || between 97 122 c
  || has_code 170 c || between 178 179 c || has_code 181 c || between 185 186 c
  || between 188 190 c || between 192 214 c || between 216 246 c
  || between 248 255 c.

(** [\s] of the [re] module, which is also what [str.strip()] removes. *)
Definition is_space (c : ascii) : bool :=
  between 9 13 c || between 28 32 c || has_code 133 c || has_code 160 c.

Definition is_hyphen (c : ascii) : bool := has_code 45 c.

Definition lower_char (c : ascii) : ascii :=
  if between 65 90 c || between 192 214 c || between 216 222 c
  then ascii_of_N (code c + 32) else c.

Fixpoint str_map (f : ascii → ascii) (s : string) : string :=
  match s with
  | EmptyString => EmptyString
  | String c s' => String (f c) (str_map f s')
  end.

Fixpoint str_filter (p : ascii → bool) (s : string) : string :=
  match s with
  | EmptyString => EmptyString
  | String c s' => if p c then String c (str_filter p s') else str_filter p s'
  end.

(** [s.lower()] *)
Definition lower (s : string) : string := str_map lower_char s.

(** [s[:n]] *)
Fixpoint str_take (n : nat) (s : string) : string :=
  match n, s with
  | S n', String c s' => String c (str_take n' s')
  | _, _ => EmptyString
  end.

(** [s.lstrip(chars)], [s.rstrip(chars)] and [s.strip(chars)], the set of
    characters given as a predicate. *)
Fixpoint lstrip (p : ascii → bool) (s : string) : string :=
  match s with
  | EmptyString => EmptyString
  | String c s' => if p c then lstrip p s' else s
  end.

Fixpoint rstrip (p : ascii → bool) (s : string) : string :=
  match s with
  | EmptyString => EmptyString
  | String c s' =>
      match rstrip p s' with
      | EmptyString => if p c then EmptyString else String c EmptyString
      | r => String c r
      end
  end.

Definition strip (p : ascii → bool) (s : string) : string :=
  rstrip p (lstrip p s).

(** [sub in s] on two strings. *)
Fixpoint str_in (sub s : string) : bool :=
  String.prefix sub s
  || match s with
     | EmptyString => false
     | String _ s' => str_in sub s'
     end.

(** [s.replace(old, new)] for a non-empty [old]: occurrences are taken
    from the left and do not overlap; [skip] counts the characters of a
    matched occurrence that are still to be passed over. *)
Fixpoint replace_from (old new : string) (skip : nat) (s : string) : string :=
  match s with
  | EmptyString => EmptyString
  | String c s' =>
      match skip with
      | S k => replace_from old new k s'
      | O =>
          if String.prefix old s
          then new +:+ replace_from old new (String.length old - 1) s'
          else String c (replace_from old new O s')
      end
  end.

Definition replace (old new s : string) : string := replace_from old new O s.

(** [s.split(sep)[-1]] for a non-empty [sep]: the text after the last
    occurrence that a left-to-right scan finds. *)
Fixpoint split_last_from (sep : string) (skip : nat) (s : string) : string :=
  match s with
  | EmptyString => EmptyString
  | String c s' =>
      match skip with
      | S k => split_last_from sep k s'
      | O =>
          if String.prefix sep s
          then split_last_from sep (String.length sep - 1) s'
          else
            let rest := split_last_from sep O s' in
            (* [c] belongs to the last piece unless a separator follows *)
            if str_in sep s' then rest else String c rest
      end
  end.

Definition split_last (sep s : string) : string := split_last_from sep O s.

(** [s.rsplit(c, 1)[0]]: the text before the last [c], or all of [s]. *)
Fixpoint before_last (c : ascii) (s : string) : option string :=
  match s with
  | EmptyString => None
  | String x s' =>
      match before_last c s' with
      | Some h => Some (String x h)
      | None => if Ascii.eqb x c then Some EmptyString else None
      end
  end.

Definition rsplit1_head (c : ascii) (s : string) : string :=
  default s (before_last c s).

Definition newline : string := String "010" EmptyString.

(** ["\n".join(lines)] *)
Definition join_lines (lines : list string) : string :=
  String.concat newline lines.

(** [str(n)] for an [int]. *)
Definition str_of_int (n : Z) : string := NilZero.string_of_int (Z.to_int n).

Definition is_linebreak (c : ascii) : bool :=
  between 10 13 c || between 28 30 c || has_code 133 c.

(** [len(s.splitlines())]; a carriage return followed by a line feed is
    one line boundary. *)
Fixpoint count_lines_from (after_cr pending : bool) (s : string) : nat :=
  match s with
  | EmptyString => if pending then 1 else 0
  | String c s' =>
      if has_code 10 c && after_cr then count_lines_from false false s'
      else if is_linebreak c then S (count_lines_from (has_code 13 c) false s')
      else count_lines_from false true s'
  end.

Definition count_lines (s : string) : nat := count_lines_from false false s.

(** [enumerate(xs)] *)
Definition enumerate {A : Type} (xs : list A) : list (nat * A) :=
  zip (seq 0 (length xs)) xs.

(** Truthiness of a [str]. *)
Definition nonempty (s : string) : bool :=
  match s with EmptyString => false | _ => true end.

End Py.

(** ** Results of code that can raise *)

Inductive exn : Type :=
| TypeError
| AttributeError
| ValueError
| CalledProcessError
| OSError.

Inductive result (A : Type) : Type :=
| Ok (a : A)
| Raise (e : exn).

Arguments Ok {A} a.
Arguments Raise {A} e.

#[global] Instance result_ret : MRet result := λ A a, Ok a.

#[global] Instance result_bind : MBind result := λ A B f r,
  match r with
  | Ok a => f a
  | Raise e => Raise e
  end.

(** [for x in xs: body], the body threading the list of errors collected
    so far and possibly raising. *)
Fixpoint for_each {A E : Type} (xs : list A) (body : A → list E → result (list E))
    (errors : list E) : result (list E) :=
  match xs with
  | [] => Ok errors
  | x :: xs' => errors' ← body x errors; for_each xs' body errors'
  end.

(** ** Values read from YAML *)

#[local] Set Warnings "-register-all".

Inductive yaml : Type :=
| YNull
| YBool (b : bool)
| YInt (n : Z)
| YStr (s : string)
| YList (items : list yaml)
| YMap (fields : list (string * yaml)).

(** A Python [dict] with string keys, in insertion order. *)
Abbreviation dict := (list (string * yaml)).

Module Dict.

(** [d.get(k)] *)
Fixpoint get (k : string) (d : dict) : option yaml :=
  match d with
  | [] => None
  | (k', v) :: d' => if String.eqb k k' then Some v else get k d'
  end.

(** [k in d] *)
Definition mem (k : string) (d : dict) : bool :=
  match get k d with Some _ => true | None => false end.

(** [d[k] = v]: an existing key keeps its place, a new key goes last. *)
Fixpoint set (k : string) (v : yaml) (d : dict) : dict :=
  match d with
  | [] => [(k, v)]
  | (k', v') :: d' =>
      if String.eqb k k' then (k, v) :: d' else (k', v') :: set k v d'
  end.

End Dict.

Module Yaml.

Definition of_bool (b : bool) : Z := if b then 1%Z else 0%Z.

(** [a == b] on YAML values: booleans are integers, sequences compare
    element by element, mappings compare as mappings. *)
Fixpoint eq (a b : yaml) : bool :=
  match a, b with
  | YNull, YNull => true
  | YBool x, YBool y => Bool.eqb x y
  | YBool x, YInt y => Z.eqb (of_bool x) y
  | YInt x, YBool y => Z.eqb x (of_bool y)
  | YInt x, YInt y => Z.eqb x y
  | YStr x, YStr y => String.eqb x y
  | YList xs, YList ys =>
      (fix all2 (xs ys : list yaml) : bool :=
         match xs, ys with
         | [], [] => true
         | x :: xs', y :: ys' => eq x y && all2 xs' ys'
         | _, _ => false
         end) xs ys
  | YMap m1, YMap m2 =>
      Nat.eqb (length m1) (length m2)
      && (fix sub (m : dict) : bool :=
            match m with
            | [] => true
            | (k, v) :: m' =>
                match Dict.get k m2 with
                | Some w => eq v w
                | None => false
                end && sub m'
            end) m1
  | _, _ => false
  end.

(** Truthiness: [bool(v)]. *)
Definition truthy (v : yaml) : bool :=
  match v with
  | YNull => false
  | YBool b => b
  | YInt n => negb (Z.eqb n 0)
  | YStr s => Py.nonempty s
  | YList l => match l with [] => false | _ => true end
  | YMap m => match m with [] => false | _ => true end
  end.

Definition is_str (v : yaml) : bool :=
  match v with YStr _ => true | _ => false end.

(** [v.get(k, default)]: only a mapping has [get]. *)
Definition get_or (k : string) (dflt : yaml) (v : yaml) : result yaml :=
  match v with
  | YMap m => Ok (default dflt (Dict.get k m))
  | _ => Raise AttributeError
  end.

Fixpoint chars (s : string) : list yaml :=
  match s with
  | EmptyString => []
  | String c s' => YStr (String c EmptyString) :: chars s'
  end.

(** What [for x in v] iterates over. *)
Definition iter (v : yaml) : result (list yaml) :=
  match v with
  | YList l => Ok l
  | YStr s => Ok (chars s)
  | YMap m => Ok (map (λ kv, YStr kv.1) m)
  | _ => Raise TypeError
  end.

(** [k in d] for a dict [d] and any value [k]. *)
Definition key_in (k : yaml) (d : dict) : result bool :=
  match k with
  | YStr s => Ok (Dict.mem s d)
  | YList _ | YMap _ => Raise TypeError
  | _ => Ok false
  end.

(** [x in v] for any container [v]. *)
Definition contains (v x : yaml) : result bool :=
  match v with
  | YList l => Ok (existsb (eq x) l)
  | YStr s => match x with YStr t => Ok (Py.str_in t s) | _ => Raise TypeError end
  | YMap m => key_in x m
  | _ => Raise TypeError
  end.

(** [_is_list_of_str(x)] of the task and report validators. *)
Definition _is_list_of_str (x : yaml) : bool :=
  match x with
  | YList l => forallb is_str l
  | _ => false
  end.

End Yaml.

(** ** Contract validation *)

(** One line of a validator's error list; the path it is reported for is
    kept beside it. Each constructor stands for one message format. *)
Inductive violation : Type :=
| MissingRequired (k : yaml)               (* missing required field 'k' *)
| StatusNotAllowed (status allowed : yaml) (* status 's' not in [...] *)
| SummaryNotStrList                        (* 'summary' must be a list of strings *)
| SummaryTooLong (lines : nat) (max_lines : yaml)
| AcrNotNonEmptyList                       (* must be a non-empty list *)
| AcrItemNotMapping (i : nat)
| AcrItemMissing (i : nat) (k : yaml)
| AcrPassedNotBool (i : nat)
| FilesNotList
| FilesItemIncomplete (i : nat)            (* must have 'path' and 'description' *)
| VerificationNotMapping
| VerificationMissing (k : yaml)
| VerificationNotStrList (field : string)  (* commands_run, results *)
| NotStrList (field : string)              (* 'field' must be a list of strings *)
| ContextTooLong (lines : nat)
| AcceptanceCriteriaEmpty
| RoutingNotMapping
| RoutingPlaybookRequired
| RoutingContractsRequired
| RoutingContractsNotStrList
| FailedToParse (msg : string)             (* failed to parse YAML: msg *)
| TopLevelNotMapping.                      (* top-level YAML must be a mapping/object *)

Abbreviation error := (string * violation)%type.

(** What [load_yaml] did for one file of a scan. *)
Inductive loaded : Type :=
| ParseFailure (msg : string)
| Document (data : yaml).

(** [len(xs) > bound] where [bound] was read from a contract. *)
Definition len_gt (n : nat) (bound : yaml) : result bool :=
  match bound with
  | YInt m => Ok (m <? Z.of_nat n)%Z
  | YBool b => Ok (Yaml.of_bool b <? Z.of_nat n)%Z
  | _ => Raise TypeError
  end.

(** The loop [for k in required: if k not in d: errors.append(...)]. *)
Definition require_keys (path : string) (missing : yaml → violation)
    (required : yaml) (d : dict) (errors : list error) : result (list error) :=
  ks ← Yaml.iter required;
  for_each ks
    (λ k errors,
       present ← Yaml.key_in k d;
       Ok (if present : bool then errors else errors ++ [(path, missing k)]))
    errors.

Module Report.

Definition check_item (report_path : string) (item_req : yaml)
    (entry : nat * yaml) (errors : list error) : result (list error) :=
  let '(i, item) := entry in
  match item with
  | YMap d =>
      errors ← require_keys report_path (AcrItemMissing i) item_req d errors;
      Ok (match Dict.get "passed" d with
          | Some (YBool _) | None => errors
          | Some _ => errors ++ [(report_path, AcrPassedNotBool i)]
          end)
  | _ => Ok (errors ++ [(report_path, AcrItemNotMapping i)])
  end.

Definition check_file (report_path : string) (entry : nat * yaml) : list error :=
  let '(i, f) := entry in
  match f with
  | YMap d =>
      if Dict.mem "path" d && Dict.mem "description" d then []
      else [(report_path, FilesItemIncomplete i)]
  | _ => [(report_path, FilesItemIncomplete i)]
  end.

Definition check_str_list (report_path : string) (v : violation) (k : string)
    (d : dict) : list error :=
  match Dict.get k d with
  | Some x => if Yaml._is_list_of_str x then [] else [(report_path, v)]
  | None => []
  end.

Definition validate_report (report : dict) (contract : yaml)
    (report_path : string) : result (list error) :=
  let errors : list error := [] in
  (* Required top-level fields *)
  required ← Yaml.get_or "required_fields" (YList []) contract;
  errors ← require_keys report_path MissingRequired required report errors;
  (* Status enum *)
  let status := default YNull (Dict.get "status" report) in
  enums ← Yaml.get_or "enums" (YMap []) contract;
  allowed_status ← Yaml.get_or "status" (YList []) enums;
  status_ok ← Yaml.contains allowed_status status;
  let errors :=
    if status_ok : bool then errors
    else errors ++ [(report_path, StatusNotAllowed status allowed_status)] in
  (* Summary constraints *)
  let summary := default YNull (Dict.get "summary" report) in
  errors ←
    match summary with
    | YList lines =>
        if Yaml._is_list_of_str summary then
          constraints ← Yaml.get_or "constraints" (YMap []) contract;
          max_lines ← Yaml.get_or "summary_max_lines" (YInt 6) constraints;
          too_long ← len_gt (length lines) max_lines;
          Ok (if too_long : bool
              then errors ++ [(report_path, SummaryTooLong (length lines) max_lines)]
              else errors)
        else Ok (errors ++ [(report_path, SummaryNotStrList)])
    | _ => Ok (errors ++ [(report_path, SummaryNotStrList)])
    end;
  (* Acceptance criteria results shape *)
  let acr := default YNull (Dict.get "acceptance_criteria_results" report) in
  item_contract ← Yaml.get_or "acceptance_criteria_results_item" (YMap []) contract;
  item_req ← Yaml.get_or "required_fields" (YList []) item_contract;
  errors ←
    match acr with
    | YList ((_ :: _) as items) =>
        for_each (Py.enumerate items) (check_item report_path item_req) errors
    | _ => Ok (errors ++ [(report_path, AcrNotNonEmptyList)])
    end;
  (* Files modified shape *)
  let files := default YNull (Dict.get "files_modified" report) in
  let errors :=
    match files with
    | YList items => errors ++ flat_map (check_file report_path) (Py.enumerate items)
    | _ => errors ++ [(report_path, FilesNotList)]
    end in
  (* Verification shape *)
  let verification := default YNull (Dict.get "verification" report) in
  v_contract ← Yaml.get_or "verification" (YMap []) contract;
  v_req ← Yaml.get_or "required_fields" (YList []) v_contract;
  errors ←
    match verification with
    | YMap v =>
        errors ← require_keys report_path VerificationMissing v_req v errors;
        Ok (errors
            ++ check_str_list report_path (VerificationNotStrList "commands_run")
                 "commands_run" v
            ++ check_str_list report_path (VerificationNotStrList "results")
                 "results" v)
    | _ => Ok (errors ++ [(report_path, VerificationNotMapping)])
    end;
  (* Risks + next steps *)
  Ok (errors
      ++ check_str_list report_path (NotStrList "risks") "risks" report
      ++ check_str_list report_path (NotStrList "next_steps") "next_steps" report).

(** The body of the loop of [main] over the report files. *)
Definition check_document (contract : yaml) (file : string * loaded)
    (all_errors : list error) : result (list error) :=
  let '(rf, outcome) := file in
  match outcome with
  | ParseFailure e => Ok (all_errors ++ [(rf, FailedToParse e)])
  | Document (YMap data) =>
      errors ← validate_report data contract rf;
      Ok (all_errors ++ errors)
  | Document _ => Ok (all_errors ++ [(rf, TopLevelNotMapping)])
  end.

(** [main] once the contract is loaded and the target is listed: the
    errors it prints and its exit code. *)
Definition main (contract : yaml) (report_files : list (string * loaded))
    : result (list error * Z) :=
  all_errors ← for_each report_files (check_document contract) [];
  Ok (all_errors, match all_errors with [] => 0%Z | _ => 1%Z end).

End Report.

Module Task.

(** [val is not None and not _is_list_of_str(val)] *)
Definition bad_str_list (val : yaml) : bool :=
  match val with
  | YNull => false
  | _ => negb (Yaml._is_list_of_str val)
  end.

Definition check_field (task_path : string) (task : dict) (field : string)
    : list error :=
  if bad_str_list (default YNull (Dict.get field task))
  then [(task_path, NotStrList field)] else [].

Definition validate_task (task : dict) (contract : yaml) (task_path : string)
    : result (list error) :=
  let errors : list error := [] in
  (* Required top-level fields *)
  required ← Yaml.get_or "required_fields" (YList []) contract;
  errors ← require_keys task_path MissingRequired required task errors;
  (* Check context length (recommended <= 10 lines) *)
  let errors :=
    match default YNull (Dict.get "context" task) with
    | YStr context =>
        let lines := Py.count_lines context in
        if (10 <? lines)%nat then errors ++ [(task_path, ContextTooLong lines)]
        else errors
    | _ => errors
    end in
  (* Validate inputs/outputs are lists of strings *)
  let errors := errors ++ check_field task_path task "inputs" in
  let errors := errors ++ check_field task_path task "outputs" in
  (* Validate acceptance_criteria is a list of strings *)
  let errors :=
    match default YNull (Dict.get "acceptance_criteria" task) with
    | YNull => errors
    | YList [] => errors ++ [(task_path, AcceptanceCriteriaEmpty)]
    | ac =>
        if Yaml._is_list_of_str ac then errors
        else errors ++ [(task_path, NotStrList "acceptance_criteria")]
    end in
  (* Validate routing section *)
  let errors :=
    match default YNull (Dict.get "routing" task) with
    | YNull => errors
    | YMap routing =>
        let errors :=
          if Dict.mem "playbook" routing then errors
          else errors ++ [(task_path, RoutingPlaybookRequired)] in
        match Dict.get "contracts" routing with
        | None => errors ++ [(task_path, RoutingContractsRequired)]
        | Some contracts =>
            if Yaml._is_list_of_str contracts then errors
            else errors ++ [(task_path, RoutingContractsNotStrList)]
        end
    | _ => errors ++ [(task_path, RoutingNotMapping)]
    end in
  Ok errors.

Definition check_document (contract : yaml) (file : string * loaded)
    (all_errors : list error) : result (list error) :=
  let '(tf, outcome) := file in
  match outcome with
  | ParseFailure e => Ok (all_errors ++ [(tf, FailedToParse e)])
  | Document (YMap data) =>
      errors ← validate_task data contract tf;
      Ok (all_errors ++ errors)
  | Document _ => Ok (all_errors ++ [(tf, TopLevelNotMapping)])
  end.

(** [main] from the loaded contract on; a contract that is not a mapping
    ends the run with exit code 1 before any file is read. *)
Definition main (contract : yaml) (task_files : list (string * loaded))
    : result (list error * Z) :=
  match contract with
  | YMap _ =>
      all_errors ← for_each task_files (check_document contract) [];
      Ok (all_errors, match all_errors with [] => 0%Z | _ => 1%Z end)
  | _ => Ok ([], 1%Z)
  end.

End Task.

(** ** Linkage validation *)

Module Linkage.

Inductive problem : Type :=
| TaskWithoutReport (tid : string)   (* Task 'tid' has no corresponding report *)
| ReportWithoutTask (rid : string)   (* Report 'rid' has no corresponding task *)
| TaskNotInLedger (tid : string).    (* Task 'tid' is not recorded in the ledger *)

(** [sorted(ids)] on a set of strings. *)
Definition sorted (ids : gset string) : list string :=
  merge_sort String.le (elements ids).

(** [main] from the three id sets on: the errors it prints and its exit
    code. A ledger id that is not a string equals no task id and so plays
    no part in the difference. *)
Definition main (task_ids report_ids ledger_ids : gset string)
    : list problem * Z :=
  let errors : list problem := [] in
  (* Tasks without reports *)
  let tasks_without_reports := task_ids ∖ report_ids in
  let errors := errors ++ (TaskWithoutReport <$> sorted tasks_without_reports) in
  (* Reports without tasks *)
  let reports_without_tasks := report_ids ∖ task_ids in
  let errors := errors ++ (ReportWithoutTask <$> sorted reports_without_tasks) in
  (* Ledger consistency *)
  let ledger_missing_tasks := task_ids ∖ ledger_ids in
  let errors := errors ++ (TaskNotInLedger <$> sorted ledger_missing_tasks) in
  (errors, match errors with [] => 0%Z | _ => 1%Z end).

End Linkage.

(** ** The integrator: data *)

Record TaskInfo : Type := {
  task_id : string;
  title : string;
  goal : string;
  context : string;
  acceptance_criteria : list string;
}.

(** The [{"number": ..., "url": ...}] dictionaries that stand for an issue
    or a pull request; either entry may be [None]. *)
Record Ref : Type := {
  number : option Z;
  url : option string;
}.

Inductive Method : Type := gh_cli | token_auth.

Record GitHubAuth : Type := {
  method : Method;
  token : option string;
}.

(** ** Branch names and commit messages *)

(** [re.sub(r'[^\w\s-]', '', s)] *)
Definition strip_specials (s : string) : string :=
  Py.str_filter (λ c, Py.is_word c || Py.is_space c || Py.is_hyphen c) s.

(** [re.sub(r'[-\s]+', '-', s)]; [in_run] tells that the previous character
    was already part of the run being replaced. *)
Fixpoint hyphenate_from (in_run : bool) (s : string) : string :=
  match s with
  | EmptyString => EmptyString
  | String c s' =>
      if Py.is_hyphen c || Py.is_space c then
        if in_run then hyphenate_from true s'
        else String "-" (hyphenate_from true s')
      else String c (hyphenate_from false s')
  end.

Definition hyphenate (s : string) : string := hyphenate_from false s.

(** The [clean_title] of [_generate_branch_name]. *)
Definition clean_title (title : string) : string :=
  let clean_title := strip_specials (Py.lower title) in
  let clean_title := hyphenate clean_title in
  let clean_title := Py.str_take 30 clean_title in
  Py.strip Py.is_hyphen clean_title.

Definition _generate_branch_name (task : TaskInfo) : string :=
  let branch := "feature/" +:+ task_id task +:+ "-" +:+ clean_title (title task) in
  (* Truncate to 50 chars max *)
  if (50 <? String.length branch)%nat
  then Py.rsplit1_head "-" (Py.str_take 50 branch)
  else branch.

(** The [commit_type] of [_generate_commit_message]. *)
Definition commit_type (title : string) : string :=
  let task_lower := Py.lower title in
  if Py.str_in "fix" task_lower || Py.str_in "bug" task_lower then "fix"
  else if Py.str_in "test" task_lower then "test"
  else if Py.str_in "doc" task_lower then "docs"
  else if Py.str_in "refactor" task_lower then "refactor"
  else "feat".

(** The [desc] of [_generate_commit_message]. *)
Definition short_description (title : string) : string :=
  Py.str_take 50 (strip_specials (Py.lower title)).

(** [issue_data.get("number")] is truthy. *)
Definition has_number (issue_data : Ref) : option Z :=
  match number issue_data with
  | Some n => if (n =? 0)%Z then None else Some n
  | None => None
  end.

Definition commit_lines (task : TaskInfo) (issue_data : Ref) : list string :=
  let lines :=
    [ commit_type (title task) +:+ "(" +:+ task_id task +:+ "): "
        +:+ short_description (title task);
      "";
      "- " +:+ goal task ] in
  (* Add acceptance criteria as bullet points *)
  let lines := lines ++ ((λ criteria, "- " +:+ criteria) <$> take 3 (acceptance_criteria task)) in
  (* Add closes footer *)
  match has_number issue_data with
  | Some n => lines ++ [""; "Closes #" +:+ Py.str_of_int n]
  | None => lines
  end.

Definition _generate_commit_message (task : TaskInfo) (issue_data : Ref) : string :=
  Py.join_lines (commit_lines task issue_data).

(** ** Repository resolution *)

(** What [subprocess.run] found: the process could not be started, or it
    ran and left an exit status and its standard output. *)
Record completed : Type := {
  returncode : Z;
  stdout : string;
}.

(** The parse of the remote URL in [_detect_repository]. *)
Definition parse_remote (remote_url : string) : option string :=
  if Py.str_in "github.com" remote_url then
    (* Remove .git suffix and extract owner/repo *)
    let remote_url := Py.replace ".git" "" remote_url in
    if String.prefix "git@github.com:" remote_url
    then Some (Py.replace "git@github.com:" "" remote_url)
    else if Py.str_in "github.com/" remote_url
    then Some (Py.split_last "github.com/" remote_url)
    else None
  else None.

(** [_detect_repository], given [os.getenv("GITHUB_REPOSITORY")] and what
    running [git remote get-url origin] gave ([None]: git could not be
    started, which the function does not handle). *)
Definition _detect_repository (env_repository : option string)
    (git_remote : option completed) : result (option string) :=
  let from_remote :=
    match git_remote with
    | None => Raise OSError
    | Some r =>
        if (returncode r =? 0)%Z
        then Ok (parse_remote (Py.strip Py.is_space (stdout r)))
        else Ok None
    end in
  match env_repository with
  | Some r => if Py.nonempty r then Ok (Some r) else from_remote
  | None => from_remote
  end.

(** ** Ledger merge *)

Module Ledger.

Definition of_number (n : option Z) : yaml :=
  match n with Some n => YInt n | None => YNull end.

Definition of_url (u : option string) : yaml :=
  match u with Some u => YStr u | None => YNull end.

(** The [github] sub-object that [_update_ledger] writes. *)
Definition github_object (task_id : string) (issue_data : Ref)
    (pr_data : option Ref) : dict :=
  let github :=
    [ ("issue_url", of_url (url issue_data));
      ("issue_number", of_number (number issue_data));
      ("branch", YStr ("feature/" +:+ task_id)) ] in
  match pr_data with
  | Some pr =>
      Dict.set "pr_number" (of_number (number pr))
        (Dict.set "pr_url" (of_url (url pr)) github)
  | None => github
  end.

(** [isinstance(task, dict) and task.get("id") == task_id] *)
Definition is_entry_for (task_id : string) (task : yaml) : bool :=
  match task with
  | YMap fields => Yaml.eq (default YNull (Dict.get "id" fields)) (YStr task_id)
  | _ => false
  end.

(** The search loop: the position of the first entry for [task_id]. *)
Fixpoint find_entry (task_id : string) (tasks : list yaml) : option nat :=
  match tasks with
  | [] => None
  | task :: tasks' =>
      if is_entry_for task_id task then Some O
      else S <$> find_entry task_id tasks'
  end.

(** The three assignments to [task_entry]. *)
Definition stamp (today task_id : string) (issue_data : Ref)
    (pr_data : option Ref) (task_entry : dict) : dict :=
  let task_entry := Dict.set "status" (YStr "completed") task_entry in
  let task_entry :=
    Dict.set "github" (YMap (github_object task_id issue_data pr_data)) task_entry in
  Dict.set "completed" (YStr today) task_entry.

Definition stamp_value (today task_id : string) (issue_data : Ref)
    (pr_data : option Ref) (task : yaml) : yaml :=
  match task with
  | YMap fields => YMap (stamp today task_id issue_data pr_data fields)
  | _ => task
  end.

Definition fresh_ledger : yaml :=
  YMap [("version", YInt 2); ("tasks", YList [])].

(** [_update_ledger]: [on_disk] is what [yaml.safe_load] returned, [None]
    when the file is missing or could not be read; [today] is
    [time.strftime("%Y-%m-%d")]. The result is the document written
    back; when the function raises nothing is written. *)
Definition _update_ledger (today task_id : string) (issue_data : Ref)
    (pr_data : option Ref) (on_disk : option yaml) : result yaml :=
  let ledger :=
    match on_disk with
    | Some loaded => if Yaml.truthy loaded then loaded else fresh_ledger
    | None => fresh_ledger
    end in
  (* Find or create task entry *)
  tasks ← Yaml.get_or "tasks" (YList []) ledger;
  items ← Yaml.iter tasks;
  match ledger with
  | YMap fields =>
      match find_entry task_id items with
      | Some i =>
          Ok (YMap (Dict.set "tasks"
                      (YList (alter (stamp_value today task_id issue_data pr_data) i items))
                      fields))
      | None =>
          let task_entry :=
            YMap (stamp today task_id issue_data pr_data [("id", YStr task_id)]) in
          (* ledger.setdefault("tasks", []).append(task_entry) *)
          match default (YList []) (Dict.get "tasks" fields) with
          | YList entries =>
              Ok (YMap (Dict.set "tasks" (YList (entries ++ [task_entry])) fields))
          | _ => Raise AttributeError
          end
      end
  | _ => Raise AttributeError
  end.

(** Successive runs, each reading the document the previous one wrote. *)
Record merge_args : Type := {
  on_date : string;
  with_issue : Ref;
  with_pr : option Ref;
}.

Fixpoint merge_all (task_id : string) (runs : list merge_args) (ledger : yaml)
    : result yaml :=
  match runs with
  | [] => Ok ledger
  | r :: runs' =>
      ledger' ← _update_ledger (on_date r) task_id (with_issue r) (with_pr r)
                  (Some ledger);
      merge_all task_id runs' ledger'
  end.

(** The entries of a ledger document and how many stand for [task_id]. *)
Definition entries (ledger : yaml) : list yaml :=
  match ledger with
  | YMap fields =>
      match Dict.get "tasks" fields with
      | Some (YList l) => l
      | _ => []
      end
  | _ => []
  end.

Definition count_for (task_id : string) (ledger : yaml) : nat :=
  length (filter (λ t, is_entry_for task_id t = true) (entries ledger)).

Definition entry_for (task_id : string) (ledger : yaml) : option yaml :=
  List.find (is_entry_for task_id) (entries ledger).


End Ledger.

(** ** Issue reconciliation *)

Module Remote.

(** The issue tracker of the repository, as far as the integrator deals
    with it: its issues, newest first, as the list endpoints return them;
    what the create and edit requests that the integrator sends do to them;
    and what its two transports show of them. *)
Record issue : Type := {
  issue_number : Z;
  issue_title : string;
  issue_body : string;
  issue_labels : list string;
  issue_open : bool;
}.

Abbreviation store := (list issue).

(** Whether the subprocess that lists, and the one that creates or edits,
    completes; a failure makes the calling function return [None]. *)
Record network : Type := {
  list_ok : bool;
  write_ok : bool;
}.

Definition next_number (st : store) : Z :=
  (1 + foldr (λ i m, Z.max (issue_number i) m) 0 st)%Z.

Definition issue_url (repo : string) (n : Z) : string :=
  "https://github.com/" +:+ repo +:+ "/issues/" +:+ Py.str_of_int n.

(** What a create request does to the store. *)
Definition created (title body : string) (labels : list string) (st : store)
    : store :=
  {| issue_number := next_number st; issue_title := title; issue_body := body;
     issue_labels := labels; issue_open := true |} :: st.

(** What an edit request carrying only a body does to the store. *)
Definition with_body (body : string) (i : issue) : issue :=
  {| issue_number := issue_number i; issue_title := issue_title i;
     issue_body := body; issue_labels := issue_labels i;
     issue_open := issue_open i |}.

Definition edited (n : Z) (body : string) (st : store) : store :=
  (λ i, if (issue_number i =? n)%Z then with_body body i else i) <$> st.

Section Transport.

(** Which issues [gh issue list --search QUERY] regards as hits is
    GitHub's business. *)
Variable search_hit : string → issue → bool.

Variable auth : option GitHubAuth.
Variable repo : option string.
Variable net : network.

(** [gh issue list --search task_id --limit 10]: open issues only. *)
Definition gh_issue_list (task_id : string) (st : store) : list issue :=
  take 10 (List.filter (λ i, issue_open i && search_hit task_id i) st).

(** [GET /repos/REPO/issues?state=all&per_page=30], the first page. *)
Definition api_issue_list (st : store) : list issue := take 30 st.

Definition title_has (task_id : string) (i : issue) : bool :=
  Py.str_in task_id (issue_title i).

(** The listing the transport in use hands to the search loop, when
    there is one. *)
Definition listing (task_id : string) (st : store) : option (list issue) :=
  match auth, repo with
  | Some a, Some _ =>
      match method a with
      | gh_cli => if list_ok net then Some (gh_issue_list task_id st) else None
      | token_auth =>
          match token a with
          | Some t =>
              if Py.nonempty t && list_ok net then Some (api_issue_list st)
              else None
          | None => None
          end
      end
  | _, _ => None
  end.

Definition _find_existing_issue (task_id : string) (st : store) : option issue :=
  match listing task_id st with
  | Some issues => List.find (title_has task_id) issues
  | None => None
  end.

(** Whether a create or edit request goes out and succeeds. *)
Definition can_write : bool :=
  match auth, repo with
  | Some a, Some _ =>
      match method a with
      | gh_cli => write_ok net
      | token_auth =>
          match token a with
          | Some t => Py.nonempty t && write_ok net
          | None => false
          end
      end
  | _, _ => false
  end.

Definition _create_issue (title body : string) (st : store)
    : option Ref * store :=
  if can_write then
    let n := next_number st in
    (Some {| number := Some n; url := Some (issue_url (default "" repo) n) |},
     created title body ["agent-task"; "automation"] st)
  else (None, st).

Definition _update_issue (n : Z) (body : string) (st : store)
    : option Ref * store :=
  if can_write then
    (Some {| number := Some n; url := Some (issue_url (default "" repo) n) |},
     edited n body st)
  else (None, st).

(** [_create_or_update_issue], with the body that [_build_issue_body]
    rendered from the task and the report. *)
Definition _create_or_update_issue (task : TaskInfo) (body : string)
    (st : store) : option Ref * store :=
  let issue_title := "[" +:+ task_id task +:+ "] " +:+ title task in
  let existing := _find_existing_issue (task_id task) st in
  match existing with
  | Some i => _update_issue (issue_number i) body st
  | None => _create_issue issue_title body st
  end.

End Transport.

End Remote.

(** ** The branch and pull-request pipeline *)

Module Pipeline.

Inductive cmd : Type :=
| git_branch_list (branch : string)      (* git branch --list B *)
| git_ls_remote (branch : string)        (* git ls-remote --heads origin B *)
| git_checkout (branch : string)         (* git checkout B *)
| git_checkout_new (branch : string)     (* git checkout -b B *)
| git_status                             (* git status --porcelain *)
| git_add_all                            (* git add -A *)
| git_commit (message : string)          (* git commit -m M *)
| git_push (branch : string)             (* git push -u origin B *)
| git_push_force (branch : string)       (* git push -f -u origin B *)
| gh_pr_create (repo title body head base : string)
| api_pr_create (token repo title body head base : string).

(** A program that starts subprocesses: it ends with a value, ends with
    an exception, or starts a process and goes on from what came of it
    ([None]: the process could not be started). *)
Inductive prog (A : Type) : Type :=
| Done (a : A)
| Fail (e : exn)
| Spawn (c : cmd) (k : option completed → prog A).

Arguments Done {A} a.
Arguments Fail {A} e.
Arguments Spawn {A} c k.

Fixpoint prog_bind {A B : Type} (f : A → prog B) (p : prog A) : prog B :=
  match p with
  | Done a => f a
  | Fail e => Fail e
  | Spawn c k => Spawn c (λ o, prog_bind f (k o))
  end.

#[global] Instance prog_mret : MRet prog := λ A a, Done a.
#[global] Instance prog_mbind : MBind prog := λ A B f p, prog_bind f p.

(** [try: p except E: handler], for the exceptions [handles] accepts. *)
Fixpoint try_except {A : Type} (handles : exn → bool) (handler : prog A)
    (p : prog A) : prog A :=
  match p with
  | Done a => Done a
  | Fail e => if handles e then handler else Fail e
  | Spawn c k => Spawn c (λ o, try_except handles handler (k o))
  end.

Definition any_exception (e : exn) : bool := true.

Definition called_process_error (e : exn) : bool :=
  match e with CalledProcessError => true | _ => false end.

(** [subprocess.run(c)] and [subprocess.run(c, check=True)]. *)
Definition run (c : cmd) : prog completed :=
  Spawn c (λ o, match o with Some r => Done r | None => Fail OSError end).

Definition run_checked (c : cmd) : prog completed :=
  r ← run c;
  if (returncode r =? 0)%Z then Done r else Fail CalledProcessError.

(** [bool(result.stdout.strip())] *)
Definition has_output (r : completed) : bool :=
  Py.nonempty (Py.strip Py.is_space (stdout r)).

Definition _branch_exists (branch_name : string) : prog bool :=
  try_except any_exception (Done false)
    ((* Check local *)
     result ← run (git_branch_list branch_name);
     if has_output result then Done true else
     (* Check remote *)
     result ← run (git_ls_remote branch_name);
     Done (has_output result)).

Definition _has_changes : prog bool :=
  result ← run git_status;
  Done (has_output result).

Section Pipeline.

(** [int(s)], and the [number] and [html_url] that [json.loads] finds in
    the answer of the pulls endpoint; [None] when they raise. *)
Variable int_of_str : string → option Z.
Variable pr_of_json : string → option Ref.

(** The body that [_build_pr_body] rendered. *)
Variable pr_body : string.

Variable auth : option GitHubAuth.
Variable repo : option string.

Definition _create_pr (title body branch : string) : prog (option Ref) :=
  match auth, repo with
  | Some a, Some repo =>
      try_except any_exception (Done None)
        (match method a, token a with
         | gh_cli, _ =>
             (* Try main first, then master *)
             result ←
               try_except called_process_error
                 (run_checked (gh_pr_create repo title body branch "master"))
                 (run_checked (gh_pr_create repo title body branch "main"));
             let url := Py.strip Py.is_space (stdout result) in
             match int_of_str (Py.split_last "/" url) with
             | Some n => Done (Some {| number := Some n; url := Some url |})
             | None => Fail ValueError
             end
         | token_auth, Some token =>
             if Py.nonempty token then
               result ← run (api_pr_create token repo title body branch "main");
               result ←
                 (if (returncode result =? 0)%Z then Done result
                  else (* Try master *)
                    run_checked (api_pr_create token repo title body branch "master"));
               match pr_of_json (stdout result) with
               | Some pr => Done (Some pr)
               | None => Fail ValueError
               end
             else Done None
         | token_auth, None => Done None
         end)
  | _, _ => Done None
  end.

Definition _create_branch_and_pr (task : TaskInfo) (issue_data : Ref)
    : prog (option Ref) :=
  (* Generate branch name *)
  let branch_name := _generate_branch_name task in
  (* Check if branch exists *)
  branch_exists ← _branch_exists branch_name;
  _ ← (if branch_exists : bool
       then run_checked (git_checkout branch_name)
       else run_checked (git_checkout_new branch_name));
  (* Stage and commit changes *)
  has_changes ← _has_changes;
  _ ← (if has_changes : bool then
         let commit_msg := _generate_commit_message task issue_data in
         _ ← run_checked git_add_all;
         _ ← run_checked (git_commit commit_msg);
         Done ()
       else Done ());
  (* Push branch *)
  _ ← try_except called_process_error
        ((* Try force push if rejected *)
         run_checked (git_push_force branch_name))
        (run_checked (git_push branch_name));
  (* Create PR *)
  let pr_title := "[" +:+ task_id task +:+ "] " +:+ title task in
  _create_pr pr_title pr_body branch_name.

End Pipeline.

(** *** Running a program *)

Definition event : Type := cmd * option completed.

(** An environment answers each command, knowing all that happened
    before. *)
Definition environment : Type := list event → cmd → option completed.

(** The events of a run that starts after [history], and its outcome. *)
Fixpoint exec {A : Type} (env : environment) (p : prog A) (history : list event)
    : list event * result A :=
  match p with
  | Done a => ([], Ok a)
  | Fail e => ([], Raise e)
  | Spawn c k =>
      let o := env history c in
      let '(events, outcome) := exec env (k o) (history ++ [(c, o)]) in
      ((c, o) :: events, outcome)
  end.

Definition is_push (e : event) : bool :=
  match e.1 with
  | git_push _ | git_push_force _ => true
  | _ => false
  end.

Definition pushes (history : list event) : list event :=
  List.filter is_push history.


End Pipeline.

(** ** Linkage validation: where the ids come from *)

Module Path.

(** [s.endswith(suffix)] *)
Fixpoint endswith (suffix s : string) : bool :=
  String.eqb suffix s
  || match s with
     | EmptyString => false
     | String _ s' => endswith suffix s'
     end.

(** [path.stem]: the final component without its last suffix. The suffix
    starts at the last dot of the name, unless that dot is the first or
    the last character of the name. *)
Definition stem (name : string) : string :=
  match Py.before_last "." name with
  | Some head =>
      if Py.nonempty head && (S (String.length head) <? String.length name)%nat
      then head else name
  | None => name
  end.

(** [dir.rglob("*.yaml")], on the names of the entries below [dir]. *)
Definition rglob_yaml (names : list string) : list string :=
  List.filter (endswith ".yaml") names.

End Path.

Module Ids.

(** [get_task_ids]; a directory is the list of the names of the entries
    below it, [None] when it does not exist. *)
Definition get_task_ids (tasks_dir : option (list string)) : gset string :=
  match tasks_dir with
  | None => ∅
  | Some names =>
      foldl (λ ids path, let task_id := Path.stem path in ids ∪ {[ task_id ]})
        ∅ (Path.rglob_yaml names)
  end.

(** [get_report_ids] *)
Definition get_report_ids (reports_dir : option (list string)) : gset string :=
  match reports_dir with
  | None => ∅
  | Some names =>
      foldl
        (λ ids path,
           let filename := Path.stem path in
           if Path.endswith ".report" filename
           then
             let report_id := Py.str_take (String.length filename - 7) filename in
             ids ∪ {[ report_id ]}
           else ids)
        ∅ (Path.rglob_yaml names)
  end.

(** What a [set] accepts as an element. *)
Definition hashable (v : yaml) : bool :=
  match v with
  | YList _ | YMap _ => false
  | _ => true
  end.

(** The loop over [data["tasks"]], [ids] being the ids added so far, in
    the order they were added. [ids.add] raises [TypeError] on an id that
    is not hashable; [except Exception: pass] swallows it, which ends the
    loop with the ids added before. *)
Fixpoint add_ids (tasks : list yaml) (ids : list yaml) : list yaml :=
  match tasks with
  | [] => ids
  | task :: tasks' =>
      match task with
      | YMap fields =>
          match Dict.get "id" fields with
          | Some id => if hashable id then add_ids tasks' (ids ++ [id]) else ids
          | None => add_ids tasks' ids
          end
      | _ => add_ids tasks' ids
      end
  end.

(** [get_ledger_tasks]; the ledger file is [None] when it does not exist.
    A file that does not parse, and a [tasks] value that cannot be
    iterated over, raise inside the [try] and leave the set empty. *)
Definition get_ledger_tasks (ledger_file : option loaded) : list yaml :=
  match ledger_file with
  | Some (Document (YMap data)) =>
      match Dict.get "tasks" data with
      | Some tasks =>
          match Yaml.iter tasks with
          | Ok items => add_ids items []
          | Raise _ => []
          end
      | None => []
      end
  | _ => []
  end.

End Ids.

(** ** Authentication *)

Module Auth.

(** What a call of [input()] gives: a line, or one of the two exceptions
    that the prompt handles. The lines typed are consumed call by call;
    when they are used up the input is at its end. *)
Inductive keyboard : Type :=
| Line (s : string)
| Interrupt.                 (* KeyboardInterrupt *)

(** What the function finds on the host. *)
Record host : Type := {
  gh_on_path : bool;                    (* shutil.which("gh") *)
  gh_auth_status : option completed;    (* gh auth status; None: it raised *)
  getenv : string → option string;
  typed : list keyboard;
  env_local_writable : bool;            (* open(".env.local", "a") succeeds *)
}.

(** What the function does to the outside, prints apart. *)
Inductive effect : Type :=
| Asked (prompt : string)
| Appended (path text : string).

(** [a or b] on two results of [os.getenv]. *)
Definition or_else (a b : option string) : option string :=
  match a with
  | Some s => if Py.nonempty s then a else b
  | None => b
  end.

(** [input(prompt).strip()]; [None] when [EOFError] or
    [KeyboardInterrupt] was raised. *)
Definition input (prompt : string) (typed : list keyboard)
    : option string * list keyboard :=
  match typed with
  | Line s :: typed' => (Some (Py.strip Py.is_space s), typed')
  | Interrupt :: typed' => (None, typed')
  | [] => (None, [])
  end.

Definition _prompt_for_auth (h : host) : result (option GitHubAuth) * list effect :=
  let ask_choice := Asked "Enter choice (1/2/3): " in
  match input "Enter choice (1/2/3): " (typed h) with
  | (None, _) => (Ok None, [ask_choice])
  | (Some choice, typed') =>
      if String.eqb choice "1" then (Ok None, [ask_choice])
      else if String.eqb choice "2" then
        let ask_token := Asked (Py.newline +:+ "Paste your token: ") in
        match input (Py.newline +:+ "Paste your token: ") typed' with
        | (None, _) => (Ok None, [ask_choice; ask_token])
        | (Some token, _) =>
            if Py.nonempty token then
              (* Save to .env.local for future use *)
              if env_local_writable h then
                (Ok (Some {| method := token_auth; token := Some token |}),
                 [ask_choice; ask_token;
                  Appended ".env.local"
                    (Py.newline +:+ "GITHUB_TOKEN=" +:+ token +:+ Py.newline)])
              else (Raise OSError, [ask_choice; ask_token])
            else (Ok None, [ask_choice; ask_token])
        end
      else if String.eqb choice "3" then (Ok None, [ask_choice])
      else (Ok None, [ask_choice])
  end.

Definition _ensure_auth (ci_mode : bool) (h : host)
    : result (option GitHubAuth) * list effect :=
  let gh_ready :=
    (* Check for gh CLI auth first (preferred) *)
    gh_on_path h
    && match gh_auth_status h with
       | Some result => (returncode result =? 0)%Z
       | None => false
       end in
  if gh_ready then (Ok (Some {| method := gh_cli; token := None |}), [])
  else
    (* Check for token in environment *)
    let token := or_else (getenv h "GITHUB_TOKEN") (getenv h "GH_TOKEN") in
    match token with
    | Some t =>
        if Py.nonempty t
        then (Ok (Some {| method := token_auth; token := Some t |}), [])
        else if ci_mode then (Ok None, []) else _prompt_for_auth h
    | None =>
        (* CI mode: fail if no auth *)
        if ci_mode then (Ok None, [])
        (* Interactive mode: prompt user *)
        else _prompt_for_auth h
    end.

End Auth.

(** ** Issue and pull-request bodies *)

Module Render.

(** A report as [_load_report] hands it on. The dataclass does not check
    its annotations: each field holds whatever the YAML document had under
    the key. *)
Record ReportInfo : Type := {
  status : yaml;
  summary : yaml;
  acceptance_criteria_results : yaml;
  files_modified : yaml;
  verification : yaml;
}.


Section Format.

(** [repr] of a list or a mapping, and the two marks of the verification
    results, which lie outside the character range of this development. *)
Variable repr : yaml → string.
Variables passed_mark failed_mark : string.



(** [x.get(k, dflt)]: only a mapping has [get]. *)
Definition get (k : string) (dflt : yaml) (x : yaml) : result yaml :=
  Yaml.get_or k dflt x.




End Format.

End Render.

(** ** The orchestrator *)

Module Integrator.

(** What the methods that [run] calls come back with. [_load_task] and
    [_load_report] handle their own exceptions; the other methods can
    raise, and [run] lets their exceptions through. The issue and the
    pipeline methods work with the repository and the credentials that
    [run] stored before. *)
Record callees : Type := {
  load_task : option TaskInfo;
  load_report : option Render.ReportInfo;
  detect_repository : result (option string);
  ensure_auth : result (option GitHubAuth);
  create_or_update_issue :
    string → GitHubAuth → TaskInfo → option Render.ReportInfo → result (option Ref);
  create_branch_and_pr :
    string → GitHubAuth → TaskInfo → option Render.ReportInfo → Ref
    → result (option Ref);
}.

(** What a run does besides printing, in order. *)
Inductive call : Type :=
| IssueCall (task : TaskInfo)
| PipelineCall (task : TaskInfo) (issue_data : Ref)
| LedgerWrite (document : yaml).

(** [self._update_ledger(...)] followed by [return code]: the ledger is
    written unless the update raises. *)
Definition update_and_return (today task_id : string) (issue_data : Ref)
    (pr_data : option Ref) (ledger_file : option yaml) (code : Z)
    (calls : list call) : result Z * list call :=
  match Ledger._update_ledger today task_id issue_data pr_data ledger_file with
  | Ok document => (Ok code, calls ++ [LedgerWrite document])
  | Raise e => (Raise e, calls)
  end.

(** [run]; [today] and [ledger_file] are what [_update_ledger] reads. The
    project-board step only prints. *)
Definition run (c : callees) (today : string) (ledger_file : option yaml)
    (task_id : string) (skip_pr : bool) : result Z * list call :=
  (* Load task and report *)
  match load_task c with
  | None => (Ok 1%Z, [])
  | Some task =>
      let report := load_report c in
      (* Detect repository *)
      match detect_repository c with
      | Raise e => (Raise e, [])
      | Ok repo =>
          match repo with
          | Some repo =>
              if Py.nonempty repo then
                (* Check authentication *)
                match ensure_auth c with
                | Raise e => (Raise e, [])
                | Ok None => (Ok 1%Z, [])
                | Ok (Some auth) =>
                    (* Create or update issue *)
                    match create_or_update_issue c repo auth task report with
                    | Raise e => (Raise e, [IssueCall task])
                    | Ok issue =>
                        let issue_data :=
                          default {| number := None; url := None |} issue in
                        if skip_pr then
                          update_and_return today task_id issue_data None
                            ledger_file 0 [IssueCall task]
                        else
                          (* Create branch and PR *)
                          let calls := [IssueCall task; PipelineCall task issue_data] in
                          match create_branch_and_pr c repo auth task report issue_data with
                          | Raise e => (Raise e, calls)
                          | Ok None =>
                              update_and_return today task_id issue_data None
                                ledger_file 1 calls
                          | Ok (Some pr_data) =>
                              (* Update ledger *)
                              update_and_return today task_id issue_data
                                (Some pr_data) ledger_file 0 calls
                          end
                    end
                end
              else (Ok 1%Z, [])
          | None => (Ok 1%Z, [])
          end
      end
  end.

End Integrator.

(** ** The authentication check *)

Module Check.

(** What [check_github_auth.py] finds beyond what the integrator's own
    check reads: the standard error of [gh auth status], the answer of
    [gh api user] and that of the [curl] probe ([None]: the subprocess
    raised or ran out of time). *)
Record host : Type := {
  auth_host : Auth.host;
  gh_auth_stderr : string;
  gh_api_user : option completed;
  curl_user : option completed;
}.

(** The messages of the two checks. *)
Inductive note : Type :=
| NotInstalled                (* GitHub CLI (gh) not installed *)
| AuthenticatedAs (username : string)
| AuthenticatedCli            (* Authenticated via gh CLI *)
| InstalledNotAuthenticated   (* gh CLI installed but not authenticated *)
| CliNotAuthenticated         (* gh CLI not authenticated *)
| ErrorCheckingCli
| NoToken
| TokenFormat                 (* Token found but format looks invalid *)
| TokenAuthenticated
| TokenInvalid                (* Token is invalid or expired *)
| TokenVerificationFailed (http_code : string)
| ErrorVerifyingToken.

Section Checks.

(** The check mark that [gh] prints, which lies outside the character
    range of this development. *)
Variable check_mark : string.

Definition check_gh_cli_auth (h : host) : bool * note :=
  if negb (Auth.gh_on_path (auth_host h)) then (false, NotInstalled)
  else
    match Auth.gh_auth_status (auth_host h) with
    | None => (false, ErrorCheckingCli)
    | Some result =>
        if (returncode result =? 0)%Z then
          (* Parse output to find account and scopes *)
          let output := stdout result +:+ gh_auth_stderr h in
          (* Check for logged in user *)
          if Py.str_in "Logged in to" output || Py.str_in check_mark output then
            (* Try to get current user *)
            match gh_api_user h with
            | Some user_result =>
                if (returncode user_result =? 0)%Z
                then (true, AuthenticatedAs (Py.strip Py.is_space (stdout user_result)))
                else (true, AuthenticatedCli)
            | None => (true, AuthenticatedCli)
            end
          else (false, InstalledNotAuthenticated)
        else (false, CliNotAuthenticated)
    end.

Definition check_token_auth (h : host) : bool * note :=
  let token :=
    Auth.or_else (Auth.getenv (auth_host h) "GITHUB_TOKEN")
      (Auth.getenv (auth_host h) "GH_TOKEN") in
  match token with
  | None => (false, NoToken)
  | Some token =>
      if negb (Py.nonempty token) then (false, NoToken)
      (* Basic validation *)
      else if negb (String.prefix "ghp_" token || String.prefix "gho_" token
                    || String.prefix "github_pat_" token)
      then (false, TokenFormat)
      else
        (* Try to verify token works *)
        match curl_user h with
        | Some result =>
            let code := Py.strip Py.is_space (stdout result) in
            if String.eqb code "200" then (true, TokenAuthenticated)
            else if String.eqb code "401" then (false, TokenInvalid)
            else (false, TokenVerificationFailed code)
        | None => (false, ErrorVerifyingToken)
        end
  end.

(** The exit code of [main]; [--verbose] and [--ci] change only what is
    printed. *)
Definition main (h : host) : Z :=
  (* Check both authentication methods *)
  let '(gh_ok, gh_msg) := check_gh_cli_auth h in
  let '(token_ok, token_msg) := check_token_auth h in
  (* Determine overall status *)
  if gh_ok || token_ok then 0%Z else 1%Z.

End Checks.

End Check.

(** ** Vocabulary of the statements *)

(** Every character of [s] satisfies [p]. *)
Fixpoint str_forall (p : ascii → bool) (s : string) : bool :=
  match s with
  | EmptyString => true
  | String c s' => p c && str_forall p s'
  end.

Definition first_char (s : string) : option ascii :=
  match s with
  | EmptyString => None
  | String c _ => Some c
  end.

Fixpoint last_char (s : string) : option ascii :=
  match s with
  | EmptyString => None
  | String c s' => match last_char s' with Some d => Some d | None => Some c end
  end.

Definition starts_with_hyphen (s : string) : bool :=
  match first_char s with Some c => Py.is_hyphen c | None => false end.

Definition ends_with_hyphen (s : string) : bool :=
  match last_char s with Some c => Py.is_hyphen c | None => false end.

Definition word_or_hyphen (c : ascii) : bool := Py.is_word c || Py.is_hyphen c.

(** The text that the lines [ls] add when they are joined behind a first
    line: each one after a line break. *)
Definition lines_after (ls : list string) : string :=
  foldr (λ l rest, Py.newline +:+ l +:+ rest) "" ls.

Definition bullet (text : string) : string := "- " +:+ text.

(** Tasks used as examples. *)
Definition task_with (id title : string) : TaskInfo :=
  {| task_id := id; title := title; goal := "Keep sessions alive";
     context := ""; acceptance_criteria := ["Login works"; "Logout works"] |}.

Definition issue_12 : Ref :=
  {| number := Some 12%Z; url := Some "https://github.com/octocat/demo/issues/12" |}.

Definition long_title_task : TaskInfo :=
  task_with "TASK-2024-0001" "Add metrics dashboard for the whole team now".

Definition long_id_task : TaskInfo :=
  task_with "T00000000000000000000000000000000000000000001" "Add metrics".

(** A ledger document that [_update_ledger] can work on: a mapping whose
    [tasks], when there is one, is a list. *)
Definition usable_ledger (ledger : yaml) : bool :=
  match ledger with
  | YMap fields =>
      match Dict.get "tasks" fields with
      | Some (YList _) | None => true
      | Some _ => false
      end
  | _ => false
  end.

(** The fields that a merge writes into an entry. *)
Definition stamped_field (k : string) : bool :=
  String.eqb k "status" || String.eqb k "github" || String.eqb k "completed".

Definition ledger_with_duplicates : yaml :=
  YMap [ ("version", YInt 2);
         ("tasks", YList [ YMap [("id", YStr "T001"); ("status", YStr "pending")];
                           YMap [("id", YStr "T001"); ("note", YStr "retry")] ]) ].

Definition ledger_with_notes : yaml :=
  YMap [ ("version", YInt 2);
         ("tasks", YList [ YMap [("id", YStr "T001"); ("owner", YStr "ana")];
                           YMap [("id", YStr "T002"); ("status", YStr "pending")] ]) ].

Definition pr_7 : Ref :=
  {| number := Some 7%Z; url := Some "https://github.com/octocat/demo/pull/7" |}.

Definition pr_9 : Ref :=
  {| number := Some 9%Z; url := Some "https://github.com/octocat/demo/pull/9" |}.

(** Stores and credentials used as examples. *)
Definition token_login : option GitHubAuth :=
  Some {| method := token_auth; token := Some "ghp_example" |}.

Definition cli_login : option GitHubAuth :=
  Some {| method := gh_cli; token := None |}.

Definition online : Remote.network :=
  {| Remote.list_ok := true; Remote.write_ok := true |}.

Definition chore (n : nat) : Remote.issue :=
  {| Remote.issue_number := Z.of_nat n; Remote.issue_title := "Routine upkeep";
     Remote.issue_body := ""; Remote.issue_labels := []; Remote.issue_open := true |}.

Definition tracked (n : Z) (is_open : bool) : Remote.issue :=
  {| Remote.issue_number := n; Remote.issue_title := "[T001] Fix login bug";
     Remote.issue_body := "## Goal"; Remote.issue_labels := ["agent-task"; "automation"];
     Remote.issue_open := is_open |}.

(** Thirty newer issues in front of the one that tracks T001. *)
Definition crowded_store : Remote.store :=
  (chore <$> reverse (seq 2 30)) ++ [tracked 1 true].

Definition closed_store : Remote.store := [chore 2; tracked 1 false].

(** A search that finds an issue by a substring of its title. *)
Definition title_search (query : string) (i : Remote.issue) : bool :=
  Py.str_in query (Remote.issue_title i).

Definition matching (task_id : string) (st : Remote.store) : list Remote.issue :=
  List.filter (Remote.title_has task_id) st.




Definition returned {A : Type} (r : result A) : bool :=
  match r with Ok _ => true | Raise _ => false end.


(** An environment in which the remote branch has diverged: the normal
    push is turned down, everything else succeeds and prints nothing. *)
Definition diverged : Pipeline.environment :=
  λ history c,
    match c with
    | Pipeline.git_push _ => Some {| returncode := 1; stdout := "" |}
    | Pipeline.git_status => Some {| returncode := 0; stdout := " M auth.py" |}
    | Pipeline.gh_pr_create _ _ _ _ _ =>
        Some {| returncode := 0; stdout := "https://github.com/octocat/demo/pull/7" |}
    | _ => Some {| returncode := 0; stdout := "" |}
    end.

(** A contract as the validators expect it: a mapping in which every
    section that is present has the shape the code reads it with -- lists
    of field names, a list of allowed status values, an integer bound. *)
Definition field_ok (k : string) (check : yaml → bool) (d : dict) : bool :=
  match Dict.get k d with
  | Some v => check v
  | None => true
  end.

Definition is_list (v : yaml) : bool :=
  match v with YList _ => true | _ => false end.

Definition is_int (v : yaml) : bool :=
  match v with YInt _ => true | _ => false end.

Definition is_mapping_with (check : dict → bool) (v : yaml) : bool :=
  match v with YMap d => check d | _ => false end.

Definition well_formed_contract (contract : yaml) : bool :=
  is_mapping_with
    (λ c,
       field_ok "required_fields" Yaml._is_list_of_str c
       && field_ok "enums" (is_mapping_with (field_ok "status" is_list)) c
       && field_ok "constraints"
            (is_mapping_with (field_ok "summary_max_lines" is_int)) c
       && field_ok "acceptance_criteria_results_item"
            (is_mapping_with (field_ok "required_fields" Yaml._is_list_of_str)) c
       && field_ok "verification"
            (is_mapping_with (field_ok "required_fields" Yaml._is_list_of_str)) c)
    contract.

(** The allowed status values of a contract. *)
Definition status_enum (contract : yaml) : list yaml :=
  match contract with
  | YMap c =>
      match default (YMap []) (Dict.get "enums" c) with
      | YMap e =>
          match default (YList []) (Dict.get "status" e) with
          | YList allowed => allowed
          | _ => []
          end
      | _ => []
      end
  | _ => []
  end.

Definition is_status_violation (e : error) : bool :=
  match e.2 with StatusNotAllowed _ _ => true | _ => false end.

Definition reports_status (errors : list error) : bool :=
  existsb is_status_violation errors.

(** A stage of a validator that only adds errors, none about the status. *)
Definition grows (stage : list error → result (list error)) : Prop :=
  ∀ errors, ∃ extra,
    stage errors = Ok (errors ++ extra) ∧ reports_status extra = false.

(** What one file of a scan adds to the errors of the scan. *)
Definition findings (validate : dict → yaml → string → result (list error))
    (contract : yaml) (file : string * loaded) : list error :=
  match file.2 with
  | ParseFailure msg => [(file.1, FailedToParse msg)]
  | Document (YMap data) =>
      match validate data contract file.1 with
      | Ok errors => errors
      | Raise _ => []
      end
  | Document _ => [(file.1, TopLevelNotMapping)]
  end.

(** A document that is reported as a whole: it did not parse, or its top
    level is not a mapping. *)
Definition unreadable (outcome : loaded) : option violation :=
  match outcome with
  | ParseFailure msg => Some (FailedToParse msg)
  | Document (YMap _) => None
  | Document _ => Some TopLevelNotMapping
  end.

Definition exit_code (errors : list error) : Z :=
  match errors with [] => 0%Z | _ => 1%Z end.

(** Documents used as examples. *)
Definition report_contract : yaml :=
  YMap [ ("required_fields",
          YList [YStr "status"; YStr "summary"; YStr "acceptance_criteria_results"]);
         ("enums", YMap [("status", YList [YStr "success"; YStr "partial"; YStr "failed"])]);
         ("constraints", YMap [("summary_max_lines", YInt 6)]);
         ("acceptance_criteria_results_item",
          YMap [("required_fields", YList [YStr "criterion"; YStr "passed"])]);
         ("verification",
          YMap [("required_fields", YList [YStr "commands_run"; YStr "results"])]) ].

Definition lenient_contract : yaml :=
  YMap [ ("required_fields", YList [YStr "summary"]);
         ("enums", YMap [("status", YList [YStr "success"; YNull])]) ].

Definition report_without_status : dict :=
  [ ("summary", YList [YStr "Sessions survive a restart"]);
    ("acceptance_criteria_results",
     YList [YMap [("criterion", YStr "Login works"); ("passed", YBool true)]]);
    ("files_modified",
     YList [YMap [("path", YStr "auth.py"); ("description", YStr "keep-alive")]]);
    ("verification",
     YMap [("commands_run", YList [YStr "pytest"]); ("results", YList [YStr "ok"])]) ].

(** *** The validators, check by check *)

(** What a contract holds under a key, or the default the code reads it
    with. *)
Definition contract_value (k : string) (dflt contract : yaml) : yaml :=
  match contract with
  | YMap c => default dflt (Dict.get k c)
  | _ => dflt
  end.

Definition names_in (v : yaml) : list yaml :=
  match v with YList l => l | _ => [] end.

Definition required_fields (contract : yaml) : list yaml :=
  names_in (contract_value "required_fields" (YList []) contract).

Definition item_required_fields (contract : yaml) : list yaml :=
  required_fields (contract_value "acceptance_criteria_results_item" (YMap []) contract).

Definition verification_required_fields (contract : yaml) : list yaml :=
  required_fields (contract_value "verification" (YMap []) contract).

Definition summary_max_lines (contract : yaml) : yaml :=
  contract_value "summary_max_lines" (YInt 6)
    (contract_value "constraints" (YMap []) contract).

(** The names of [ks] that are no key of [d], each as an error. *)
Definition missing_keys (path : string) (missing : yaml → violation)
    (ks : list yaml) (d : dict) : list error :=
  flat_map
    (λ k, match Yaml.key_in k d with
          | Ok true => []
          | _ => [(path, missing k)]
          end)
    ks.

Definition required_check (path : string) (d : dict) (contract : yaml) : list error :=
  missing_keys path MissingRequired (required_fields contract) d.

Definition status_check (path : string) (report : dict) (contract : yaml)
    : list error :=
  let status := default YNull (Dict.get "status" report) in
  if existsb (Yaml.eq status) (status_enum contract) then []
  else [(path, StatusNotAllowed status (YList (status_enum contract)))].

Definition summary_check (path : string) (report : dict) (contract : yaml)
    : list error :=
  match default YNull (Dict.get "summary" report) with
  | YList lines =>
      if forallb Yaml.is_str lines then
        match len_gt (length lines) (summary_max_lines contract) with
        | Ok true => [(path, SummaryTooLong (length lines) (summary_max_lines contract))]
        | _ => []
        end
      else [(path, SummaryNotStrList)]
  | _ => [(path, SummaryNotStrList)]
  end.

Definition item_check (path : string) (item_req : list yaml) (entry : nat * yaml)
    : list error :=
  match entry.2 with
  | YMap d =>
      missing_keys path (AcrItemMissing entry.1) item_req d
      ++ match Dict.get "passed" d with
         | Some (YBool _) | None => []
         | Some _ => [(path, AcrPassedNotBool entry.1)]
         end
  | _ => [(path, AcrItemNotMapping entry.1)]
  end.

Definition results_check (path : string) (report : dict) (contract : yaml)
    : list error :=
  match default YNull (Dict.get "acceptance_criteria_results" report) with
  | YList ((_ :: _) as items) =>
      flat_map (item_check path (item_required_fields contract)) (Py.enumerate items)
  | _ => [(path, AcrNotNonEmptyList)]
  end.

Definition files_check (path : string) (report : dict) : list error :=
  match default YNull (Dict.get "files_modified" report) with
  | YList items => flat_map (Report.check_file path) (Py.enumerate items)
  | _ => [(path, FilesNotList)]
  end.

Definition verification_check (path : string) (report : dict) (contract : yaml)
    : list error :=
  match default YNull (Dict.get "verification" report) with
  | YMap v =>
      missing_keys path VerificationMissing (verification_required_fields contract) v
      ++ Report.check_str_list path (VerificationNotStrList "commands_run")
           "commands_run" v
      ++ Report.check_str_list path (VerificationNotStrList "results") "results" v
  | _ => [(path, VerificationNotMapping)]
  end.

Definition lists_check (path : string) (report : dict) : list error :=
  Report.check_str_list path (NotStrList "risks") "risks" report
  ++ Report.check_str_list path (NotStrList "next_steps") "next_steps" report.

(** The check of the report validator that emits a violation. *)
Inductive check : Type :=
| RequiredCheck | StatusCheck | SummaryCheck | ResultsCheck | FilesCheck
| VerificationCheck | ListsCheck | NoCheck.

Definition check_of (w : violation) : check :=
  match w with
  | MissingRequired _ => RequiredCheck
  | StatusNotAllowed _ _ => StatusCheck
  | SummaryNotStrList | SummaryTooLong _ _ => SummaryCheck
  | AcrNotNonEmptyList | AcrItemNotMapping _ | AcrItemMissing _ _
  | AcrPassedNotBool _ => ResultsCheck
  | FilesNotList | FilesItemIncomplete _ => FilesCheck
  | VerificationNotMapping | VerificationMissing _
  | VerificationNotStrList _ => VerificationCheck
  | NotStrList _ => ListsCheck
  | _ => NoCheck
  end.

Definition findings_of (c : check) (path : string) (report : dict) (contract : yaml)
    : list error :=
  match c with
  | RequiredCheck => required_check path report contract
  | StatusCheck => status_check path report contract
  | SummaryCheck => summary_check path report contract
  | ResultsCheck => results_check path report contract
  | FilesCheck => files_check path report
  | VerificationCheck => verification_check path report contract
  | ListsCheck => lists_check path report
  | NoCheck => []
  end.

(** The value of a report field, [None] standing for an absent key as
    [report.get] has it. *)
Definition field (k : string) (report : dict) : yaml :=
  default YNull (Dict.get k report).

Definition is_mapping (v : yaml) : bool :=
  match v with YMap _ => true | _ => false end.

(** Every name of [ks] is a key of [d]. *)
Definition has_keys (ks : list yaml) (d : dict) : Prop :=
  ∀ k, k ∈ ks → Yaml.key_in k d = Ok true.

(** The value under [k], if there is one, is a list of strings. *)
Definition str_list_if_present (k : string) (d : dict) : Prop :=
  ∀ x, Dict.get k d = Some x → Yaml._is_list_of_str x = true.

(** The shape of a report that the validator accepts. *)
Definition report_shape (report : dict) (contract : yaml) : Prop :=
  has_keys (required_fields contract) report
  ∧ existsb (Yaml.eq (field "status" report)) (status_enum contract) = true
  ∧ (∃ lines m,
       Dict.get "summary" report = Some (YList lines)
       ∧ forallb Yaml.is_str lines = true
       ∧ summary_max_lines contract = YInt m
       ∧ (Z.of_nat (length lines) ≤ m)%Z)
  ∧ (∃ items,
       Dict.get "acceptance_criteria_results" report = Some (YList items)
       ∧ items ≠ []
       ∧ ∀ item, item ∈ items →
           ∃ d, item = YMap d
                ∧ has_keys (item_required_fields contract) d
                ∧ ∀ x, Dict.get "passed" d = Some x → ∃ b, x = YBool b)
  ∧ (∃ files,
       Dict.get "files_modified" report = Some (YList files)
       ∧ ∀ f, f ∈ files →
           ∃ d, f = YMap d ∧ Dict.mem "path" d = true
                ∧ Dict.mem "description" d = true)
  ∧ (∃ checks : dict,
       Dict.get "verification" report = Some (YMap checks)
       ∧ has_keys (verification_required_fields contract) checks
       ∧ str_list_if_present "commands_run" checks
       ∧ str_list_if_present "results" checks)
  ∧ str_list_if_present "risks" report
  ∧ str_list_if_present "next_steps" report.

Definition complete_report : dict :=
  ("status", YStr "success") :: report_without_status.

Definition long_summary_report : dict :=
  [ ("status", YStr "success");
    ("summary", YList [YStr "a"; YStr "b"; YStr "c"; YStr "d"; YStr "e"; YStr "f";
                       YStr "g"]);
    ("acceptance_criteria_results", YList [YStr "Login works"; YMap []]) ].

(** *** The task validator, check by check *)

(** A contract whose [required_fields], when it has them, is a list of
    strings: all that [validate_task] reads of it. *)
Definition names_contract (contract : yaml) : bool :=
  is_mapping_with (field_ok "required_fields" Yaml._is_list_of_str) contract.

Definition context_check (path : string) (task : dict) : list error :=
  match field "context" task with
  | YStr context =>
      if (10 <? Py.count_lines context)%nat
      then [(path, ContextTooLong (Py.count_lines context))] else []
  | _ => []
  end.

Definition criteria_check (path : string) (task : dict) : list error :=
  match field "acceptance_criteria" task with
  | YNull => []
  | YList [] => [(path, AcceptanceCriteriaEmpty)]
  | ac =>
      if Yaml._is_list_of_str ac then []
      else [(path, NotStrList "acceptance_criteria")]
  end.

Definition routing_check (path : string) (task : dict) : list error :=
  match field "routing" task with
  | YNull => []
  | YMap routing =>
      (if Dict.mem "playbook" routing then [] else [(path, RoutingPlaybookRequired)])
      ++ match Dict.get "contracts" routing with
         | None => [(path, RoutingContractsRequired)]
         | Some contracts =>
             if Yaml._is_list_of_str contracts then []
             else [(path, RoutingContractsNotStrList)]
         end
  | _ => [(path, RoutingNotMapping)]
  end.

(** The value under [k] is absent, null, or a list of strings. *)
Definition optional_str_list (k : string) (task : dict) : Prop :=
  field k task = YNull ∨ Yaml._is_list_of_str (field k task) = true.

(** The context, when it is a string, has at most ten lines. *)
Definition short_context (task : dict) : Prop :=
  ∀ context, field "context" task = YStr context →
             (Py.count_lines context ≤ 10)%nat.

(** The acceptance criteria are absent, null, or a non-empty list of
    strings. *)
Definition criteria_ok (task : dict) : Prop :=
  field "acceptance_criteria" task = YNull
  ∨ ∃ c cs, field "acceptance_criteria" task = YList (c :: cs)
            ∧ forallb Yaml.is_str (c :: cs) = true.

(** The routing section is absent, null, or a mapping with a [playbook]
    and a list of strings under [contracts]. *)
Definition routing_ok (task : dict) : Prop :=
  field "routing" task = YNull
  ∨ ∃ routing contracts,
      field "routing" task = YMap routing
      ∧ Dict.mem "playbook" routing = true
      ∧ Dict.get "contracts" routing = Some contracts
      ∧ Yaml._is_list_of_str contracts = true.

Definition task_contract : yaml :=
  YMap [("required_fields",
         YList [YStr "id"; YStr "title"; YStr "goal"; YStr "acceptance_criteria"])].

Definition task_document : dict :=
  [ ("id", YStr "T001"); ("title", YStr "Add login"); ("goal", YNull);
    ("context", YStr "Sessions are lost on restart.");
    ("inputs", YNull);
    ("acceptance_criteria", YList [YStr "Login works"]);
    ("routing", YMap [("playbook", YStr "builder"); ("contracts", YList [])]) ].

(** A document of a scan that reaches the validator: it parsed and its top
    level is a mapping. *)
Definition reaches_validator (file : string * loaded) : bool :=
  match unreadable file.2 with None => true | Some _ => false end.

(** *** Linkage: file names and ledger ids *)

Definition task_file (id : string) : string := id +:+ ".yaml".

Definition report_file (id : string) : string := id +:+ ".report.yaml".

(** The ids of the entries of a ledger, in the order of the entries. *)
Definition ids_of (tasks : list yaml) : list yaml :=
  omap (λ t, match t with YMap fields => Dict.get "id" fields | _ => None end) tasks.

(** The strings among some ids. *)
Definition strings (ids : list yaml) : gset string :=
  list_to_set (omap (λ id, match id with YStr s => Some s | _ => None end) ids).

(** The ids of the ledger that are strings: the ones a task id can be
    equal to. *)
Definition ledger_ids (ledger_file : option loaded) : gset string :=
  strings (Ids.get_ledger_tasks ledger_file).

(** Every entry of the ledger that has an id has one that a set accepts. *)
Definition hashable_ids (ledger : option yaml) : Prop :=
  ∀ d fields id,
    ledger = Some d → YMap fields ∈ Ledger.entries d →
    Dict.get "id" fields = Some id → Ids.hashable id = true.

Definition ledger_with_list_id : yaml :=
  YMap [("version", YInt 2);
        ("tasks", YList [YMap [("id", YStr "T001")];
                         YMap [("id", YList [YStr "T002"])];
                         YMap [("id", YStr "T003")]])].

(** *** Repository resolution *)

Definition no_space (s : string) : bool :=
  str_forall (λ c, negb (Py.is_space c)) s.

(** An [owner/repo] slug that the parse cannot confuse with the parts of
    the URL around it. *)
Definition plain_slug (slug : string) : Prop :=
  Py.str_in ".git" slug = false
  ∧ Py.str_in "github.com" slug = false
  ∧ no_space slug = true.

(** The four forms of the URL of a GitHub remote. *)
Definition remote_forms (slug : string) : list string :=
  [ "git@github.com:" +:+ slug +:+ ".git";
    "git@github.com:" +:+ slug;
    "https://github.com/" +:+ slug +:+ ".git";
    "https://github.com/" +:+ slug ].

(** No occurrence of [old] in [s +:+ t] starts within [s]. *)
Fixpoint starts_none (old s t : string) : bool :=
  match s with
  | EmptyString => true
  | String c s' => negb (String.prefix old (s +:+ t)) && starts_none old s' t
  end.

(** *** Runs of the pipeline *)

(** A property of every run of a program: of the events it leaves behind
    and of its outcome, whatever the subprocesses answer. *)
Fixpoint every_run {A : Type} (P : list Pipeline.event → result A → Prop)
    (p : Pipeline.prog A) (trace : list Pipeline.event) : Prop :=
  match p with
  | Pipeline.Done a => P trace (Ok a)
  | Pipeline.Fail e => P trace (Raise e)
  | Pipeline.Spawn c k => ∀ o, every_run P (k o) (trace ++ [(c, o)])
  end.

(** The stages of the pipeline, in the order the code goes through them. *)
Definition stage (c : Pipeline.cmd) : nat :=
  match c with
  | Pipeline.git_branch_list _ => 0
  | Pipeline.git_ls_remote _ => 1
  | Pipeline.git_checkout _ | Pipeline.git_checkout_new _ => 2
  | Pipeline.git_status => 3
  | Pipeline.git_add_all => 4
  | Pipeline.git_commit _ => 5
  | Pipeline.git_push _ => 6
  | Pipeline.git_push_force _ => 7
  | Pipeline.gh_pr_create _ _ _ _ base | Pipeline.api_pr_create _ _ _ _ _ base =>
      if String.eqb base "main" then 8 else 9
  end.

Fixpoint ascending (ns : list nat) : bool :=
  match ns with
  | n :: ((m :: _) as ns') => (n <? m)%nat && ascending ns'
  | _ => true
  end.

Definition stages (events : list Pipeline.event) : list nat :=
  (λ e, stage e.1) <$> events.



(** Whether [git status --porcelain] printed anything. *)
Definition changes_seen (trace : list Pipeline.event) : bool :=
  existsb
    (λ e, match e with
          | (Pipeline.git_status, Some r) => Pipeline.has_output r
          | _ => false
          end)
    trace.

(** The messages of the commits that were attempted, and of those that
    went through. *)
Definition commits (trace : list Pipeline.event) : list string :=
  omap (λ e, match e.1 with Pipeline.git_commit m => Some m | _ => None end) trace.

Definition commits_made (trace : list Pipeline.event) : list string :=
  omap (λ e, match e with
             | (Pipeline.git_commit m, Some r) =>
                 if (returncode r =? 0)%Z then Some m else None
             | _ => None
             end)
    trace.

(** Whether a branch check printed anything, and which checkout ran. *)
Definition branch_seen (trace : list Pipeline.event) : bool :=
  existsb
    (λ e, match e with
          | (Pipeline.git_branch_list _, Some r)
          | (Pipeline.git_ls_remote _, Some r) => Pipeline.has_output r
          | _ => false
          end)
    trace.

Definition checkouts (trace : list Pipeline.event) : list Pipeline.cmd :=
  List.filter (λ c, (stage c =? 2)%nat) (fst <$> trace).

(** The pull-request requests of a run and the bases they name. *)
Definition pr_bases (trace : list Pipeline.event) : list string :=
  omap (λ e, match e.1 with
             | Pipeline.gh_pr_create _ _ _ _ base
             | Pipeline.api_pr_create _ _ _ _ _ base => Some base
             | _ => None
             end)
    trace.

(** Whether a push, forced or not, went through. *)
Definition pushed (trace : list Pipeline.event) : bool :=
  existsb
    (λ e, match e with
          | (Pipeline.git_push _, Some r) | (Pipeline.git_push_force _, Some r) =>
              (returncode r =? 0)%Z
          | _ => false
          end)
    trace.



(** *** What reconciliation leaves alone *)

(** All of an issue but its body. *)
Definition issue_frame (i : Remote.issue) : Z * string * list string * bool :=
  (Remote.issue_number i, Remote.issue_title i, Remote.issue_labels i,
   Remote.issue_open i).

Definition offline_listing : Remote.network :=
  {| Remote.list_ok := false; Remote.write_ok := true |}.

(** *** Authentication *)

(** A host without the CLI on which the user types a choice and a token. *)
Definition host_with (env : string → option string) (typed : list Auth.keyboard)
    : Auth.host :=
  {| Auth.gh_on_path := false; Auth.gh_auth_status := None; Auth.getenv := env;
     Auth.typed := typed; Auth.env_local_writable := true |}.

Definition no_env : string → option string := λ _, None.

(** The text appended to [.env.local] for a token. *)
Definition env_local_line (t : string) : Auth.effect :=
  Auth.Appended ".env.local" (Py.newline +:+ "GITHUB_TOKEN=" +:+ t +:+ Py.newline).

Definition is_asked (e : Auth.effect) : bool :=
  match e with Auth.Asked _ => true | _ => false end.

(** *** Reports that can be rendered *)


(** *** Runs of the orchestrator *)

Definition ledger_writes (calls : list Integrator.call) : list yaml :=
  omap (λ c, match c with Integrator.LedgerWrite d => Some d | _ => None end) calls.

Definition pipeline_calls (calls : list Integrator.call) : list Ref :=
  omap (λ c, match c with Integrator.PipelineCall _ i => Some i | _ => None end) calls.


(** Callees of a run in which everything but the pull request works. *)
Definition pr_fails : Integrator.callees :=
  {| Integrator.load_task := Some (task_with "T001" "Fix login bug");
     Integrator.load_report := None;
     Integrator.detect_repository := Ok (Some "octocat/demo");
     Integrator.ensure_auth := Ok cli_login;
     Integrator.create_or_update_issue := λ _ _ _ _, Ok (Some issue_12);
     Integrator.create_branch_and_pr := λ _ _ _ _ _, Ok None |}.

(** *** The authentication check *)

(** A host on which a token is set and accepted by the probe. *)
Definition host_with_token : Check.host :=
  {| Check.auth_host :=
       host_with (λ name, if String.eqb name "GH_TOKEN" then Some "ghp_example" else None) [];
     Check.gh_auth_stderr := "";
     Check.gh_api_user := None;
     Check.curl_user := Some {| returncode := 0; stdout := "200" |} |}.

(** * Properties *)

(** ** Strings *)

Section StringFacts.

Implicit Types (s t u : string) (c : ascii) (p : ascii → bool).

Lemma str_app_nil_l s : "" +:+ s = s.
Proof. reflexivity. Qed.

Lemma str_app_cons c s t : String c s +:+ t = String c (s +:+ t).
Proof. reflexivity. Qed.

Lemma str_app_nil_r s : s +:+ "" = s.
Proof. induction s as [|c s IH]; [done|]. by rewrite str_app_cons, IH. Qed.

Lemma str_app_assoc s t u : (s +:+ t) +:+ u = s +:+ t +:+ u.
Proof. induction s as [|c s IH]; [done|]. by rewrite !str_app_cons, IH. Qed.

Lemma str_length_app s t :
  String.length (s +:+ t) = String.length s + String.length t.
Proof. induction s as [|c s IH]; [done|]. rewrite str_app_cons. simpl. by rewrite IH. Qed.

Lemma prefix_nil s : String.prefix "" s = true.
Proof. by destruct s. Qed.

Lemma prefix_cons c d s t :
  String.prefix (String c s) (String d t)
  = (if ascii_dec c d then String.prefix s t else false).
Proof. reflexivity. Qed.

Lemma prefix_app s t : String.prefix s (s +:+ t) = true.
Proof.
  induction s as [|c s IH]; [apply prefix_nil|].
  rewrite str_app_cons, prefix_cons. by destruct (ascii_dec c c).
Qed.

Lemma prefix_app_r s t u :
  String.prefix s t = true → String.prefix s (t +:+ u) = true.
Proof.
  revert t. induction s as [|c s IH]; intros [|d t]; try done.
  - intros _. apply prefix_nil.
  - rewrite str_app_cons, !prefix_cons. destruct (ascii_dec c d); [apply IH|done].
Qed.

Lemma str_in_unfold s t :
  Py.str_in s t
  = String.prefix s t
    || match t with EmptyString => false | String _ t' => Py.str_in s t' end.
Proof. by destruct t. Qed.

Lemma str_in_here s t : String.prefix s t = true → Py.str_in s t = true.
Proof. intros H. by rewrite str_in_unfold, H. Qed.

Lemma str_in_cons s c t : Py.str_in s t = true → Py.str_in s (String c t) = true.
Proof. intros H. rewrite str_in_unfold, H. apply orb_true_r. Qed.

Lemma str_in_app_l s t u : Py.str_in s u = true → Py.str_in s (t +:+ u) = true.
Proof.
  intros H. induction t as [|c t IH]; [done|].
  rewrite str_app_cons. by apply str_in_cons.
Qed.

Lemma str_in_app_r s t u : Py.str_in s t = true → Py.str_in s (t +:+ u) = true.
Proof.
  induction t as [|c t IH]; rewrite str_in_unfold.
  - rewrite orb_false_r. intros H. apply str_in_here.
    by apply (prefix_app_r s "" u).
  - intros [H|H]%orb_true_iff.
    + apply str_in_here. by apply (prefix_app_r s (String c t) u).
    + rewrite str_app_cons. apply str_in_cons. by apply IH.
Qed.

(** The task id occurs in the title of the issue made for it. *)
Lemma str_in_middle s t u : Py.str_in s (t +:+ s +:+ u) = true.
Proof. apply str_in_app_l, str_in_here, prefix_app. Qed.

Lemma take_length n s : String.length (Py.str_take n s) ≤ n.
Proof.
  revert s. induction n as [|n IH]; intros [|c s]; simpl; try lia.
  specialize (IH s). lia.
Qed.

Lemma take_is_prefix n s : ∃ t, s = Py.str_take n s +:+ t.
Proof.
  revert s. induction n as [|n IH]; intros s.
  - exists s. by destruct s.
  - destruct s as [|c s]; [by exists ""|].
    destruct (IH s) as [t Ht]. exists t. simpl. rewrite str_app_cons. by f_equal.
Qed.

Lemma take_app_l n s t :
  String.length s ≤ n → ∃ u, Py.str_take n (s +:+ t) = s +:+ u.
Proof.
  revert n. induction s as [|c s IH]; intros n H.
  - by exists (Py.str_take n t).
  - destruct n as [|n]; simpl in H; [lia|].
    destruct (IH n) as [u Hu]; [lia|].
    exists u. rewrite !str_app_cons. simpl. by rewrite Hu.
Qed.

Lemma lstrip_is_suffix p s : ∃ t, s = t +:+ Py.lstrip p s.
Proof.
  induction s as [|c s [t IH]]; [by exists ""|].
  simpl. destruct (p c).
  - exists (String c t). rewrite str_app_cons. by f_equal.
  - by exists "".
Qed.

Lemma rstrip_is_prefix p s : ∃ t, s = Py.rstrip p s +:+ t.
Proof.
  induction s as [|c s [t IH]]; [by exists ""|].
  simpl. destruct (Py.rstrip p s) as [|d r] eqn:E.
  - destruct (p c).
    + by exists (String c s).
    + exists s. by rewrite str_app_cons.
  - exists t. rewrite str_app_cons. by f_equal.
Qed.

Lemma strip_is_infix p s : ∃ t u, s = t +:+ Py.strip p s +:+ u.
Proof.
  destruct (lstrip_is_suffix p s) as [t Ht].
  destruct (rstrip_is_prefix p (Py.lstrip p s)) as [u Hu].
  exists t, u. unfold Py.strip. by rewrite <- Hu.
Qed.

Lemma str_forall_app p s t :
  str_forall p (s +:+ t) = str_forall p s && str_forall p t.
Proof.
  induction s as [|c s IH]; [done|].
  rewrite str_app_cons. simpl. by rewrite IH, andb_assoc.
Qed.

Lemma lstrip_first p s :
  match first_char (Py.lstrip p s) with Some c => p c = false | None => True end.
Proof.
  induction s as [|c s IH]; [done|]. simpl.
  destruct (p c) eqn:E; [done|]. by simpl.
Qed.

Lemma last_char_cons c d s :
  last_char (String c (String d s)) = last_char (String d s).
Proof.
  change (last_char (String c (String d s)))
    with (match last_char (String d s) with Some e => Some e | None => Some c end).
  simpl. by destruct (last_char s).
Qed.

Lemma rstrip_last p s :
  match last_char (Py.rstrip p s) with Some c => p c = false | None => True end.
Proof.
  induction s as [|c s IH]; [done|]. simpl.
  destruct (Py.rstrip p s) as [|d r] eqn:E.
  - destruct (p c) eqn:Ec; [done|]. by simpl.
  - by rewrite last_char_cons.
Qed.

Lemma rstrip_first p s :
  match first_char (Py.rstrip p s) with
  | Some c => first_char s = Some c
  | None => True
  end.
Proof.
  destruct s as [|c s]; [done|]. simpl.
  destruct (Py.rstrip p s); [by destruct (p c)|done].
Qed.

Lemma before_last_app c s t :
  Py.before_last c (s +:+ String c t)
  = Some (s +:+ match Py.before_last c t with
                | Some h => String c h
                | None => ""
                end).
Proof.
  induction s as [|d s IH].
  - rewrite str_app_nil_l. simpl. destruct (Py.before_last c t); [done|].
    by rewrite Ascii.eqb_refl.
  - rewrite !str_app_cons. simpl. by rewrite IH.
Qed.

Lemma before_last_split c s h :
  Py.before_last c s = Some h → ∃ t, s = h +:+ String c t.
Proof.
  revert h. induction s as [|d s IH]; intros h; [done|]. simpl.
  destruct (Py.before_last c s) as [h'|].
  - intros [= <-]. destruct (IH h' eq_refl) as [t ->]. by exists t.
  - destruct (Ascii.eqb d c) eqn:E; [|done].
    intros [= <-]. apply Ascii.eqb_eq in E as ->. by exists s.
Qed.

Lemma rsplit1_head_length c s :
  String.length (Py.rsplit1_head c s) ≤ String.length s.
Proof.
  unfold Py.rsplit1_head. destruct (Py.before_last c s) as [h|] eqn:E; [|done].
  apply before_last_split in E as [t ->]. simpl. rewrite str_length_app. lia.
Qed.

End StringFacts.

(** ** Branch names *)

Section BranchNames.

Implicit Types (s t u : string) (c : ascii) (task : TaskInfo).

Lemma is_hyphen_eq c : Py.is_hyphen c = true ↔ c = "-"%char.
Proof.
  unfold Py.is_hyphen, Py.has_code, Py.code. rewrite N.eqb_eq. split.
  - intros H. rewrite <- (ascii_N_embedding c), H. reflexivity.
  - by intros ->.
Qed.

Lemma prefix_hyphen s : String.prefix "-" s = starts_with_hyphen s.
Proof.
  destruct s as [|c s]; [done|]. unfold starts_with_hyphen.
  rewrite prefix_cons. change (first_char (String c s)) with (Some c).
  destruct (ascii_dec "-" c) as [Heq|Hne].
  - rewrite prefix_nil. symmetry. by apply is_hyphen_eq.
  - destruct (Py.is_hyphen c) eqn:E; [|done].
    apply is_hyphen_eq in E. congruence.
Qed.

Lemma double_hyphen_cons c s :
  Py.str_in "--" (String c s)
  = Py.is_hyphen c && starts_with_hyphen s || Py.str_in "--" s.
Proof.
  rewrite str_in_unfold. f_equal.
  change (String.prefix "--" (String c s))
    with (if ascii_dec "-" c then String.prefix "-" s else false).
  rewrite prefix_hyphen.
  destruct (ascii_dec "-" c) as [Heq|Hne].
  - symmetry in Heq. apply is_hyphen_eq in Heq. by rewrite Heq.
  - destruct (Py.is_hyphen c) eqn:E; [|done].
    apply is_hyphen_eq in E. congruence.
Qed.

Lemma strip_specials_chars s :
  str_forall (λ c, Py.is_word c || Py.is_space c || Py.is_hyphen c)
    (strip_specials s) = true.
Proof.
  unfold strip_specials. induction s as [|c s IH]; [done|]. simpl.
  destruct (Py.is_word c || Py.is_space c || Py.is_hyphen c) eqn:E; [|done].
  simpl. by rewrite E, IH.
Qed.

Lemma hyphenate_chars b s :
  str_forall (λ c, Py.is_word c || Py.is_space c || Py.is_hyphen c) s = true →
  str_forall word_or_hyphen (hyphenate_from b s) = true.
Proof.
  revert b. induction s as [|c s IH]; intros b; [done|]. simpl.
  intros [Hc Hs]%andb_true_iff.
  destruct (Py.is_hyphen c || Py.is_space c) eqn:E.
  - destruct b; [by apply IH|]. simpl. by apply IH.
  - simpl. rewrite IH by done. rewrite andb_true_r.
    apply orb_false_iff in E as [Eh Es]. unfold word_or_hyphen.
    rewrite Es, orb_false_r in Hc. by rewrite Eh, orb_false_r in Hc |- *.
Qed.

(** After the substitution no two hyphens are adjacent, and a run that
    was already under way leaves no hyphen in front. *)
Lemma hyphenate_separated b s :
  Py.str_in "--" (hyphenate_from b s) = false
  ∧ (b = true → starts_with_hyphen (hyphenate_from b s) = false).
Proof.
  revert b. induction s as [|c s IH]; intros b; [done|]. simpl.
  destruct (Py.is_hyphen c || Py.is_space c) eqn:E.
  - destruct b.
    + apply IH.
    + split; [|done]. rewrite double_hyphen_cons.
      destruct (IH true) as [-> ->]; done.
  - apply orb_false_iff in E as [Eh _].
    split.
    + rewrite double_hyphen_cons, Eh. apply IH.
    + intros _. unfold starts_with_hyphen. by simpl.
Qed.

Lemma clean_title_infix title :
  ∃ t u, hyphenate (strip_specials (Py.lower title)) = t +:+ clean_title title +:+ u.
Proof.
  unfold clean_title.
  set (h := hyphenate (strip_specials (Py.lower title))).
  destruct (take_is_prefix 30 h) as [u1 H1].
  destruct (strip_is_infix Py.is_hyphen (Py.str_take 30 h)) as (t & u2 & H2).
  exists t, (u2 +:+ u1). rewrite H1 at 1. rewrite H2 at 1.
  by rewrite !str_app_assoc.
Qed.

Lemma clean_title_length title : String.length (clean_title title) ≤ 30.
Proof.
  unfold clean_title.
  set (h := hyphenate (strip_specials (Py.lower title))).
  destruct (strip_is_infix Py.is_hyphen (Py.str_take 30 h)) as (t & u & H).
  pose proof (take_length 30 h) as Hlen.
  rewrite H, !str_length_app in Hlen. lia.
Qed.

Lemma clean_title_chars title :
  str_forall word_or_hyphen (clean_title title) = true.
Proof.
  destruct (clean_title_infix title) as (t & u & H).
  pose proof (hyphenate_chars false _ (strip_specials_chars (Py.lower title))) as Hc.
  fold (hyphenate (strip_specials (Py.lower title))) in Hc.
  rewrite H, !str_forall_app in Hc.
  by apply andb_true_iff in Hc as [_ [? _]%andb_true_iff].
Qed.

Lemma clean_title_separated title : Py.str_in "--" (clean_title title) = false.
Proof.
  destruct (clean_title_infix title) as (t & u & H).
  destruct (hyphenate_separated false (strip_specials (Py.lower title))) as [Hs _].
  fold (hyphenate (strip_specials (Py.lower title))) in Hs.
  destruct (Py.str_in "--" (clean_title title)) eqn:E; [|done].
  rewrite H in Hs. rewrite <- Hs. symmetry.
  by apply str_in_app_l, str_in_app_r.
Qed.

Lemma clean_title_trimmed title :
  starts_with_hyphen (clean_title title) = false
  ∧ ends_with_hyphen (clean_title title) = false.
Proof.
  unfold clean_title, Py.strip, starts_with_hyphen, ends_with_hyphen.
  set (h := Py.str_take 30 _).
  pose proof (rstrip_first Py.is_hyphen (Py.lstrip Py.is_hyphen h)) as Hf.
  pose proof (lstrip_first Py.is_hyphen h) as Hl.
  pose proof (rstrip_last Py.is_hyphen (Py.lstrip Py.is_hyphen h)) as Hr.
  split.
  - destruct (first_char (Py.rstrip _ _)) as [c|]; [|done].
    by rewrite Hf in Hl.
  - by destruct (last_char (Py.rstrip _ _)).
Qed.

Lemma branch_name_length task : String.length (_generate_branch_name task) ≤ 50.
Proof.
  unfold _generate_branch_name.
  destruct (50 <? String.length _)%nat eqn:E.
  - etrans; [apply rsplit1_head_length|apply take_length].
  - by apply Nat.ltb_ge in E.
Qed.

(** With the hyphen that follows the task id inside the first fifty
    characters, the cut falls at that hyphen or at a later one. *)
Lemma truncation_keeps s t :
  String.length s ≤ 49 →
  ∃ h, Py.before_last "-" (Py.str_take 50 (s +:+ "-" +:+ t)) = Some (s +:+ h).
Proof.
  intros Hlen.
  destruct (take_app_l 50 (s +:+ "-") t) as [u Hu].
  { rewrite str_length_app. simpl. lia. }
  rewrite <- str_app_assoc, Hu, str_app_assoc.
  change ("-" +:+ u) with (String "-" u).
  rewrite before_last_app. eauto.
Qed.

(** C2, as amended. The branch name depends on the task id and the title
    only, has at most 50 characters, and is [feature/<task_id>-<slug>]
    whenever that has at most 50 characters; the slug is the lower-cased
    title without the characters that are neither word characters, white
    space nor hyphens, with each run of white space and hyphens turned
    into one hyphen, cut to 30 characters and trimmed of hyphens at both
    ends, so it has at most 30 characters, all of them word characters or
    single hyphens, none at either end. For a task id of at most 41
    characters the name begins with [feature/<task_id>], and a name that
    had to be shortened ends where a hyphen of the full name stood. *)
Theorem branch_name_spec task :
  let slug := clean_title (title task) in
  let full := "feature/" +:+ task_id task +:+ "-" +:+ slug in
  let branch := _generate_branch_name task in
  (∀ other, task_id other = task_id task → title other = title task →
            _generate_branch_name other = branch)
  ∧ String.length branch ≤ 50
  ∧ (String.length full ≤ 50 → branch = full)
  ∧ slug = Py.strip Py.is_hyphen
             (Py.str_take 30 (hyphenate (strip_specials (Py.lower (title task)))))
  ∧ String.length slug ≤ 30
  ∧ str_forall word_or_hyphen slug = true
  ∧ Py.str_in "--" slug = false
  ∧ starts_with_hyphen slug = false
  ∧ ends_with_hyphen slug = false
  ∧ (String.length (task_id task) ≤ 41 →
     String.prefix ("feature/" +:+ task_id task) branch = true
     ∧ (50 < String.length full → ∃ rest, full = branch +:+ "-" +:+ rest)).
Proof.
  intros slug full branch.
  split; [|split; [|split; [|split; [|split; [|split; [|split; [|split; [|split]]]]]]]].
  - intros other Hid Htitle. unfold branch, _generate_branch_name.
    by rewrite Hid, Htitle.
  - apply branch_name_length.
  - intros Hlen. unfold branch, _generate_branch_name. fold slug. fold full.
    apply Nat.ltb_ge in Hlen. by rewrite Hlen.
  - reflexivity.
  - apply clean_title_length.
  - apply clean_title_chars.
  - apply clean_title_separated.
  - apply clean_title_trimmed.
  - apply clean_title_trimmed.
  - intros Hid.
    assert (Hfull : full = ("feature/" +:+ task_id task) +:+ "-" +:+ slug).
    { unfold full. by rewrite str_app_assoc. }
    destruct (truncation_keeps ("feature/" +:+ task_id task) slug) as [h Hh].
    { rewrite str_length_app. simpl. lia. }
    rewrite <- Hfull in Hh.
    unfold branch, _generate_branch_name. fold slug. fold full.
    destruct (50 <? String.length full)%nat eqn:E.
    + unfold Py.rsplit1_head. rewrite Hh. simpl. split; [apply prefix_app|].
      intros _. apply before_last_split in Hh as [t Ht].
      destruct (take_is_prefix 50 full) as [u Hu].
      exists (t +:+ u). rewrite Hu at 1. rewrite Ht.
      by rewrite !str_app_assoc.
    + split.
      * rewrite Hfull. apply prefix_app.
      * apply Nat.ltb_ge in E. lia.
Qed.

Lemma branch_name_spec_witness :
  String.length (task_id long_title_task) ≤ 41
  ∧ 50 < String.length ("feature/" +:+ task_id long_title_task +:+ "-"
                        +:+ clean_title (title long_title_task))
  ∧ String.prefix ("feature/" +:+ task_id long_title_task)
      (_generate_branch_name long_title_task) = true
  ∧ ∃ rest, "feature/" +:+ task_id long_title_task +:+ "-"
            +:+ clean_title (title long_title_task)
            = _generate_branch_name long_title_task +:+ "-" +:+ rest.
Proof.
  assert (Hid : String.length (task_id long_title_task) ≤ 41)
    by (vm_compute; lia).
  assert (Hlong : 50 < String.length ("feature/" +:+ task_id long_title_task
                    +:+ "-" +:+ clean_title (title long_title_task)))
    by (vm_compute; lia).
  split; [exact Hid|]. split; [exact Hlong|].
  destruct (branch_name_spec long_title_task) as (_ & _ & _ & _ & _ & _ & _ & _ & _ & H).
  destruct (H Hid) as [Hprefix Hcut].
  split; [exact Hprefix|]. exact (Hcut Hlong).
Defined.

(** C2 as stated fails for a long task id: the 50 characters that are
    kept end inside the id, so the name neither contains the id nor ends
    where a hyphen stood. *)
Lemma branch_name_long_id_counterexample :
  let full := "feature/" +:+ task_id long_id_task +:+ "-"
              +:+ clean_title (title long_id_task) in
  _generate_branch_name long_id_task
    = "feature/T00000000000000000000000000000000000000000"
  ∧ String.prefix ("feature/" +:+ task_id long_id_task)
      (_generate_branch_name long_id_task) = false
  ∧ ¬ ∃ rest, full = _generate_branch_name long_id_task +:+ "-" +:+ rest.
Proof.
  split; [by vm_compute|]. split; [by vm_compute|].
  intros [rest H]. vm_compute in H. discriminate H.
Qed.

End BranchNames.

(** ** Commit messages *)

Section CommitMessages.

Implicit Types (task : TaskInfo) (issue_data : Ref).

Lemma concat_cons (l : string) (ls : list string) :
  String.concat Py.newline (l :: ls) = l +:+ lines_after ls.
Proof.
  revert l. induction ls as [|l' ls IH]; intros l.
  - simpl. by rewrite str_app_nil_r.
  - change (String.concat Py.newline (l :: l' :: ls))
      with (l +:+ Py.newline +:+ String.concat Py.newline (l' :: ls)).
    by rewrite IH.
Qed.

Lemma lines_after_app (ls ls' : list string) :
  lines_after (ls ++ ls') = lines_after ls +:+ lines_after ls'.
Proof.
  induction ls as [|l ls IH]; [done|].
  simpl. by rewrite IH, !str_app_assoc.
Qed.

Lemma has_number_positive issue_data :
  (∀ n, number issue_data = Some n → (0 < n)%Z) →
  has_number issue_data = number issue_data.
Proof.
  intros Hpos. unfold has_number. destruct (number issue_data) as [n|]; [|done].
  specialize (Hpos n eq_refl). destruct (Z.eqb_spec n 0); [lia|done].
Qed.

(** C8. The commit type is chosen from the lower-cased title by the first
    keyword that occurs in it, in the order fix or bug, test, doc,
    refactor, and is feat when none occurs; the message is the line
    [<type>(<task_id>): <cleaned title>], an empty line, the goal, at most
    the first three acceptance criteria, and, exactly when the issue
    reference carries a number (GitHub numbers issues from 1), an empty
    line and [Closes #<n>]. For T010 the titles "Fix login bug" and "Add
    metrics dashboard" give messages beginning [fix(T010):] and
    [feat(T010):]. *)
Theorem commit_message_spec task issue_data :
  (∀ n, number issue_data = Some n → (0 < n)%Z) →
  let lowered := Py.lower (title task) in
  let kind := commit_type (title task) in
  let cleaned := Py.str_take 50 (strip_specials lowered) in
  let message := _generate_commit_message task issue_data in
  (Py.str_in "fix" lowered || Py.str_in "bug" lowered = true → kind = "fix")
  ∧ (Py.str_in "fix" lowered || Py.str_in "bug" lowered = false →
     (Py.str_in "test" lowered = true → kind = "test")
     ∧ (Py.str_in "test" lowered = false →
        (Py.str_in "doc" lowered = true → kind = "docs")
        ∧ (Py.str_in "doc" lowered = false →
           (Py.str_in "refactor" lowered = true → kind = "refactor")
           ∧ (Py.str_in "refactor" lowered = false → kind = "feat"))))
  ∧ message
    = kind +:+ "(" +:+ task_id task +:+ "): " +:+ cleaned
      +:+ lines_after [""; bullet (goal task)]
      +:+ lines_after (bullet <$> take 3 (acceptance_criteria task))
      +:+ match number issue_data with
          | Some n => lines_after [""; "Closes #" +:+ Py.str_of_int n]
          | None => ""
          end
  ∧ (task_id task = "T010" → title task = "Fix login bug" →
     String.prefix "fix(T010):" message = true)
  ∧ (task_id task = "T010" → title task = "Add metrics dashboard" →
     String.prefix "feat(T010):" message = true).
Proof.
  intros Hpos lowered kind cleaned message.
  assert (Hmsg : message
    = kind +:+ "(" +:+ task_id task +:+ "): " +:+ cleaned
      +:+ lines_after [""; bullet (goal task)]
      +:+ lines_after (bullet <$> take 3 (acceptance_criteria task))
      +:+ match number issue_data with
          | Some n => lines_after [""; "Closes #" +:+ Py.str_of_int n]
          | None => ""
          end).
  { unfold message, _generate_commit_message, Py.join_lines, commit_lines.
    rewrite (has_number_positive _ Hpos).
    fold kind. fold lowered. unfold short_description. fold lowered. fold cleaned.
    destruct (number issue_data) as [n|].
    - rewrite <- !List.app_assoc.
      change ([?a; ?b; ?c] ++ ?l) with (a :: ([b; c] ++ l)).
      rewrite concat_cons, !lines_after_app. by rewrite !str_app_assoc.
    - change ([?a; ?b; ?c] ++ ?l) with (a :: ([b; c] ++ l)).
      rewrite concat_cons, !lines_after_app. by rewrite !str_app_assoc, str_app_nil_r. }
  split; [|split; [|split; [exact Hmsg|split]]].
  - unfold kind, commit_type. fold lowered. by intros ->.
  - unfold kind, commit_type. fold lowered. intros ->.
    split; [by intros ->|]. intros ->.
    split; [by intros ->|]. intros ->.
    split; by intros ->.
  - intros Hid Htitle. rewrite Hmsg. unfold kind. rewrite Hid, Htitle.
    change (commit_type "Fix login bug") with "fix".
    by apply (prefix_app "fix(T010):").
  - intros Hid Htitle. rewrite Hmsg. unfold kind. rewrite Hid, Htitle.
    change (commit_type "Add metrics dashboard") with "feat".
    by apply (prefix_app "feat(T010):").
Qed.

Lemma commit_message_spec_witness :
  (∀ n, number issue_12 = Some n → (0 < n)%Z)
  ∧ String.prefix "fix(T010):"
      (_generate_commit_message (task_with "T010" "Fix login bug") issue_12) = true
  ∧ Py.str_in "Closes #12"
      (_generate_commit_message (task_with "T010" "Fix login bug") issue_12) = true.
Proof.
  assert (Hpos : ∀ n, number issue_12 = Some n → (0 < n)%Z).
  { intros n [= <-]. lia. }
  split; [exact Hpos|].
  destruct (commit_message_spec (task_with "T010" "Fix login bug") issue_12 Hpos)
    as (_ & _ & Hmsg & Hfix & _).
  split; [by apply Hfix|].
  rewrite Hmsg. reflexivity.
Defined.

End CommitMessages.

(** ** Repository resolution *)

Section RepositoryResolution.

(** C4, where the code departs from it. A repository whose name contains
    [.git] elsewhere than at the end, as every [NAME.github.io] does, comes
    back with all those occurrences removed: the resolver deletes every
    [.git], not only a trailing one. *)
Theorem detect_repository_strips_every_git :
  _detect_repository None
    (Some {| returncode := 0;
             stdout := "git@github.com:octocat/octocat.github.io.git" |})
    = Ok (Some "octocat/octocathub.io")
  ∧ _detect_repository None
      (Some {| returncode := 0;
               stdout := "https://github.com/octocat/octocat.github.io" |})
    = Ok (Some "octocat/octocathub.io")
  ∧ _detect_repository None
      (Some {| returncode := 0;
               stdout := "https://github.com/octocat/demo.git" |})
    = Ok (Some "octocat/demo").
Proof. by vm_compute. Qed.

End RepositoryResolution.

(** ** Linkage *)

Section LinkageFacts.

Implicit Types (T R L : gset string).

Lemma sorted_elem_of (X : gset string) x : x ∈ Linkage.sorted X ↔ x ∈ X.
Proof.
  unfold Linkage.sorted. rewrite merge_sort_Permutation. apply elem_of_elements.
Qed.

Lemma sorted_NoDup (X : gset string) : NoDup (Linkage.sorted X).
Proof.
  unfold Linkage.sorted. rewrite merge_sort_Permutation. apply NoDup_elements.
Qed.

Lemma sorted_ascending (X : gset string) :
  StronglySorted String.le (Linkage.sorted X).
Proof. apply (StronglySorted_merge_sort String.le). Qed.

Lemma sorted_nil (X : gset string) : Linkage.sorted X = [] ↔ X = ∅.
Proof.
  split.
  - intros H. apply set_eq. intros x. rewrite <- sorted_elem_of, H.
    set_solver.
  - intros ->. reflexivity.
Qed.

(** C7. The validator reports the ids of tasks minus reports, then of
    reports minus tasks, then of tasks minus ledger, each id once and each
    group in ascending order, and exits with 0 exactly when the three
    differences are empty; for tasks {A, B}, reports {B, C} and ledger {B}
    it reports A without report, C without task and A missing from the
    ledger, and nothing else. *)
Theorem linkage_main_spec T R L :
  ∃ no_report no_task no_ledger : list string,
    (Linkage.main T R L).1
    = (Linkage.TaskWithoutReport <$> no_report)
      ++ (Linkage.ReportWithoutTask <$> no_task)
      ++ (Linkage.TaskNotInLedger <$> no_ledger)
    ∧ (∀ x, x ∈ no_report ↔ x ∈ T ∖ R)
    ∧ (∀ x, x ∈ no_task ↔ x ∈ R ∖ T)
    ∧ (∀ x, x ∈ no_ledger ↔ x ∈ T ∖ L)
    ∧ NoDup no_report ∧ NoDup no_task ∧ NoDup no_ledger
    ∧ StronglySorted String.le no_report
    ∧ StronglySorted String.le no_task
    ∧ StronglySorted String.le no_ledger
    ∧ ((Linkage.main T R L).2 = 0%Z ↔ T ∖ R = ∅ ∧ R ∖ T = ∅ ∧ T ∖ L = ∅)
    ∧ ((Linkage.main T R L).2 = 0%Z ∨ (Linkage.main T R L).2 = 1%Z)
    ∧ Linkage.main {["A"; "B"]} {["B"; "C"]} {["B"]}
      = ([Linkage.TaskWithoutReport "A"; Linkage.ReportWithoutTask "C";
          Linkage.TaskNotInLedger "A"], 1%Z).
Proof.
  exists (Linkage.sorted (T ∖ R)), (Linkage.sorted (R ∖ T)),
         (Linkage.sorted (T ∖ L)).
  split; [unfold Linkage.main; simpl; by rewrite <- List.app_assoc|].
  do 3 (split; [intros x; apply sorted_elem_of|]).
  do 3 (split; [apply sorted_NoDup|]).
  do 3 (split; [apply sorted_ascending|]).
  split; [|split].
  - unfold Linkage.main. simpl. rewrite <- !sorted_nil.
    destruct (Linkage.sorted (T ∖ R)), (Linkage.sorted (R ∖ T)),
      (Linkage.sorted (T ∖ L)); simpl; split; try done; by intros (? & ? & ?).
  - unfold Linkage.main. simpl. destruct (_ ++ _); auto.
  - by vm_compute.
Qed.

End LinkageFacts.

(** ** Contract validation *)

Section ValidationFacts.

Implicit Types (errors extra : list error) (d report task : dict)
  (contract v : yaml) (path : string).

#[local] Arguments Yaml.get_or : simpl never.

(** Run the binds whose left side is a value. *)
Ltac step := cbn [mbind result_bind Yaml.contains len_gt app].

Lemma reports_status_app errors extra :
  reports_status (errors ++ extra) = reports_status errors || reports_status extra.
Proof. apply existsb_app. Qed.

Lemma for_each_grows {A : Type} (xs : list A) body :
  (∀ x, x ∈ xs → grows (body x)) → grows (for_each xs body).
Proof.
  induction xs as [|x xs IH]; intros Hbody errors.
  - exists []. by rewrite app_nil_r.
  - destruct (Hbody x (list_elem_of_here _ _) errors) as (e1 & H1 & Hc1).
    destruct (IH (λ y Hy, Hbody y (list_elem_of_further _ _ _ Hy)) (errors ++ e1))
      as (e2 & H2 & Hc2).
    exists (e1 ++ e2). simpl. rewrite H1. simpl. rewrite H2.
    split; [by rewrite List.app_assoc|].
    by rewrite reports_status_app, Hc1, Hc2.
Qed.

Lemma require_keys_grows path missing required d :
  (∀ k, is_status_violation (path, missing k) = false) →
  Yaml._is_list_of_str required = true →
  grows (require_keys path missing required d).
Proof.
  intros Hm Hreq. destruct required as [| | | |ks|]; try done.
  unfold require_keys. simpl.
  apply for_each_grows. intros k Hk errors.
  simpl in Hreq. rewrite forallb_forall in Hreq.
  apply list_elem_of_In, Hreq in Hk. destruct k; try done. simpl.
  destruct (Dict.mem s d).
  - exists []. by rewrite app_nil_r.
  - eexists. split; [done|]. unfold reports_status. simpl. by rewrite Hm.
Qed.

Lemma well_formed_get k check dflt (c : dict) :
  field_ok k check c = true → check dflt = true →
  ∃ v, Yaml.get_or k dflt (YMap c) = Ok v ∧ check v = true.
Proof.
  unfold field_ok, Yaml.get_or. intros H Hd.
  destruct (Dict.get k c) as [v|]; simpl; eauto.
Qed.

Lemma check_item_grows path item_req entry :
  Yaml._is_list_of_str item_req = true →
  grows (Report.check_item path item_req entry).
Proof.
  intros Hreq errors. destruct entry as [i item]. unfold Report.check_item.
  destruct item as [| | | | |d];
    try (eexists; split; [done|]; done).
  destruct (require_keys_grows path (AcrItemMissing i) item_req d
              (λ _, eq_refl) Hreq errors) as (e1 & -> & Hc1).
  simpl. destruct (Dict.get "passed" d) as [[]|];
    try (exists e1; by split);
    (exists (e1 ++ [(path, AcrPassedNotBool i)]);
     split; [by rewrite List.app_assoc|];
     by rewrite reports_status_app, Hc1).
Qed.

Lemma check_file_clean path xs :
  reports_status (flat_map (Report.check_file path) xs) = false.
Proof.
  induction xs as [|[i f] xs IH]; [done|]. simpl.
  rewrite reports_status_app, IH, orb_false_r.
  destruct f as [| | | | |d]; try done. simpl.
  by destruct (Dict.mem "path" d && Dict.mem "description" d).
Qed.

Lemma check_str_list_clean path w k d :
  is_status_violation (path, w) = false →
  reports_status (Report.check_str_list path w k d) = false.
Proof.
  intros Hw. unfold Report.check_str_list.
  destruct (Dict.get k d) as [x|]; [|done].
  destruct (Yaml._is_list_of_str x); [done|].
  unfold reports_status. simpl. by rewrite Hw.
Qed.

(** What the report validator returns under a well-formed contract: the
    errors found before the status check, the result of the status check,
    and the errors found after it. *)
Lemma validate_report_shape report contract path :
  well_formed_contract contract = true →
  let status := default YNull (Dict.get "status" report) in
  ∃ before after,
    Report.validate_report report contract path
    = Ok (before
          ++ (if existsb (Yaml.eq status) (status_enum contract) then []
              else [(path, StatusNotAllowed status (YList (status_enum contract)))])
          ++ after)
    ∧ reports_status before = false
    ∧ reports_status after = false.
Proof.
  intros Hwf status. destruct contract as [| | | | |c]; try done.
  unfold well_formed_contract in Hwf. simpl in Hwf.
  apply andb_true_iff in Hwf as [Hwf Hver].
  apply andb_true_iff in Hwf as [Hwf Hitem].
  apply andb_true_iff in Hwf as [Hwf Hcons].
  apply andb_true_iff in Hwf as [Hreq Henum].
  unfold Report.validate_report.
  (* required fields *)
  destruct (well_formed_get _ _ (YList []) c Hreq eq_refl) as (required & -> & Hr).
  step.
  destruct (require_keys_grows path MissingRequired required report
              (λ _, eq_refl) Hr []) as (before & -> & Hbefore).
  step. exists before.
  (* status enum *)
  destruct (well_formed_get _ _ (YMap []) c Henum eq_refl) as (enums & Eenums & He).
  rewrite Eenums. step.
  destruct enums as [| | | | |e]; try done. simpl in He.
  destruct (well_formed_get _ _ (YList []) e He eq_refl) as (allowed & Eallowed & Ha).
  rewrite Eallowed. step.
  destruct allowed as [| | | |allowed|]; try done. step.
  assert (Henum_is : status_enum (YMap c) = allowed).
  { unfold Yaml.get_or in Eenums, Eallowed. simpl.
    injection Eenums as ->. by injection Eallowed as ->. }
  rewrite Henum_is. fold status.
  set (errors1 := before ++
         (if existsb (Yaml.eq status) allowed then []
          else [(path, StatusNotAllowed status (YList allowed))])).
  assert (Hstatus :
    (if existsb (Yaml.eq status) allowed then before
     else before ++ [(path, StatusNotAllowed status (YList allowed))]) = errors1).
  { unfold errors1. destruct (existsb _ _); [by rewrite app_nil_r|done]. }
  rewrite Hstatus. clear Hstatus.
  (* summary *)
  destruct (well_formed_get _ _ (YMap []) c Hcons eq_refl) as (cons & Econs & Hc).
  destruct cons as [| | | | |k]; try done. simpl in Hc.
  destruct (well_formed_get _ _ (YInt 6) k Hc eq_refl) as (bound & Ebound & Hb).
  destruct bound as [| |m| | |]; try done.
  assert (Hsummary : ∃ e2,
    match default YNull (Dict.get "summary" report) with
    | YList lines =>
        if Yaml._is_list_of_str (default YNull (Dict.get "summary" report)) then
          constraints ← Yaml.get_or "constraints" (YMap []) (YMap c);
          max_lines ← Yaml.get_or "summary_max_lines" (YInt 6) constraints;
          too_long ← len_gt (length lines) max_lines;
          Ok (if too_long : bool
              then errors1 ++ [(path, SummaryTooLong (length lines) max_lines)]
              else errors1)
        else Ok (errors1 ++ [(path, SummaryNotStrList)])
    | _ => Ok (errors1 ++ [(path, SummaryNotStrList)])
    end = Ok (errors1 ++ e2) ∧ reports_status e2 = false).
  { destruct (default YNull (Dict.get "summary" report)) as [| | | |lines|];
      try (by eexists).
    destruct (Yaml._is_list_of_str (YList lines)); [|by eexists].
    rewrite Econs. step. rewrite Ebound. step.
    destruct (m <? Z.of_nat (length lines))%Z; [by eexists|].
    exists []. by rewrite app_nil_r. }
  destruct Hsummary as (e2 & -> & He2). step.
  (* acceptance criteria results *)
  destruct (well_formed_get _ _ (YMap []) c Hitem eq_refl) as (item & -> & Hi).
  step. destruct item as [| | | | |ic]; try done. simpl in Hi.
  destruct (well_formed_get _ _ (YList []) ic Hi eq_refl) as (item_req & -> & Hir).
  step.
  assert (Hacr : ∃ e3,
    match default YNull (Dict.get "acceptance_criteria_results" report) with
    | YList ((_ :: _) as items) =>
        for_each (Py.enumerate items) (Report.check_item path item_req)
          (errors1 ++ e2)
    | _ => Ok ((errors1 ++ e2) ++ [(path, AcrNotNonEmptyList)])
    end = Ok ((errors1 ++ e2) ++ e3) ∧ reports_status e3 = false).
  { destruct (default YNull (Dict.get "acceptance_criteria_results" report))
      as [| | | |[|x items]|]; try (by eexists).
    apply for_each_grows. intros entry _. by apply check_item_grows. }
  destruct Hacr as (e3 & -> & He3). step.
  (* verification *)
  destruct (well_formed_get _ _ (YMap []) c Hver eq_refl) as (vc & -> & Hv).
  step. destruct vc as [| | | | |vc]; try done. simpl in Hv.
  destruct (well_formed_get _ _ (YList []) vc Hv eq_refl) as (v_req & -> & Hvr).
  step.
  set (errors4 := match default YNull (Dict.get "files_modified" report) with
                  | YList items => _
                  | _ => _
                  end).
  assert (Hfiles : ∃ e4, errors4 = ((errors1 ++ e2) ++ e3) ++ e4
                         ∧ reports_status e4 = false).
  { unfold errors4.
    destruct (default YNull (Dict.get "files_modified" report));
      try (by eexists).
    eexists. split; [done|]. apply check_file_clean. }
  destruct Hfiles as (e4 & -> & He4).
  assert (Hverif : ∃ e5,
    match default YNull (Dict.get "verification" report) with
    | YMap v =>
        errors ← require_keys path VerificationMissing v_req v
                   (((errors1 ++ e2) ++ e3) ++ e4);
        Ok (errors
            ++ Report.check_str_list path (VerificationNotStrList "commands_run")
                 "commands_run" v
            ++ Report.check_str_list path (VerificationNotStrList "results")
                 "results" v)
    | _ => Ok ((((errors1 ++ e2) ++ e3) ++ e4) ++ [(path, VerificationNotMapping)])
    end = Ok ((((errors1 ++ e2) ++ e3) ++ e4) ++ e5) ∧ reports_status e5 = false).
  { destruct (default YNull (Dict.get "verification" report)) as [| | | | |v];
      try (by eexists).
    destruct (require_keys_grows path VerificationMissing v_req v
                (λ _, eq_refl) Hvr (((errors1 ++ e2) ++ e3) ++ e4))
      as (e5 & -> & He5).
    step. eexists. split; [by rewrite <- List.app_assoc|].
    by rewrite !reports_status_app, He5, !check_str_list_clean. }
  destruct Hverif as (e5 & -> & He5). step.
  exists (e2 ++ e3 ++ e4 ++ e5
          ++ Report.check_str_list path (NotStrList "risks") "risks" report
          ++ Report.check_str_list path (NotStrList "next_steps") "next_steps" report).
  split.
  - f_equal. unfold errors1. by rewrite <- !List.app_assoc.
  - by rewrite !reports_status_app, He2, He3, He4, He5, !check_str_list_clean.
Qed.

Lemma validate_report_total report contract path :
  well_formed_contract contract = true →
  ∃ errors, Report.validate_report report contract path = Ok errors.
Proof.
  intros Hwf. destruct (validate_report_shape report contract path Hwf)
    as (before & after & H & _). eauto.
Qed.

Lemma validate_task_total task contract path :
  well_formed_contract contract = true →
  ∃ errors, Task.validate_task task contract path = Ok errors.
Proof.
  intros Hwf. destruct contract as [| | | | |c]; try done.
  unfold well_formed_contract in Hwf. simpl in Hwf.
  repeat (apply andb_true_iff in Hwf as [Hwf _]).
  unfold Task.validate_task.
  destruct (well_formed_get _ _ (YList []) c Hwf eq_refl) as (required & -> & Hr).
  step.
  destruct (require_keys_grows path MissingRequired required task
              (λ _, eq_refl) Hr []) as (e1 & -> & _).
  step. eauto.
Qed.

Lemma scan_findings validate contract files errors :
  (∀ d path, ∃ found, validate d contract path = Ok found) →
  for_each files
    (λ file all_errors,
       let '(f, outcome) := file in
       match outcome with
       | ParseFailure e => Ok (all_errors ++ [(f, FailedToParse e)])
       | Document (YMap data) =>
           found ← validate data contract f; Ok (all_errors ++ found)
       | Document _ => Ok (all_errors ++ [(f, TopLevelNotMapping)])
       end)
    errors
  = Ok (errors ++ flat_map (findings validate contract) files).
Proof.
  intros Htotal. revert errors.
  induction files as [|[f outcome] files IH]; intros errors.
  - simpl. by rewrite app_nil_r.
  - cbn [for_each flat_map]. unfold findings at 1. cbn [fst snd].
    destruct outcome as [msg|[| | | | |data]];
      try (step; rewrite IH; by rewrite <- List.app_assoc).
    destruct (Htotal data f) as [found ->]. step.
    rewrite IH. by rewrite <- List.app_assoc.
Qed.

Lemma unreadable_findings validate contract path outcome w :
  unreadable outcome = Some w →
  findings validate contract (path, outcome) = [(path, w)].
Proof.
  unfold findings. simpl.
  destruct outcome as [msg|[| | | | |data]]; simpl; by intros [= <-].
Qed.

(** C5, as amended. Under a well-formed contract the report validator
    returns, and it reports the status exactly when the status value,
    taken as null when the field is absent, is not a member of the
    contract's status enum; so, for an enum that does not list null,
    exactly when the field is absent or present with a value outside the
    enum. *)
Theorem status_enum_check report contract path :
  well_formed_contract contract = true →
  let status := default YNull (Dict.get "status" report) in
  ∃ errors,
    Report.validate_report report contract path = Ok errors
    ∧ (reports_status errors = true
       ↔ existsb (Yaml.eq status) (status_enum contract) = false)
    ∧ (existsb (Yaml.eq YNull) (status_enum contract) = false →
       (reports_status errors = true
        ↔ Dict.get "status" report = None
          ∨ ∃ v, Dict.get "status" report = Some v
                 ∧ existsb (Yaml.eq v) (status_enum contract) = false)).
Proof.
  intros Hwf status.
  destruct (validate_report_shape report contract path Hwf)
    as (before & after & Hrun & Hbefore & Hafter).
  fold status in Hrun. eexists. split; [exact Hrun|].
  assert (Hiff : reports_status
                   (before
                    ++ (if existsb (Yaml.eq status) (status_enum contract) then []
                        else [(path, StatusNotAllowed status
                                       (YList (status_enum contract)))])
                    ++ after) = true
                 ↔ existsb (Yaml.eq status) (status_enum contract) = false).
  { rewrite !reports_status_app, Hbefore, Hafter, orb_false_r. simpl.
    by destruct (existsb (Yaml.eq status) (status_enum contract)). }
  split; [exact Hiff|].
  intros Hnull. rewrite Hiff. unfold status.
  destruct (Dict.get "status" report) as [v|]; simpl.
  - split; [intros H; right; by exists v|].
    intros [H|(v' & [= <-] & H)]; done.
  - split; [by left|done].
Qed.

Lemma status_enum_check_witness :
  well_formed_contract report_contract = true
  ∧ ∃ errors,
      Report.validate_report report_without_status report_contract "T001.report.yaml"
      = Ok errors
      ∧ reports_status errors = true.
Proof.
  assert (Hwf : well_formed_contract report_contract = true) by reflexivity.
  split; [exact Hwf|].
  destruct (status_enum_check report_without_status report_contract
              "T001.report.yaml" Hwf) as (errors & Hrun & Hiff & _).
  exists errors. split; [exact Hrun|]. by apply Hiff.
Defined.

(** C5 as stated fails when the enum lists null: the status is absent
    from the report, the enum is not empty, and nothing is reported about
    the status. *)
Lemma status_enum_null_counterexample :
  well_formed_contract lenient_contract = true
  ∧ status_enum lenient_contract ≠ []
  ∧ Dict.get "status" report_without_status = None
  ∧ ∃ errors,
      Report.validate_report report_without_status lenient_contract
        "T001.report.yaml" = Ok errors
      ∧ reports_status errors = false.
Proof.
  split; [done|]. split; [done|]. split; [done|].
  eexists. split; [by vm_compute|done].
Qed.

(** C6. Under a well-formed contract both validators return a list of
    errors for every document, never an exception; a scan returns, one
    file after the other, what each file adds, and a file that did not
    parse or whose top level is not a mapping adds exactly one error,
    whatever the files before and after it; the exit code is 0 exactly
    when no error was found. *)
Theorem validation_total contract :
  well_formed_contract contract = true →
  (∀ report path, ∃ errors, Report.validate_report report contract path = Ok errors)
  ∧ (∀ task path, ∃ errors, Task.validate_task task contract path = Ok errors)
  ∧ (∀ files,
       Report.main contract files
       = Ok (flat_map (findings Report.validate_report contract) files,
             exit_code (flat_map (findings Report.validate_report contract) files)))
  ∧ (∀ files,
       Task.main contract files
       = Ok (flat_map (findings Task.validate_task contract) files,
             exit_code (flat_map (findings Task.validate_task contract) files)))
  ∧ (∀ validate path outcome w,
       unreadable outcome = Some w →
       findings validate contract (path, outcome) = [(path, w)]).
Proof.
  intros Hwf.
  split; [intros; by apply validate_report_total|].
  split; [intros; by apply validate_task_total|].
  split; [|split].
  - intros files. unfold Report.main, Report.check_document.
    rewrite (scan_findings Report.validate_report).
    + done.
    + intros. by apply validate_report_total.
  - intros files. destruct contract as [| | | | |c]; try done.
    unfold Task.main, Task.check_document.
    rewrite (scan_findings Task.validate_task).
    + done.
    + intros. by apply validate_task_total.
  - intros. by apply unreadable_findings.
Qed.

Lemma validation_total_witness :
  well_formed_contract report_contract = true
  ∧ Report.main report_contract
      [ ("T001.report.yaml", ParseFailure "mapping values are not allowed here");
        ("T002.report.yaml", Document (YList [YStr "done"]));
        ("T003.report.yaml", ParseFailure "could not find expected ':'") ]
    = Ok ([ ("T001.report.yaml", FailedToParse "mapping values are not allowed here");
            ("T002.report.yaml", TopLevelNotMapping);
            ("T003.report.yaml", FailedToParse "could not find expected ':'") ],
          1%Z).
Proof.
  assert (Hwf : well_formed_contract report_contract = true) by reflexivity.
  split; [exact Hwf|].
  destruct (validation_total report_contract Hwf) as (_ & _ & Hscan & _).
  rewrite Hscan. reflexivity.
Defined.

End ValidationFacts.

(** ** Ledger merge *)

Section LedgerFacts.

Implicit Types (d fields entry : dict) (k : string) (v t ledger : yaml)
  (tasks : list yaml) (task_id today : string) (issue_data : Ref)
  (pr_data : option Ref).

Lemma get_set_eq k v d : Dict.get k (Dict.set k v d) = Some v.
Proof.
  induction d as [|[k' v'] d IH]; simpl.
  - by rewrite String.eqb_refl.
  - destruct (String.eqb k k') eqn:E; simpl.
    + by rewrite String.eqb_refl.
    + by rewrite E.
Qed.

Lemma get_set_ne k k' v d :
  k ≠ k' → Dict.get k' (Dict.set k v d) = Dict.get k' d.
Proof.
  intros Hne. induction d as [|[k'' v''] d IH]; simpl.
  - by destruct (String.eqb_spec k' k); [congruence|].
  - destruct (String.eqb_spec k k'') as [<-|Hk]; simpl.
    + by destruct (String.eqb_spec k' k); [congruence|].
    + by rewrite IH.
Qed.


Lemma stamp_other today task_id issue_data pr_data entry k :
  stamped_field k = false →
  Dict.get k (Ledger.stamp today task_id issue_data pr_data entry) = Dict.get k entry.
Proof.
  unfold stamped_field, Ledger.stamp. intros H.
  apply orb_false_iff in H as [[H1 H2]%orb_false_iff H3].
  apply String.eqb_neq in H1, H2, H3.
  by rewrite !get_set_ne.
Qed.

Lemma stamp_value_same_id today task_id issue_data pr_data id t :
  Ledger.is_entry_for id (Ledger.stamp_value today task_id issue_data pr_data t)
  = Ledger.is_entry_for id t.
Proof.
  destruct t as [| | | | |entry]; try done. simpl.
  by rewrite stamp_other.
Qed.

Lemma yaml_eq_str v s : Yaml.eq v (YStr s) = true → v = YStr s.
Proof. destruct v; try done. simpl. by intros ->%String.eqb_eq. Qed.

Lemma is_entry_for_id task_id t :
  Ledger.is_entry_for task_id t = true →
  ∃ entry, t = YMap entry ∧ Dict.get "id" entry = Some (YStr task_id).
Proof.
  destruct t as [| | | | |entry]; try done. simpl. intros H.
  exists entry. split; [done|].
  apply yaml_eq_str in H. by destruct (Dict.get "id" entry) as [w|]; simplify_eq/=.
Qed.

Lemma new_entry_is_for today task_id issue_data pr_data :
  Ledger.is_entry_for task_id
    (YMap (Ledger.stamp today task_id issue_data pr_data [("id", YStr task_id)]))
  = true.
Proof.
  unfold Ledger.is_entry_for. rewrite stamp_other by done.
  simpl. apply String.eqb_refl.
Qed.

(** The search loop finds the first entry for the id, if there is one. *)
Lemma find_entry_Some task_id tasks i :
  Ledger.find_entry task_id tasks = Some i →
  ∃ t, tasks !! i = Some t
       ∧ Ledger.is_entry_for task_id t = true
       ∧ List.find (Ledger.is_entry_for task_id) tasks = Some t.
Proof.
  revert i. induction tasks as [|t tasks IH]; intros i; [done|]. simpl.
  destruct (Ledger.is_entry_for task_id t) eqn:E.
  - intros [= <-]. by exists t.
  - destruct (Ledger.find_entry task_id tasks) as [j|]; [|done].
    intros [= <-]. destruct (IH j eq_refl) as (t' & ? & ? & ?). by exists t'.
Qed.

Lemma find_entry_None task_id tasks :
  Ledger.find_entry task_id tasks = None →
  filter (λ t, Ledger.is_entry_for task_id t = true) tasks = []
  ∧ List.find (Ledger.is_entry_for task_id) tasks = None.
Proof.
  induction tasks as [|t tasks IH]; [done|]. simpl.
  destruct (Ledger.is_entry_for task_id t) eqn:E; [done|].
  destruct (Ledger.find_entry task_id tasks); [done|]. intros _.
  destruct IH as [IH1 IH2]; [done|].
  rewrite filter_cons_False by (by rewrite E). done.
Qed.

Lemma count_positive task_id tasks i :
  Ledger.find_entry task_id tasks = Some i →
  0 < length (filter (λ t, Ledger.is_entry_for task_id t = true) tasks).
Proof.
  revert i. induction tasks as [|t tasks IH]; intros i; [done|]. simpl.
  destruct (Ledger.is_entry_for task_id t) eqn:E.
  - intros _. rewrite filter_cons_True by done. simpl. lia.
  - destruct (Ledger.find_entry task_id tasks) as [j|]; [|done].
    intros _. rewrite filter_cons_False by (by rewrite E). by apply (IH j).
Qed.

Lemma count_alter (f : yaml → yaml) task_id tasks i :
  (∀ t, Ledger.is_entry_for task_id (f t) = Ledger.is_entry_for task_id t) →
  length (filter (λ t, Ledger.is_entry_for task_id t = true) (alter f i tasks))
  = length (filter (λ t, Ledger.is_entry_for task_id t = true) tasks).
Proof.
  intros Hf. revert i. induction tasks as [|t tasks IH]; intros i; [done|].
  destruct i as [|i].
  - change (alter f 0 (t :: tasks)) with (f t :: tasks).
    rewrite !filter_cons, Hf. by destruct (decide _).
  - change (alter f (S i) (t :: tasks)) with (t :: alter f i tasks).
    rewrite !filter_cons.
    destruct (decide _); cbn [length]; by rewrite IH.
Qed.

Lemma find_alter (f : yaml → yaml) task_id tasks i :
  (∀ t, Ledger.is_entry_for task_id (f t) = Ledger.is_entry_for task_id t) →
  Ledger.find_entry task_id tasks = Some i →
  List.find (Ledger.is_entry_for task_id) (alter f i tasks) = f <$> tasks !! i.
Proof.
  intros Hf. revert i. induction tasks as [|t tasks IH]; intros i; [done|]. simpl.
  destruct (Ledger.is_entry_for task_id t) eqn:E.
  - intros [= <-]. simpl. by rewrite Hf, E.
  - destruct (Ledger.find_entry task_id tasks) as [j|]; [|done].
    intros [= <-]. simpl. rewrite E. by apply IH.
Qed.

Lemma find_app_new task_id tasks t :
  List.find (Ledger.is_entry_for task_id) tasks = None →
  Ledger.is_entry_for task_id t = true →
  List.find (Ledger.is_entry_for task_id) (tasks ++ [t]) = Some t.
Proof.
  intros Hnone Ht. induction tasks as [|t' tasks IH]; simpl in *.
  - by rewrite Ht.
  - destruct (Ledger.is_entry_for task_id t'); [done|]. by apply IH.
Qed.

Lemma entries_set (l : list yaml) fields :
  Ledger.entries (YMap (Dict.set "tasks" (YList l) fields)) = l.
Proof. unfold Ledger.entries. by rewrite get_set_eq. Qed.

Lemma usable_set (l : list yaml) fields :
  usable_ledger (YMap (Dict.set "tasks" (YList l) fields)) = true.
Proof. unfold usable_ledger. by rewrite get_set_eq. Qed.

(** What one merge does to a mapping whose [tasks] is the list [tasks]:
    it stamps the first entry for the id, or appends a stamped new one. *)
Lemma update_ledger_tasks today task_id issue_data pr_data fields tasks :
  fields ≠ [] →
  default (YList []) (Dict.get "tasks" fields) = YList tasks →
  Ledger._update_ledger today task_id issue_data pr_data (Some (YMap fields))
  = Ok (YMap (Dict.set "tasks"
                (YList match Ledger.find_entry task_id tasks with
                       | Some i =>
                           alter (Ledger.stamp_value today task_id issue_data pr_data)
                             i tasks
                       | None =>
                           tasks ++ [YMap (Ledger.stamp today task_id issue_data
                                             pr_data [("id", YStr task_id)])]
                       end)
                fields)).
Proof.
  intros Hne Htasks. unfold Ledger._update_ledger.
  assert (Yaml.truthy (YMap fields) = true) as -> by by destruct fields.
  unfold Yaml.get_or. rewrite Htasks. cbn [mbind result_bind Yaml.iter].
  by destruct (Ledger.find_entry task_id tasks).
Qed.

Lemma usable_tasks fields :
  usable_ledger (YMap fields) = true →
  default (YList []) (Dict.get "tasks" fields) = YList (Ledger.entries (YMap fields)).
Proof.
  unfold usable_ledger, Ledger.entries.
  by destruct (Dict.get "tasks" fields) as [[]|].
Qed.

(** One merge into a usable ledger. *)
Lemma update_ledger_usable today task_id issue_data pr_data ledger :
  usable_ledger ledger = true →
  ∃ ledger' entry,
    Ledger._update_ledger today task_id issue_data pr_data (Some ledger) = Ok ledger'
    ∧ usable_ledger ledger' = true
    ∧ Ledger.count_for task_id ledger' = max 1 (Ledger.count_for task_id ledger)
    ∧ Ledger.entry_for task_id ledger'
      = Some (YMap (Ledger.stamp today task_id issue_data pr_data entry))
    ∧ Dict.get "id" entry = Some (YStr task_id).
Proof.
  intros Husable. destruct ledger as [| | | | |fields]; try done.
  assert (Hcases : ∃ fields0,
    Ledger._update_ledger today task_id issue_data pr_data (Some (YMap fields))
    = Ledger._update_ledger today task_id issue_data pr_data (Some (YMap fields0))
    ∧ fields0 ≠ []
    ∧ usable_ledger (YMap fields0) = true
    ∧ Ledger.entries (YMap fields0) = Ledger.entries (YMap fields)).
  { destruct fields as [|f fields].
    - by exists [("version", YInt 2); ("tasks", YList [])].
    - by exists (f :: fields). }
  destruct Hcases as (fields0 & -> & Hne & Husable0 & Hentries).
  unfold Ledger.count_for at 2. rewrite <- Hentries. clear Hentries Husable fields.
  rewrite (update_ledger_tasks _ _ _ _ _ _ Hne (usable_tasks _ Husable0)).
  set (tasks := Ledger.entries (YMap fields0)).
  pose proof (stamp_value_same_id today task_id issue_data pr_data task_id) as Hsame.
  destruct (Ledger.find_entry task_id tasks) as [i|] eqn:Efind.
  - destruct (find_entry_Some _ _ _ Efind) as (t & Hi & Ht & _).
    destruct (is_entry_for_id _ _ Ht) as (entry & -> & Hid).
    eexists _, entry. split; [done|]. split; [apply usable_set|].
    unfold Ledger.count_for, Ledger.entry_for. rewrite entries_set.
    split; [|split; [|done]].
    + rewrite count_alter by done. pose proof (count_positive _ _ _ Efind). lia.
    + rewrite (find_alter _ _ _ _ Hsame Efind), Hi. done.
  - destruct (find_entry_None _ _ Efind) as [Hcount Hfind].
    eexists _, [("id", YStr task_id)]. split; [done|]. split; [apply usable_set|].
    unfold Ledger.count_for, Ledger.entry_for. rewrite entries_set.
    split; [|split; [|done]].
    + rewrite filter_app, Hcount.
      rewrite filter_cons_True by apply new_entry_is_for. done.
    + apply find_app_new; [done|apply new_entry_is_for].
Qed.

Lemma merge_all_last task_id runs last ledger :
  Ledger.merge_all task_id (runs ++ [last]) ledger
  = ledger' ← Ledger.merge_all task_id runs ledger;
    Ledger._update_ledger (Ledger.on_date last) task_id (Ledger.with_issue last)
      (Ledger.with_pr last) (Some ledger').
Proof.
  revert ledger. induction runs as [|r runs IH]; intros ledger; simpl.
  - by destruct (Ledger._update_ledger _ _ _ _ _).
  - destruct (Ledger._update_ledger _ _ _ _ _); simpl; [apply IH|done].
Qed.

Lemma merge_all_usable task_id runs ledger :
  usable_ledger ledger = true →
  ∃ ledger',
    Ledger.merge_all task_id runs ledger = Ok ledger'
    ∧ usable_ledger ledger' = true
    ∧ max 1 (Ledger.count_for task_id ledger')
      = max 1 (Ledger.count_for task_id ledger).
Proof.
  revert ledger. induction runs as [|r runs IH]; intros ledger Husable.
  - by exists ledger.
  - destruct (update_ledger_usable (Ledger.on_date r) task_id (Ledger.with_issue r)
                (Ledger.with_pr r) ledger Husable)
      as (ledger1 & _ & Hrun & Husable1 & Hcount & _).
    destruct (IH ledger1 Husable1) as (ledger' & Hrest & Husable' & Hcount').
    exists ledger'. simpl. rewrite Hrun. simpl.
    split; [done|]. split; [done|]. lia.
Qed.

(** C3, as amended. For a ledger document that is a mapping whose tasks,
    if any, are a list, merging a task id one or more times succeeds and
    never adds a second entry: afterwards the id has one entry if it had
    at most one before, and as many as before otherwise. The first entry
    for the id then has status completed, the date of the last merge, and
    a github object with the issue url and number of the last merge, the
    branch [feature/<task_id>], and the url and number of the last
    merge's pull request when it had one (and none when it had none). *)
Theorem ledger_merge_spec task_id (runs : list Ledger.merge_args)
    (last : Ledger.merge_args) ledger :
  usable_ledger ledger = true →
  ∃ ledger' entry github,
    Ledger.merge_all task_id (runs ++ [last]) ledger = Ok ledger'
    ∧ Ledger.count_for task_id ledger' = max 1 (Ledger.count_for task_id ledger)
    ∧ Ledger.entry_for task_id ledger' = Some (YMap entry)
    ∧ Dict.get "id" entry = Some (YStr task_id)
    ∧ Dict.get "status" entry = Some (YStr "completed")
    ∧ Dict.get "completed" entry = Some (YStr (Ledger.on_date last))
    ∧ Dict.get "github" entry = Some (YMap github)
    ∧ Dict.get "issue_url" github
      = Some (Ledger.of_url (url (Ledger.with_issue last)))
    ∧ Dict.get "issue_number" github
      = Some (Ledger.of_number (number (Ledger.with_issue last)))
    ∧ Dict.get "branch" github = Some (YStr ("feature/" +:+ task_id))
    ∧ match Ledger.with_pr last with
      | Some pr =>
          Dict.get "pr_url" github = Some (Ledger.of_url (url pr))
          ∧ Dict.get "pr_number" github = Some (Ledger.of_number (number pr))
      | None =>
          Dict.get "pr_url" github = None ∧ Dict.get "pr_number" github = None
      end.
Proof.
  intros Husable.
  destruct (merge_all_usable task_id runs ledger Husable)
    as (ledger1 & Hruns & Husable1 & Hcount1).
  destruct (update_ledger_usable (Ledger.on_date last) task_id
              (Ledger.with_issue last) (Ledger.with_pr last) ledger1 Husable1)
    as (ledger' & entry & Hlast & _ & Hcount & Hentry & Hid).
  eexists ledger', _, _. rewrite merge_all_last, Hruns. simpl.
  split; [exact Hlast|]. split; [lia|]. split; [exact Hentry|].
  split; [by rewrite stamp_other|].
  unfold Ledger.stamp.
  split; [by rewrite (get_set_ne "completed"), (get_set_ne "github"), get_set_eq|].
  split; [by rewrite get_set_eq|].
  split; [by rewrite (get_set_ne "completed"), get_set_eq|].
  unfold Ledger.github_object. by destruct (Ledger.with_pr last).
Qed.

Lemma ledger_merge_spec_witness :
  usable_ledger ledger_with_notes = true
  ∧ ∃ ledger' entry github,
      Ledger.merge_all "T001"
        [ {| Ledger.on_date := "2026-03-01"; Ledger.with_issue := issue_12;
             Ledger.with_pr := Some pr_7 |};
          {| Ledger.on_date := "2026-03-02"; Ledger.with_issue := issue_12;
             Ledger.with_pr := Some pr_9 |} ]
        ledger_with_notes = Ok ledger'
      ∧ Ledger.count_for "T001" ledger' = 1
      ∧ Ledger.entry_for "T001" ledger' = Some (YMap entry)
      ∧ Dict.get "github" entry = Some (YMap github)
      ∧ Dict.get "pr_number" github = Some (YInt 9).
Proof.
  assert (Husable : usable_ledger ledger_with_notes = true) by reflexivity.
  split; [exact Husable|].
  destruct (ledger_merge_spec "T001"
              [ {| Ledger.on_date := "2026-03-01"; Ledger.with_issue := issue_12;
                   Ledger.with_pr := Some pr_7 |} ]
              {| Ledger.on_date := "2026-03-02"; Ledger.with_issue := issue_12;
                 Ledger.with_pr := Some pr_9 |}
              ledger_with_notes Husable)
    as (ledger' & entry & github & Hrun & Hcount & Hentry & _ & _ & _ & Hgithub
        & _ & _ & _ & _ & Hpr).
  exists ledger', entry, github.
  split; [exact Hrun|]. split; [exact Hcount|]. split; [exact Hentry|].
  split; [exact Hgithub|]. exact Hpr.
Defined.

(** C3 as stated fails for some initial documents: a ledger that already
    holds two entries for the id still holds two after the merge, and a
    document that is not a mapping, or whose tasks are not a list, makes
    the merge raise. *)
Lemma ledger_merge_counterexample :
  (∃ ledger',
     Ledger._update_ledger "2026-03-01" "T001" issue_12 None
       (Some ledger_with_duplicates) = Ok ledger'
     ∧ Ledger.count_for "T001" ledger' = 2)
  ∧ Ledger._update_ledger "2026-03-01" "T001" issue_12 None
      (Some (YList [YMap [("id", YStr "T001")]])) = Raise AttributeError
  ∧ Ledger._update_ledger "2026-03-01" "T001" issue_12 None
      (Some (YMap [("version", YInt 2); ("tasks", YNull)])) = Raise TypeError.
Proof.
  split; [|split]; [|done..].
  eexists. split; [by vm_compute|]. by vm_compute.
Qed.



End LedgerFacts.

(** ** Issue reconciliation *)

Section ReconcilerFacts.

Import Remote.

Implicit Types (i j : issue) (st pre post : store) (P Q : issue → bool).

(** Where the search loop finds its issue in a listing that shows the
    first [n] issues satisfying [P]. *)
Lemma find_in_view P Q n st i :
  List.find Q (take n (List.filter P st)) = Some i →
  ∃ pre post,
    st = pre ++ i :: post
    ∧ P i = true ∧ Q i = true
    ∧ List.find Q (List.filter P pre) = None
    ∧ length (List.filter P pre) < n.
Proof.
  revert n. induction st as [|j st IH]; intros n.
  - simpl. by destruct n.
  - simpl. destruct (P j) eqn:EP.
    + destruct n as [|n]; [done|]. simpl. destruct (Q j) eqn:EQ.
      * intros [= <-]. exists [], st. simpl. repeat split; try done. lia.
      * intros Hfind. destruct (IH n Hfind) as (pre & post & -> & ? & ? & Hpre & ?).
        exists (j :: pre), post. simpl. rewrite EP. simpl. rewrite EQ.
        repeat split; try done. lia.
    + intros Hfind. destruct (IH n Hfind) as (pre & post & -> & ? & ? & Hpre & ?).
      exists (j :: pre), post. simpl. rewrite EP. done.
Qed.

Lemma view_finds P Q n pre i post :
  P i = true → Q i = true →
  List.find Q (List.filter P pre) = None →
  length (List.filter P pre) < n →
  List.find Q (take n (List.filter P (pre ++ i :: post))) = Some i.
Proof.
  intros HP HQ. revert n. induction pre as [|j pre IH]; intros n Hfind Hlen.
  - simpl. rewrite HP. destruct n as [|n]; [simpl in Hlen; lia|].
    simpl. by rewrite HQ.
  - simpl in *. destruct (P j) eqn:EP.
    + destruct n as [|n]; [simpl in Hlen; lia|]. simpl in *.
      destruct (Q j); [done|]. apply IH; [done|lia].
    + by apply IH.
Qed.

Lemma edited_titles n body st :
  issue_title <$> edited n body st = issue_title <$> st.
Proof.
  unfold edited. rewrite <- list_fmap_compose. apply list_fmap_ext.
  intros k i _. simpl. by destruct (issue_number i =? n)%Z.
Qed.

Lemma edited_twice n body st : edited n body (edited n body st) = edited n body st.
Proof.
  unfold edited. rewrite <- list_fmap_compose. apply list_fmap_ext.
  intros k i _. simpl. destruct (issue_number i =? n)%Z eqn:E; simpl; by rewrite E.
Qed.

Lemma edited_others n body st :
  n ∉ issue_number <$> st → edited n body st = st.
Proof.
  intros Hn. unfold edited. rewrite <- (list_fmap_id st) at 2.
  apply list_fmap_ext. intros k i Hk. simpl.
  destruct (Z.eqb_spec (issue_number i) n) as [<-|]; [|done].
  exfalso. apply Hn, list_elem_of_fmap. exists i.
  split; [done|]. by apply list_elem_of_lookup_2 in Hk.
Qed.

Lemma next_number_above st i : i ∈ st → (issue_number i < next_number st)%Z.
Proof.
  unfold next_number. induction 1 as [i st|i j st _ IH]; simpl; lia.
Qed.

Lemma next_number_fresh st : next_number st ∉ issue_number <$> st.
Proof.
  intros (i & Hi & Hin)%list_elem_of_fmap.
  apply next_number_above in Hin. lia.
Qed.

Lemma filter_all st : List.filter (λ _, true) st = st.
Proof. induction st as [|i st IH]; [done|]. simpl. by rewrite IH. Qed.

(** Either transport shows the search loop the first [n] issues that
    satisfy some [P], and [P] holds of an open issue that the search is
    bound to find. *)
Lemma listing_view search_hit auth repo net task_id st issues :
  listing search_hit auth repo net task_id st = Some issues →
  (∀ i, title_has task_id i = true → search_hit task_id i = true) →
  ∃ n P,
    0 < n
    ∧ (∀ st', listing search_hit auth repo net task_id st'
              = Some (take n (List.filter P st')))
    ∧ (∀ i, title_has task_id i = true → issue_open i = true → P i = true)
    ∧ (∀ i, P i = true → issue_open i = true ∨ ∀ j, P j = true).
Proof.
  unfold listing. intros Hlisting Hsearch.
  destruct auth as [a|]; [|done]. destruct repo as [r|]; [|done].
  destruct (method a).
  - destruct (list_ok net); [|done].
    exists 10, (λ i, issue_open i && search_hit task_id i).
    split; [lia|]. split; [done|]. split.
    + intros i Ht ->. by apply Hsearch.
    + intros i [? _]%andb_true_iff. by left.
  - destruct (token a) as [t|]; [|done].
    destruct (Py.nonempty t && list_ok net); [|done].
    exists 30, (λ _, true). split; [lia|].
    split; [intros st'; unfold api_issue_list; by rewrite filter_all|].
    split; [done|]. intros i _. by right.
Qed.

(** C1, as amended. Reconciliation is keyed by the titles of the issues
    that the transport lists -- the first ten open search hits through the
    CLI, the first thirty issues through the API. When the requests go
    through: if a listed issue has the task id in its title, the first
    such issue gets the new body, no title changes and no issue is added;
    if no listed issue has it, exactly one issue is added, titled
    [[<task_id>] <title>] and labelled agent-task and automation. A second
    run with the same task and body leaves the store as the first run
    left it, so a store that had no issue for the id has exactly one after
    two runs. *)
Theorem reconcile_spec search_hit auth repo net task body st issues :
  can_write auth repo net = true →
  listing search_hit auth repo net (task_id task) st = Some issues →
  (∀ i, title_has (task_id task) i = true → search_hit (task_id task) i = true) →
  NoDup (issue_number <$> st) →
  let run := _create_or_update_issue search_hit auth repo net task body in
  match List.find (title_has (task_id task)) issues with
  | Some i =>
      (run st).2 = edited (issue_number i) body st
      ∧ i ∈ st
      ∧ issue_title <$> (run st).2 = issue_title <$> st
      ∧ (∀ j, j ∈ st → issue_number j ≠ issue_number i → j ∈ (run st).2)
  | None =>
      (run st).2
      = {| issue_number := next_number st;
           issue_title := "[" +:+ task_id task +:+ "] " +:+ title task;
           issue_body := body;
           issue_labels := ["agent-task"; "automation"];
           issue_open := true |} :: st
  end
  ∧ (run (run st).2).2 = (run st).2
  ∧ (matching (task_id task) st = [] →
     length (matching (task_id task) (run (run st).2).2) = 1).
Proof.
  intros Hwrite Hlisting Hsearch Hnodup run.
  destruct (listing_view _ _ _ _ _ _ _ Hlisting Hsearch)
    as (n & P & Hn & Hview & Hnew & Hopen).
  assert (Hrun : ∀ st',
    (run st').2
    = match List.find (title_has (task_id task)) (take n (List.filter P st')) with
      | Some i => edited (issue_number i) body st'
      | None => created ("[" +:+ task_id task +:+ "] " +:+ title task) body
                  ["agent-task"; "automation"] st'
      end).
  { intros st'. unfold run, _create_or_update_issue, _find_existing_issue.
    rewrite Hview. unfold _update_issue, _create_issue. rewrite Hwrite.
    by destruct (List.find _ _). }
  rewrite Hview in Hlisting. injection Hlisting as <-.
  set (new := {| issue_number := next_number st;
                 issue_title := "[" +:+ task_id task +:+ "] " +:+ title task;
                 issue_body := body;
                 issue_labels := ["agent-task"; "automation"];
                 issue_open := true |}).
  assert (Hnew_title : title_has (task_id task) new = true).
  { exact (str_in_middle (task_id task) "[" ("] " +:+ title task)). }
  assert (Hsecond_new : (run (new :: st)).2 = new :: st).
  { assert (Hedit : edited (next_number st) body (new :: st) = new :: st).
    { change (edited (next_number st) body (new :: st))
        with ((if (next_number st =? next_number st)%Z
               then with_body body new else new)
              :: edited (next_number st) body st).
      by rewrite Z.eqb_refl, (edited_others _ _ _ (next_number_fresh st)). }
    rewrite Hrun. cbn [List.filter]. rewrite (Hnew new Hnew_title eq_refl).
    destruct n as [|n]; [lia|]. cbn [take List.find]. by rewrite Hnew_title. }
  destruct (List.find (title_has (task_id task)) (take n (List.filter P st)))
    as [i|] eqn:Efind.
  - destruct (find_in_view _ _ _ _ _ Efind) as (pre & post & Hst & HP & HQ & Hpre & Hlen).
    assert (Hfirst : (run st).2 = edited (issue_number i) body st)
      by (by rewrite Hrun, Efind).
    assert (Hsplit : edited (issue_number i) body st
                     = pre ++ with_body body i :: edited (issue_number i) body post).
    { rewrite Hst in Hnodup |- *. unfold edited at 1.
      rewrite fmap_app, fmap_cons, Z.eqb_refl. f_equal.
      apply edited_others. rewrite fmap_app, fmap_cons in Hnodup.
      apply NoDup_app in Hnodup as (_ & Hdisjoint & _).
      intros Hin. apply (Hdisjoint _ Hin). left. }
    assert (Hsecond : (run (edited (issue_number i) body st)).2
                      = edited (issue_number i) body st).
    { rewrite Hrun, Hsplit.
      rewrite (view_finds P _ n pre (with_body body i)); try done.
      - simpl. rewrite <- Hsplit. apply edited_twice.
      - destruct (Hopen i HP) as [Ho|Hall]; [|apply Hall].
        by apply Hnew. }
    rewrite Hfirst, Hsecond. split; [|split; [done|]].
    + split; [done|]. split; [rewrite Hst; set_solver|].
      split; [apply edited_titles|].
      intros j Hj Hne. unfold edited. apply list_elem_of_fmap. exists j.
      split; [|done]. by destruct (Z.eqb_spec (issue_number j) (issue_number i)).
    + intros Hnone. exfalso.
      assert (Hin : i ∈ matching (task_id task) st).
      { unfold matching. apply list_elem_of_In, List.filter_In.
        split; [|done]. rewrite Hst. apply list_elem_of_In. set_solver. }
      rewrite Hnone in Hin. by apply not_elem_of_nil in Hin.
  - assert (Hfirst : (run st).2 = new :: st) by (by rewrite Hrun, Efind).
    rewrite Hfirst, Hsecond_new. split; [done|]. split; [done|].
    intros Hnone. unfold matching in *. simpl. by rewrite Hnew_title, Hnone.
Qed.

Lemma reconcile_spec_witness :
  can_write token_login (Some "octocat/demo") online = true
  ∧ listing title_search token_login (Some "octocat/demo") online "T001" [chore 2]
    = Some [chore 2]
  ∧ NoDup (issue_number <$> [chore 2])
  ∧ length (matching "T001"
              (_create_or_update_issue title_search token_login (Some "octocat/demo")
                 online (task_with "T001" "Fix login bug") "## Goal"
                 (_create_or_update_issue title_search token_login
                    (Some "octocat/demo") online
                    (task_with "T001" "Fix login bug") "## Goal" [chore 2]).2).2)
    = 1.
Proof.
  assert (Hwrite : can_write token_login (Some "octocat/demo") online = true)
    by reflexivity.
  assert (Hlisting : listing title_search token_login (Some "octocat/demo") online
                       "T001" [chore 2] = Some [chore 2]) by reflexivity.
  assert (Hnodup : NoDup (issue_number <$> [chore 2])).
  { apply NoDup_singleton. }
  split; [exact Hwrite|]. split; [exact Hlisting|]. split; [exact Hnodup|].
  destruct (reconcile_spec title_search token_login (Some "octocat/demo") online
              (task_with "T001" "Fix login bug") "## Goal" [chore 2] [chore 2]
              Hwrite Hlisting (λ i H, H) Hnodup) as (_ & _ & Hcount).
  by apply Hcount.
Defined.

(** C1 as stated fails when the issue for the task is not in the listing:
    behind thirty newer issues on the API's first page, or closed and so
    not listed by the CLI. The search then finds nothing and a second
    issue for the same task id is created. *)
Lemma reconcile_unlisted_counterexample :
  let task := task_with "T001" "Fix login bug" in
  let by_api :=
    (_create_or_update_issue title_search token_login (Some "octocat/demo") online
       task "## Goal" crowded_store).2 in
  let by_cli :=
    (_create_or_update_issue title_search cli_login (Some "octocat/demo") online
       task "## Goal" closed_store).2 in
  length (matching "T001" crowded_store) = 1
  ∧ length by_api = S (length crowded_store)
  ∧ length (matching "T001" by_api) = 2
  ∧ length (matching "T001" closed_store) = 1
  ∧ length by_cli = S (length closed_store)
  ∧ length (matching "T001" by_cli) = 2.
Proof. by vm_compute. Qed.

End ReconcilerFacts.

(** ** The push retry *)

Section PipelineFacts.

Import Pipeline.

Context {A B : Type}.
Implicit Types (env : environment) (history events : list event).






End PipelineFacts.

Section PushRetry.

Import Pipeline.

Variable int_of_str : string → option Z.
Variable pr_of_json : string → option Ref.
Variable pr_body : string.
Variable auth : option GitHubAuth.
Variable repo : option string.










End PushRetry.

Section PushRetryExample.

Import Pipeline.

(** A run against a diverged remote: the push is rejected once and forced
    once, and the pull request is opened. *)
Example push_retry_on_diverged_remote :
  let run :=
    exec diverged
      (_create_branch_and_pr (λ _, Some 7%Z) (λ _, None) "## Task" cli_login
         (Some "octocat/demo") (task_with "T010" "Fix login bug") issue_12)
      [] in
  pushes run.1
  = [ (git_push "feature/T010-fix-login-bug",
       Some {| returncode := 1; stdout := "" |});
      (git_push_force "feature/T010-fix-login-bug",
       Some {| returncode := 0; stdout := "" |}) ]
  ∧ run.2 = Ok (Some {| number := Some 7%Z;
                        url := Some "https://github.com/octocat/demo/pull/7" |}).
Proof. by vm_compute. Qed.

End PushRetryExample.

(** ** The report validator, check by check *)

Section ReportChecks.

Implicit Types (errors : list error) (d report : dict) (contract v : yaml)
  (path : string) (ks : list yaml).

#[local] Arguments Yaml.get_or : simpl never.

Ltac run_binds := cbn [mbind result_bind Yaml.contains app].

Lemma for_each_flat_map {X : Type} (xs : list X) body (g : X → list error) errors :
  (∀ x errors', x ∈ xs → body x errors' = Ok (errors' ++ g x)) →
  for_each xs body errors = Ok (errors ++ flat_map g xs).
Proof.
  revert errors. induction xs as [|x xs IH]; intros errors Hbody.
  - simpl. by rewrite app_nil_r.
  - simpl. rewrite Hbody by apply list_elem_of_here. run_binds.
    rewrite IH.
    + by rewrite <- List.app_assoc.
    + intros y errors' Hy. apply Hbody. by apply list_elem_of_further.
Qed.

Lemma require_keys_missing path missing ks d errors :
  forallb Yaml.is_str ks = true →
  require_keys path missing (YList ks) d errors
  = Ok (errors ++ missing_keys path missing ks d).
Proof.
  intros Hks. unfold require_keys, missing_keys. cbn [Yaml.iter]. run_binds.
  apply for_each_flat_map. intros k errors' Hk.
  rewrite forallb_forall in Hks. apply list_elem_of_In, Hks in Hk.
  destruct k; try done. cbn [Yaml.key_in]. run_binds.
  destruct (Dict.mem s d); [by rewrite app_nil_r|done].
Qed.

Lemma well_formed_names k (c : dict) :
  field_ok k Yaml._is_list_of_str c = true →
  ∃ ks, Yaml.get_or k (YList []) (YMap c) = Ok (YList ks)
        ∧ names_in (contract_value k (YList []) (YMap c)) = ks
        ∧ forallb Yaml.is_str ks = true.
Proof.
  unfold field_ok, Yaml.get_or, contract_value. intros H.
  destruct (Dict.get k c) as [[| | | |ks|]|]; try done; simpl; eauto.
Qed.

Lemma well_formed_section k check (c : dict) :
  field_ok k (is_mapping_with check) c = true → check [] = true →
  ∃ section, Yaml.get_or k (YMap []) (YMap c) = Ok (YMap section)
             ∧ contract_value k (YMap []) (YMap c) = YMap section
             ∧ check section = true.
Proof.
  unfold field_ok, Yaml.get_or, contract_value. intros H Hd.
  destruct (Dict.get k c) as [[| | | | |section]|]; try done; simpl; eauto.
Qed.

(** The five facts that make a contract well formed. *)
Lemma well_formed_parts contract :
  well_formed_contract contract = true →
  ∃ c, contract = YMap c
       ∧ field_ok "required_fields" Yaml._is_list_of_str c = true
       ∧ field_ok "enums" (is_mapping_with (field_ok "status" is_list)) c = true
       ∧ field_ok "constraints"
           (is_mapping_with (field_ok "summary_max_lines" is_int)) c = true
       ∧ field_ok "acceptance_criteria_results_item"
           (is_mapping_with (field_ok "required_fields" Yaml._is_list_of_str)) c = true
       ∧ field_ok "verification"
           (is_mapping_with (field_ok "required_fields" Yaml._is_list_of_str)) c = true.
Proof.
  destruct contract as [| | | | |c]; try done.
  unfold well_formed_contract. simpl. rewrite !andb_true_iff.
  intros ((((? & ?) & ?) & ?) & ?). by exists c.
Qed.

Lemma well_formed_bound contract :
  well_formed_contract contract = true →
  ∃ m, summary_max_lines contract = YInt m.
Proof.
  intros (c & -> & _ & _ & Hcons & _)%well_formed_parts.
  destruct (well_formed_section _ _ _ Hcons eq_refl) as (k & _ & Hk & Hb).
  unfold summary_max_lines. rewrite Hk. unfold field_ok, contract_value in *.
  destruct (Dict.get "summary_max_lines" k) as [[]|]; try done; simpl; eauto.
Qed.

(** The validator runs every check, whatever the checks before found, and
    returns their findings in the order of the checks. *)
Lemma validate_report_checks report contract path :
  well_formed_contract contract = true →
  Report.validate_report report contract path
  = Ok (required_check path report contract
        ++ status_check path report contract
        ++ summary_check path report contract
        ++ results_check path report contract
        ++ files_check path report
        ++ verification_check path report contract
        ++ lists_check path report).
Proof.
  intros Hwf. destruct (well_formed_bound _ Hwf) as [m Hm].
  destruct (well_formed_parts _ Hwf) as (c & -> & Hreq & Henum & Hcons & Hitem & Hver).
  unfold Report.validate_report.
  (* required fields *)
  destruct (well_formed_names _ _ Hreq) as (ks & -> & Hks & Hstr). run_binds.
  rewrite require_keys_missing by done. run_binds.
  fold (required_fields (YMap c)) in Hks.
  assert (Hrequired : missing_keys path MissingRequired ks report
                      = required_check path report (YMap c))
    by (unfold required_check; by rewrite Hks).
  rewrite Hrequired. set (e1 := required_check path report (YMap c)).
  (* status *)
  destruct (well_formed_section _ _ _ Henum eq_refl) as (e & -> & Henums & He).
  run_binds.
  assert (Hallowed : Yaml.get_or "status" (YList []) (YMap e)
                     = Ok (YList (status_enum (YMap c)))).
  { unfold status_enum. unfold contract_value in Henums. rewrite Henums.
    unfold Yaml.get_or, field_ok in *.
    by destruct (Dict.get "status" e) as [[]|]. }
  rewrite Hallowed. run_binds.
  set (e2 := status_check path report (YMap c)).
  assert (Hstatus :
    (if existsb (Yaml.eq (default YNull (Dict.get "status" report)))
          (status_enum (YMap c))
     then e1
     else e1 ++ [(path, StatusNotAllowed (default YNull (Dict.get "status" report))
                          (YList (status_enum (YMap c))))])
    = e1 ++ e2).
  { unfold e2, status_check. destruct (existsb _ _); [by rewrite app_nil_r|done]. }
  rewrite Hstatus. clear Hstatus.
  (* summary *)
  destruct (well_formed_section _ _ _ Hcons eq_refl) as (k & Econs & Hconsv & Hk).
  assert (Hbound : Yaml.get_or "summary_max_lines" (YInt 6) (YMap k) = Ok (YInt m)).
  { unfold summary_max_lines in Hm. rewrite Hconsv in Hm.
    unfold Yaml.get_or. unfold contract_value in Hm. by rewrite Hm. }
  set (e3 := summary_check path report (YMap c)).
  assert (Hsummary :
    match default YNull (Dict.get "summary" report) with
    | YList lines =>
        if Yaml._is_list_of_str (default YNull (Dict.get "summary" report)) then
          constraints ← Yaml.get_or "constraints" (YMap []) (YMap c);
          max_lines ← Yaml.get_or "summary_max_lines" (YInt 6) constraints;
          too_long ← len_gt (length lines) max_lines;
          Ok (if too_long : bool
              then (e1 ++ e2) ++ [(path, SummaryTooLong (length lines) max_lines)]
              else e1 ++ e2)
        else Ok ((e1 ++ e2) ++ [(path, SummaryNotStrList)])
    | _ => Ok ((e1 ++ e2) ++ [(path, SummaryNotStrList)])
    end = Ok ((e1 ++ e2) ++ e3)).
  { unfold e3, summary_check. rewrite Hm.
    destruct (default YNull (Dict.get "summary" report)) as [| | | |lines|]; try done.
    cbn [Yaml._is_list_of_str]. destruct (forallb Yaml.is_str lines); [|done].
    rewrite Econs. run_binds. rewrite Hbound. run_binds. cbn [len_gt]. run_binds.
    destruct (m <? Z.of_nat (length lines))%Z; [done|by rewrite app_nil_r]. }
  rewrite Hsummary. clear Hsummary. run_binds.
  (* acceptance criteria results *)
  destruct (well_formed_section _ _ _ Hitem eq_refl) as (ic & -> & Hitemv & Hic).
  run_binds.
  destruct (well_formed_names _ _ Hic) as (item_req & -> & Hir & Hirs). run_binds.
  assert (Hitem_req : item_required_fields (YMap c) = item_req).
  { unfold item_required_fields, required_fields. by rewrite Hitemv. }
  set (e4 := results_check path report (YMap c)).
  assert (Hresults :
    match default YNull (Dict.get "acceptance_criteria_results" report) with
    | YList ((_ :: _) as items) =>
        for_each (Py.enumerate items) (Report.check_item path (YList item_req))
          ((e1 ++ e2) ++ e3)
    | _ => Ok (((e1 ++ e2) ++ e3) ++ [(path, AcrNotNonEmptyList)])
    end = Ok (((e1 ++ e2) ++ e3) ++ e4)).
  { unfold e4, results_check. rewrite Hitem_req.
    destruct (default YNull (Dict.get "acceptance_criteria_results" report))
      as [| | | |[|x items]|]; try done.
    apply for_each_flat_map. intros [i item] errors' _.
    unfold Report.check_item, item_check. cbn [fst snd].
    destruct item as [| | | | |d]; try done.
    rewrite require_keys_missing by done. run_binds.
    rewrite <- List.app_assoc.
    by destruct (Dict.get "passed" d) as [[]|]; rewrite ?app_nil_r. }
  rewrite Hresults. clear Hresults. run_binds.
  (* verification *)
  destruct (well_formed_section _ _ _ Hver eq_refl) as (vc & -> & Hverv & Hvc).
  run_binds.
  destruct (well_formed_names _ _ Hvc) as (v_req & -> & Hvr & Hvrs). run_binds.
  assert (Hv_req : verification_required_fields (YMap c) = v_req).
  { unfold verification_required_fields, required_fields. by rewrite Hverv. }
  set (e5 := files_check path report).
  assert (Hfiles :
    match default YNull (Dict.get "files_modified" report) with
    | YList items =>
        (((e1 ++ e2) ++ e3) ++ e4)
        ++ flat_map (Report.check_file path) (Py.enumerate items)
    | _ => (((e1 ++ e2) ++ e3) ++ e4) ++ [(path, FilesNotList)]
    end = (((e1 ++ e2) ++ e3) ++ e4) ++ e5).
  { unfold e5, files_check.
    by destruct (default YNull (Dict.get "files_modified" report)). }
  rewrite Hfiles. clear Hfiles.
  set (e6 := verification_check path report (YMap c)).
  assert (Hverification :
    match default YNull (Dict.get "verification" report) with
    | YMap v =>
        errors ← require_keys path VerificationMissing (YList v_req) v
                   ((((e1 ++ e2) ++ e3) ++ e4) ++ e5);
        Ok (errors
            ++ Report.check_str_list path (VerificationNotStrList "commands_run")
                 "commands_run" v
            ++ Report.check_str_list path (VerificationNotStrList "results")
                 "results" v)
    | _ => Ok (((((e1 ++ e2) ++ e3) ++ e4) ++ e5) ++ [(path, VerificationNotMapping)])
    end = Ok (((((e1 ++ e2) ++ e3) ++ e4) ++ e5) ++ e6)).
  { unfold e6, verification_check. rewrite Hv_req.
    destruct (default YNull (Dict.get "verification" report)) as [| | | | |v];
      try done.
    rewrite require_keys_missing by done. run_binds.
    by rewrite <- !List.app_assoc. }
  rewrite Hverification. clear Hverification. run_binds.
  fold (lists_check path report). by rewrite <- !List.app_assoc.
Qed.

End ReportChecks.

Section ReportFindings.

Implicit Types (errors : list error) (d report : dict) (contract v : yaml)
  (path : string) (ks : list yaml) (e : error).

Lemma missing_keys_elem path missing ks d e :
  e ∈ missing_keys path missing ks d
  ↔ ∃ k, k ∈ ks ∧ Yaml.key_in k d ≠ Ok true ∧ e = (path, missing k).
Proof.
  unfold missing_keys. rewrite list_elem_of_In, in_flat_map. split.
  - intros (k & Hk%list_elem_of_In & He). exists k. split; [done|].
    destruct (Yaml.key_in k d) as [[]|]; simpl in He; [done|..];
      destruct He as [<-|[]]; done.
  - intros (k & Hk%list_elem_of_In & Hne & ->). exists k. split; [done|].
    destruct (Yaml.key_in k d) as [[]|]; simpl; [done|..]; by left.
Qed.

Lemma enumerate_elem {X : Type} (xs : list X) i x :
  (i, x) ∈ Py.enumerate xs ↔ xs !! i = Some x.
Proof.
  unfold Py.enumerate. rewrite list_elem_of_lookup. split.
  - intros [j Hj]. apply lookup_zip_with_Some in Hj as (a & b & [= <- <-] & Ha & Hb).
    apply lookup_seq in Ha as [-> _]. done.
  - intros Hx. exists i. apply lookup_zip_with_Some. exists i, x.
    split; [done|]. split; [|done]. apply lookup_seq. split; [done|].
    by apply lookup_lt_Some in Hx.
Qed.

Lemma check_str_list_elem path w k d e :
  e ∈ Report.check_str_list path w k d
  ↔ e = (path, w) ∧ ∃ x, Dict.get k d = Some x ∧ Yaml._is_list_of_str x = false.
Proof.
  unfold Report.check_str_list. destruct (Dict.get k d) as [x|].
  - destruct (Yaml._is_list_of_str x) eqn:E.
    + split; [by intros ?%not_elem_of_nil|]. intros (_ & y & [= <-] & ?). congruence.
    + rewrite list_elem_of_singleton. split; [eauto|by intros [-> _]].
  - split; [by intros ?%not_elem_of_nil|]. by intros (_ & y & ? & _).
Qed.

Lemma item_check_kind path item_req entry e :
  e ∈ item_check path item_req entry → check_of e.2 = ResultsCheck.
Proof.
  unfold item_check. destruct entry.2 as [| | | | |d];
    try (by intros ->%list_elem_of_singleton).
  rewrite elem_of_app, missing_keys_elem.
  intros [(k & _ & _ & ->)|He]; [done|].
  destruct (Dict.get "passed" d) as [[]|];
    try (by apply not_elem_of_nil in He);
    by apply list_elem_of_singleton in He as ->.
Qed.

Lemma check_file_elem path entry e :
  e ∈ Report.check_file path entry → e = (path, FilesItemIncomplete entry.1).
Proof.
  destruct entry as [i f]. unfold Report.check_file.
  destruct f as [| | | | |d]; try (by intros ->%list_elem_of_singleton).
  destruct (Dict.mem "path" d && Dict.mem "description" d);
    [by intros ?%not_elem_of_nil|by intros ->%list_elem_of_singleton].
Qed.

(** Each check emits violations of its own kind only. *)
Lemma findings_kind c path report contract e :
  e ∈ findings_of c path report contract → check_of e.2 = c.
Proof.
  destruct c; simpl.
  - unfold required_check. rewrite missing_keys_elem. by intros (k & _ & _ & ->).
  - unfold status_check. destruct (existsb _ _);
      [by intros ?%not_elem_of_nil|by intros ->%list_elem_of_singleton].
  - unfold summary_check.
    destruct (field "summary" report) as [| | | |lines|] eqn:E; unfold field in E;
      rewrite E; try (by intros ->%list_elem_of_singleton).
    destruct (forallb Yaml.is_str lines); [|by intros ->%list_elem_of_singleton].
    destruct (len_gt _ _) as [[]|];
      [by intros ->%list_elem_of_singleton|by intros ?%not_elem_of_nil..].
  - unfold results_check.
    destruct (default YNull (Dict.get "acceptance_criteria_results" report))
      as [| | | |[|x items]|]; try (by intros ->%list_elem_of_singleton).
    rewrite list_elem_of_In, in_flat_map.
    intros (entry & _ & He%list_elem_of_In). by apply item_check_kind in He.
  - unfold files_check.
    destruct (default YNull (Dict.get "files_modified" report)) as [| | | |items|];
      try (by intros ->%list_elem_of_singleton).
    rewrite list_elem_of_In, in_flat_map.
    intros (entry & _ & He%list_elem_of_In). by apply check_file_elem in He as ->.
  - unfold verification_check.
    destruct (default YNull (Dict.get "verification" report)) as [| | | | |v];
      try (by intros ->%list_elem_of_singleton).
    rewrite !elem_of_app, missing_keys_elem, !check_str_list_elem.
    by intros [(k & _ & _ & ->)|[[-> _]|[-> _]]].
  - unfold lists_check. rewrite !elem_of_app, !check_str_list_elem.
    by intros [[-> _]|[-> _]].
  - by intros ?%not_elem_of_nil.
Qed.

(** An error is in the validator's list exactly when the check of its kind
    found it. *)
Lemma validate_report_elem report contract path :
  well_formed_contract contract = true →
  ∃ errors,
    Report.validate_report report contract path = Ok errors
    ∧ ∀ e, e ∈ errors ↔ e ∈ findings_of (check_of e.2) path report contract.
Proof.
  intros Hwf. eexists. split; [by apply validate_report_checks|].
  intros e. rewrite !elem_of_app. split.
  - intros H.
    repeat match type of H with
           | _ ∨ _ => destruct H as [H|H]
           end;
      [ pose proof (findings_kind RequiredCheck path report contract e H) as ->
      | pose proof (findings_kind StatusCheck path report contract e H) as ->
      | pose proof (findings_kind SummaryCheck path report contract e H) as ->
      | pose proof (findings_kind ResultsCheck path report contract e H) as ->
      | pose proof (findings_kind FilesCheck path report contract e H) as ->
      | pose proof (findings_kind VerificationCheck path report contract e H) as ->
      | pose proof (findings_kind ListsCheck path report contract e H) as -> ]; done.
  - destruct (check_of e.2); simpl; intros H; try tauto.
    by apply not_elem_of_nil in H.
Qed.

(** X1. Under a well-formed contract the report validator returns the
    findings of its seven checks -- required fields, status, summary,
    acceptance-criteria results, files modified, verification, risks and
    next steps -- one after the other: no check is skipped because an
    earlier one found something. *)
Theorem report_checks_all_run report contract path :
  well_formed_contract contract = true →
  Report.validate_report report contract path
  = Ok (required_check path report contract
        ++ status_check path report contract
        ++ summary_check path report contract
        ++ results_check path report contract
        ++ files_check path report
        ++ verification_check path report contract
        ++ lists_check path report).
Proof. apply validate_report_checks. Qed.

Lemma report_checks_all_run_witness :
  well_formed_contract report_contract = true
  ∧ Report.validate_report long_summary_report report_contract "T001.report.yaml"
    = Ok [ ("T001.report.yaml", SummaryTooLong 7 (YInt 6));
           ("T001.report.yaml", AcrItemNotMapping 0);
           ("T001.report.yaml", AcrItemMissing 1 (YStr "criterion"));
           ("T001.report.yaml", AcrItemMissing 1 (YStr "passed"));
           ("T001.report.yaml", FilesNotList);
           ("T001.report.yaml", VerificationNotMapping) ].
Proof.
  assert (Hwf : well_formed_contract report_contract = true) by reflexivity.
  split; [exact Hwf|].
  rewrite (report_checks_all_run long_summary_report report_contract
             "T001.report.yaml" Hwf).
  reflexivity.
Defined.

(** X2. Under a well-formed contract a field is reported as missing exactly
    when the contract requires it and the report has no such key; a key
    that is present with a null value is not missing. *)
Theorem report_missing_required report contract path :
  well_formed_contract contract = true →
  ∃ errors,
    Report.validate_report report contract path = Ok errors
    ∧ ∀ k : string,
        (path, MissingRequired (YStr k)) ∈ errors
        ↔ YStr k ∈ required_fields contract ∧ Dict.get k report = None.
Proof.
  intros Hwf. destruct (validate_report_elem report contract path Hwf)
    as (errors & Hrun & Helem).
  exists errors. split; [done|]. intros k. rewrite Helem. simpl.
  unfold required_check. rewrite missing_keys_elem. split.
  - intros (k' & Hk & Hne & [= <-]). split; [done|].
    simpl in Hne. unfold Dict.mem in Hne. by destruct (Dict.get k report).
  - intros [Hk Hnone]. exists (YStr k). split; [done|]. split; [|done].
    simpl. unfold Dict.mem. by rewrite Hnone.
Qed.

Lemma report_missing_required_witness :
  well_formed_contract report_contract = true
  ∧ ∃ errors,
      Report.validate_report report_without_status report_contract "T001.report.yaml"
      = Ok errors
      ∧ ("T001.report.yaml", MissingRequired (YStr "status")) ∈ errors.
Proof.
  assert (Hwf : well_formed_contract report_contract = true) by reflexivity.
  split; [exact Hwf|].
  destruct (report_missing_required report_without_status report_contract
              "T001.report.yaml" Hwf) as (errors & Hrun & Hiff).
  exists errors. split; [exact Hrun|]. apply Hiff. split; [|reflexivity].
  apply list_elem_of_here.
Defined.

(** X3. Under a well-formed contract the summary is reported as too long
    exactly when it is a list of strings with more entries than the
    contract's [summary_max_lines], 6 when the contract gives none; the
    error carries both counts. It is reported as no list of strings exactly
    when it is absent, not a list, or holds an entry that is not a string. *)
Theorem report_summary_findings report contract path :
  well_formed_contract contract = true →
  ∃ errors m,
    Report.validate_report report contract path = Ok errors
    ∧ summary_max_lines contract = YInt m
    ∧ (contract_value "constraints" (YMap []) contract = YMap [] → m = 6%Z)
    ∧ (∀ n bound,
         (path, SummaryTooLong n bound) ∈ errors
         ↔ ∃ lines, Dict.get "summary" report = Some (YList lines)
                    ∧ forallb Yaml.is_str lines = true
                    ∧ n = length lines ∧ bound = YInt m ∧ (m < Z.of_nat n)%Z)
    ∧ ((path, SummaryNotStrList) ∈ errors
       ↔ Yaml._is_list_of_str (field "summary" report) = false).
Proof.
  intros Hwf. destruct (validate_report_elem report contract path Hwf)
    as (errors & Hrun & Helem).
  destruct (well_formed_bound _ Hwf) as [m Hm].
  exists errors, m. split; [done|]. split; [done|]. split.
  { intros Hnone. unfold summary_max_lines in Hm. rewrite Hnone in Hm.
    by injection Hm. }
  split.
  - intros n bound. rewrite Helem. simpl. unfold summary_check, field. rewrite Hm.
    destruct (Dict.get "summary" report) as [[| | | |lines|]|]; simpl;
      try (split; [by intros [=]%list_elem_of_singleton|by intros (? & [=] & _)]).
    destruct (forallb Yaml.is_str lines) eqn:Estr.
    + destruct (Z.ltb_spec m (Z.of_nat (length lines))).
      * rewrite list_elem_of_singleton. split.
        -- intros [= -> ->]. by exists lines.
        -- by intros (? & [= <-] & _ & -> & -> & _).
      * split; [by intros ?%not_elem_of_nil|].
        intros (? & [= <-] & _ & -> & _ & ?). lia.
    + split; [by intros [=]%list_elem_of_singleton|].
      intros (? & [= <-] & ? & _). congruence.
  - rewrite Helem. simpl. unfold summary_check, field. rewrite Hm.
    destruct (default YNull (Dict.get "summary" report)) as [| | | |lines|];
      try (split; [done|intros _; apply list_elem_of_here]).
    simpl. destruct (forallb Yaml.is_str lines).
    + split; [|done]. destruct (_ <? _)%Z;
        [by intros [=]%list_elem_of_singleton|by intros ?%not_elem_of_nil].
    + split; [done|intros _; apply list_elem_of_here].
Qed.

Lemma report_summary_findings_witness :
  well_formed_contract report_contract = true
  ∧ ∃ errors,
      Report.validate_report long_summary_report report_contract "T001.report.yaml"
      = Ok errors
      ∧ ("T001.report.yaml", SummaryTooLong 7 (YInt 6)) ∈ errors.
Proof.
  assert (Hwf : well_formed_contract report_contract = true) by reflexivity.
  split; [exact Hwf|].
  destruct (report_summary_findings long_summary_report report_contract
              "T001.report.yaml" Hwf) as (errors & m & Hrun & Hm & _ & Hlong & _).
  injection Hm as <-.
  exists errors. split; [exact Hrun|]. apply Hlong.
  eexists. split; [reflexivity|]. by repeat split.
Defined.

Lemma item_check_elem path item_req i item e :
  e ∈ item_check path item_req (i, item)
  → (e = (path, AcrItemNotMapping i) ∧ is_mapping item = false)
    ∨ (is_mapping item = true
       ∧ ((∃ k, e = (path, AcrItemMissing i k)) ∨ e = (path, AcrPassedNotBool i))).
Proof.
  unfold item_check. cbn [fst snd].
  destruct item as [| | | | |d]; try (intros ->%list_elem_of_singleton; by left).
  rewrite elem_of_app, missing_keys_elem. intros [(k & _ & _ & ->)|He].
  - right. split; [done|]. left. by exists k.
  - right. split; [done|]. right.
    destruct (Dict.get "passed" d) as [[]|];
      try (by apply not_elem_of_nil in He);
      by apply list_elem_of_singleton in He.
Qed.

(** X4. Under a well-formed contract the acceptance-criteria results are
    reported as no non-empty list exactly when they are absent, not a list
    or empty, whatever the other fields hold; and an element at position
    [i] is reported as no mapping exactly when the results are a list whose
    element [i] is not a mapping: such an element is reported, not
    skipped. *)
Theorem report_results_findings report contract path :
  well_formed_contract contract = true →
  ∃ errors,
    Report.validate_report report contract path = Ok errors
    ∧ ((path, AcrNotNonEmptyList) ∈ errors
       ↔ ∀ item items,
           field "acceptance_criteria_results" report ≠ YList (item :: items))
    ∧ (∀ i, (path, AcrItemNotMapping i) ∈ errors
            ↔ ∃ items item,
                field "acceptance_criteria_results" report = YList items
                ∧ items !! i = Some item ∧ is_mapping item = false).
Proof.
  intros Hwf. destruct (validate_report_elem report contract path Hwf)
    as (errors & Hrun & Helem).
  exists errors. split; [done|]. split.
  - rewrite Helem. simpl. unfold results_check, field.
    destruct (default YNull (Dict.get "acceptance_criteria_results" report))
      as [| | | |[|x items]|];
      try (split; [done|intros _; apply list_elem_of_here]).
    split; [|intros H; by destruct (H x items)].
    rewrite list_elem_of_In, in_flat_map.
    intros ([j item] & _ & He%list_elem_of_In).
    by apply item_check_elem in He as [[[=] _]|[_ [[k [=]]|[=]]]].
  - intros i. rewrite Helem. simpl. unfold results_check, field.
    destruct (default YNull (Dict.get "acceptance_criteria_results" report))
      as [| | | |[|x items]|];
      try (split; [by intros [=]%list_elem_of_singleton
                  |by intros (? & ? & [=] & _)]).
    { split; [by intros [=]%list_elem_of_singleton|].
      by intros (? & ? & [= <-] & ? & _). }
    rewrite list_elem_of_In, in_flat_map. split.
    + intros ([j item] & Hin%list_elem_of_In%enumerate_elem & He%list_elem_of_In).
      apply item_check_elem in He as [[[= ->] Hmap]|[_ [[k [=]]|[=]]]].
      by eexists _, _.
    + intros (items' & item & [= <-] & Hi & Hmap).
      exists (i, item). split; [by apply list_elem_of_In, enumerate_elem|].
      apply list_elem_of_In. unfold item_check. cbn [fst snd].
      destruct item; try done; apply list_elem_of_here.
Qed.

Lemma report_results_findings_witness :
  well_formed_contract report_contract = true
  ∧ ∃ errors,
      Report.validate_report long_summary_report report_contract "T001.report.yaml"
      = Ok errors
      ∧ ("T001.report.yaml", AcrItemNotMapping 0) ∈ errors.
Proof.
  assert (Hwf : well_formed_contract report_contract = true) by reflexivity.
  split; [exact Hwf|].
  destruct (report_results_findings long_summary_report report_contract
              "T001.report.yaml" Hwf) as (errors & Hrun & _ & Hitem).
  exists errors. split; [exact Hrun|]. apply Hitem.
  by eexists _, _.
Defined.

Lemma missing_keys_nil path missing ks d :
  missing_keys path missing ks d = [] → has_keys ks d.
Proof.
  intros Hnil k Hk. destruct (Yaml.key_in k d) as [[]|e] eqn:E; [done|..];
    exfalso; apply (not_elem_of_nil (path, missing k)); rewrite <- Hnil;
    apply missing_keys_elem; exists k; by rewrite E.
Qed.

Lemma flat_map_nil {X Y : Type} (f : X → list Y) (xs : list X) x :
  flat_map f xs = [] → x ∈ xs → f x = [].
Proof.
  induction xs as [|y xs IH]; simpl; [by intros _ ?%not_elem_of_nil|].
  intros [Hy Hxs]%app_eq_nil [->|Hx]%elem_of_cons; auto.
Qed.

Lemma enumerate_has {X : Type} (xs : list X) x :
  x ∈ xs → ∃ i, (i, x) ∈ Py.enumerate xs.
Proof. intros [i Hi]%list_elem_of_lookup. exists i. by apply enumerate_elem. Qed.

Lemma check_str_list_nil path w k d :
  Report.check_str_list path w k d = [] → str_list_if_present k d.
Proof.
  unfold Report.check_str_list. intros Hnil x Hx. rewrite Hx in Hnil.
  by destruct (Yaml._is_list_of_str x).
Qed.

Lemma validate_report_accepts report contract path :
  well_formed_contract contract = true →
  Report.validate_report report contract path = Ok [] →
  report_shape report contract.
Proof.
  intros Hwf Hrun. unfold report_shape. rewrite (validate_report_checks _ _ _ Hwf) in Hrun.
  injection Hrun as Hrun.
  apply app_eq_nil in Hrun as [Hrequired Hrun].
  apply app_eq_nil in Hrun as [Hstatus Hrun].
  apply app_eq_nil in Hrun as [Hsummary Hrun].
  apply app_eq_nil in Hrun as [Hresults Hrun].
  apply app_eq_nil in Hrun as [Hfiles Hrun].
  apply app_eq_nil in Hrun as [Hverification Hlists].
  destruct (well_formed_bound _ Hwf) as [m Hm].
  split; [by apply missing_keys_nil in Hrequired|].
  split.
  { unfold status_check in Hstatus. unfold field. by destruct (existsb _ _). }
  split.
  { unfold summary_check in Hsummary. rewrite Hm in Hsummary.
    destruct (Dict.get "summary" report) as [[| | | |lines|]|]; try done.
    simpl in Hsummary. destruct (forallb Yaml.is_str lines) eqn:Estr; [|done].
    exists lines, m. repeat split; try done.
    destruct (Z.ltb_spec m (Z.of_nat (length lines))); [done|lia]. }
  split.
  { unfold results_check in Hresults.
    destruct (Dict.get "acceptance_criteria_results" report)
      as [[| | | |[|x items]|]|]; try done.
    exists (x :: items). split; [done|]. split; [done|].
    intros item [i Hi]%enumerate_has.
    apply (flat_map_nil _ _ _ Hresults) in Hi. unfold item_check in Hi.
    cbn [fst snd] in Hi. destruct item as [| | | | |d]; try done.
    apply app_eq_nil in Hi as [Hkeys Hpassed].
    exists d. split; [done|]. split; [by apply missing_keys_nil in Hkeys|].
    intros y Hy. rewrite Hy in Hpassed. destruct y; try done. eauto. }
  split.
  { unfold files_check in Hfiles.
    destruct (Dict.get "files_modified" report) as [[| | | |files|]|]; try done.
    exists files. split; [done|].
    intros f [i Hi]%enumerate_has.
    apply (flat_map_nil _ _ _ Hfiles) in Hi. unfold Report.check_file in Hi.
    destruct f as [| | | | |d]; try done.
    exists d. split; [done|].
    by destruct (Dict.mem "path" d), (Dict.mem "description" d). }
  split.
  { unfold verification_check in Hverification.
    destruct (Dict.get "verification" report) as [[| | | | |v]|]; try done.
    simpl in Hverification.
    apply app_eq_nil in Hverification as [Hkeys Hlists'].
    apply app_eq_nil in Hlists' as [Hcommands Hresults'].
    exists v. split; [done|]. split; [by apply missing_keys_nil in Hkeys|].
    split; by eapply check_str_list_nil. }
  unfold lists_check in Hlists. apply app_eq_nil in Hlists as [Hrisks Hnext].
  split; by eapply check_str_list_nil.
Qed.

(** X5. What acceptance guarantees: a report for which the validator,
    under a well-formed contract, returns no error has every required key,
    a status that the enum lists, a summary that is a list of strings
    within the bound, a non-empty list of acceptance-criteria results that
    are mappings with the item's required keys and a boolean [passed] if
    any, a list of modified files that are mappings with [path] and
    [description], a verification mapping with its required keys, and lists
    of strings wherever [commands_run], [results], [risks] and [next_steps]
    are present. *)
Theorem accepted_report report contract path :
  well_formed_contract contract = true →
  Report.validate_report report contract path = Ok [] →
  report_shape report contract.
Proof. apply validate_report_accepts. Qed.

Lemma accepted_report_witness :
  well_formed_contract report_contract = true
  ∧ Report.validate_report complete_report report_contract "T001.report.yaml" = Ok []
  ∧ ∃ items,
      Dict.get "acceptance_criteria_results" complete_report = Some (YList items)
      ∧ items ≠ [].
Proof.
  assert (Hwf : well_formed_contract report_contract = true) by reflexivity.
  assert (Hrun : Report.validate_report complete_report report_contract
                   "T001.report.yaml" = Ok []) by reflexivity.
  split; [exact Hwf|]. split; [exact Hrun|].
  destruct (accepted_report complete_report report_contract "T001.report.yaml"
              Hwf Hrun) as (_ & _ & _ & (items & Hitems & Hne & _) & _).
  by exists items.
Defined.

End ReportFindings.

(** ** The task validator *)

Section TaskChecks.

(** The task validator runs every check and returns the findings in the
    order of the checks. *)
Lemma validate_task_checks task contract path :
  names_contract contract = true →
  Task.validate_task task contract path
  = Ok (missing_keys path MissingRequired (required_fields contract) task
        ++ context_check path task
        ++ Task.check_field path task "inputs"
        ++ Task.check_field path task "outputs"
        ++ criteria_check path task
        ++ routing_check path task).
Proof.
  intros Hwf. destruct contract as [| | | | |c]; try done.
  destruct (well_formed_names _ _ Hwf) as (ks & Hget & Hks & Hstr).
  unfold Task.validate_task, required_fields. rewrite Hget, Hks. cbn [mbind result_bind Yaml.contains app].
  rewrite (require_keys_missing _ _ _ _ _ Hstr). cbn [mbind result_bind Yaml.contains app].
  f_equal. rewrite <- !List.app_assoc. f_equal.
  unfold context_check, criteria_check, routing_check, field.
  set (e0 := missing_keys _ _ _ _).
  destruct (default YNull (Dict.get "context" task)) as [| | |context| |];
    try destruct (10 <? Py.count_lines context)%nat;
    rewrite ?app_nil_r, ?app_nil_l;
    set (e1 := (_ ++ Task.check_field path task "outputs")%list);
    (destruct (default YNull (Dict.get "acceptance_criteria" task))
       as [| | | |[|x xs]|] eqn:Eac;
     [..|destruct (Yaml._is_list_of_str (YList (x :: xs)))|]);
    cbn [Yaml._is_list_of_str]; rewrite ?app_nil_r, ?app_nil_l;
    (destruct (default YNull (Dict.get "routing" task)) as [| | | | |routing];
     [..|destruct (Dict.mem "playbook" routing);
         destruct (Dict.get "contracts" routing) as [contracts|];
         [destruct (Yaml._is_list_of_str contracts)|
         |destruct (Yaml._is_list_of_str contracts)|]]);
    subst e1; rewrite ?app_nil_r, ?app_nil_l, <- ?List.app_assoc; reflexivity.
Qed.

Lemma check_field_nil path task k :
  Task.check_field path task k = [] ↔ optional_str_list k task.
Proof.
  unfold Task.check_field, optional_str_list, field, Task.bad_str_list.
  destruct (default YNull (Dict.get k task)) as [| | | |xs|]; simpl;
    try destruct (forallb Yaml.is_str xs); split; intros H;
    try done; try (by left); try (by right); by destruct H.
Qed.

Lemma context_check_nil path task :
  context_check path task = [] ↔ short_context task.
Proof.
  unfold context_check, short_context.
  destruct (field "context" task) as [| | |context| |];
    try (split; [by intros _ ? ?|done]).
  destruct (Nat.ltb_spec 10 (Py.count_lines context)); split.
  - done.
  - intros H'. specialize (H' _ eq_refl). lia.
  - intros _ ? [= <-]. lia.
  - done.
Qed.

Lemma criteria_check_nil path task :
  criteria_check path task = [] ↔ criteria_ok task.
Proof.
  unfold criteria_check, criteria_ok.
  destruct (field "acceptance_criteria" task) as [| | | |[|c cs]|];
    cbn [Yaml._is_list_of_str].
  - split; [by left|done].
  - split; [done|]. by intros [?|(? & ? & ? & ?)].
  - split; [done|]. by intros [?|(? & ? & ? & ?)].
  - split; [done|]. by intros [?|(? & ? & ? & ?)].
  - split; [done|]. by intros [?|(? & ? & ? & ?)].
  - destruct (forallb Yaml.is_str (c :: cs)) eqn:E; split.
    + intros _. right. by exists c, cs.
    + done.
    + done.
    + intros [?|(c' & cs' & [= <- <-] & H)]; [done|]. by rewrite E in H.
  - split; [done|]. by intros [?|(? & ? & ? & ?)].
Qed.

Lemma routing_check_nil path task :
  routing_check path task = [] ↔ routing_ok task.
Proof.
  unfold routing_check, routing_ok.
  destruct (field "routing" task) as [| | | | |routing].
  - split; [by left|done].
  - split; [done|]. by intros [?|(? & ? & ? & ?)].
  - split; [done|]. by intros [?|(? & ? & ? & ?)].
  - split; [done|]. by intros [?|(? & ? & ? & ?)].
  - split; [done|]. by intros [?|(? & ? & ? & ?)].
  - split.
    + intros [Hplay Hcon]%app_eq_nil.
      destruct (Dict.mem "playbook" routing) eqn:Eplay; [|done].
      destruct (Dict.get "contracts" routing) as [contracts|] eqn:Econ; [|done].
      destruct (Yaml._is_list_of_str contracts) eqn:E; [|done].
      right. by exists routing, contracts.
    + intros [?|(routing' & contracts & [= <-] & -> & -> & ->)]; done.
Qed.

Lemma missing_keys_nil_iff path missing ks d :
  missing_keys path missing ks d = [] ↔ has_keys ks d.
Proof.
  split; [apply missing_keys_nil|].
  intros Hkeys. unfold missing_keys.
  induction ks as [|k ks IH]; [done|]. simpl.
  rewrite (Hkeys k) by apply list_elem_of_here. simpl. apply IH.
  intros k' Hk'. apply Hkeys. by apply list_elem_of_further.
Qed.

(** X6. Which tasks the task validator accepts: under a contract whose
    required fields are a list of strings, it returns no error exactly
    when every required key is present (a null value counts), the context,
    if a string, has at most ten lines, [inputs] and [outputs] are absent,
    null or lists of strings, the acceptance criteria are absent, null or a
    non-empty list of strings, and the routing section is absent, null or a
    mapping with a [playbook] key and a list of strings under
    [contracts]. *)
Theorem accepted_task task contract path :
  names_contract contract = true →
  Task.validate_task task contract path = Ok []
  ↔ has_keys (required_fields contract) task
    ∧ short_context task
    ∧ optional_str_list "inputs" task
    ∧ optional_str_list "outputs" task
    ∧ criteria_ok task
    ∧ routing_ok task.
Proof.
  intros Hwf. rewrite (validate_task_checks _ _ _ Hwf).
  rewrite <- missing_keys_nil_iff, <- context_check_nil, <- !check_field_nil,
    <- criteria_check_nil, <- routing_check_nil.
  split.
  - intros [= H]. repeat (apply app_eq_nil in H as [? H]). repeat split; done.
  - intros (-> & -> & -> & -> & -> & ->). done.
Qed.

Lemma accepted_task_witness :
  names_contract task_contract = true
  ∧ (Task.validate_task task_document task_contract "T001.yaml" = Ok []
     ↔ has_keys (required_fields task_contract) task_document
       ∧ short_context task_document
       ∧ optional_str_list "inputs" task_document
       ∧ optional_str_list "outputs" task_document
       ∧ criteria_ok task_document
       ∧ routing_ok task_document).
Proof.
  split; [reflexivity|].
  apply (accepted_task task_document task_contract "T001.yaml"). reflexivity.
Defined.

End TaskChecks.

(** ** A contract that is not a mapping *)

Section ContractNotMapping.

Lemma validate_report_no_contract report contract path :
  is_mapping contract = false →
  Report.validate_report report contract path = Raise AttributeError.
Proof. by destruct contract. Qed.

Lemma report_scan_no_contract contract files errors :
  is_mapping contract = false →
  for_each files (Report.check_document contract) errors
  = if existsb reaches_validator files then Raise AttributeError
    else Ok (errors ++ flat_map (findings Report.validate_report contract) files).
Proof.
  intros Hc. revert errors. unfold Report.check_document.
  induction files as [|[f outcome] files IH]; intros errors.
  - simpl. by rewrite app_nil_r.
  - cbn [for_each existsb flat_map].
    unfold reaches_validator at 1, findings at 1. cbn [fst snd].
    destruct outcome as [msg|[| | | | |data]]; cbn [unreadable orb];
      try (cbn [mbind result_bind]; rewrite IH;
           destruct (existsb reaches_validator files);
           [done|by rewrite <- List.app_assoc]).
    by rewrite validate_report_no_contract.
Qed.

(** X7. A contract file that does not hold a mapping (an empty file loads
    as null): the task validator's [main] returns exit code 1 without
    reading a document, whereas the report validator's [main] raises
    [AttributeError] exactly when some document of the scan parses to a
    mapping, and otherwise reports the unreadable documents as usual. *)
Theorem contract_not_mapping contract files :
  is_mapping contract = false →
  Task.main contract files = Ok ([], 1%Z)
  ∧ (Report.main contract files = Raise AttributeError
     ↔ ∃ file, file ∈ files ∧ reaches_validator file = true)
  ∧ ((∀ file, file ∈ files → reaches_validator file = false) →
     ∃ errors,
       Report.main contract files = Ok (errors, exit_code errors)
       ∧ length errors = length files).
Proof.
  intros Hc. split; [by destruct contract|].
  unfold Report.main. rewrite (report_scan_no_contract _ _ _ Hc).
  destruct (existsb reaches_validator files) eqn:E.
  - apply existsb_exists in E as (file & Hin%list_elem_of_In & Hfile).
    split; [split; [eauto|done]|].
    intros Hall. by rewrite (Hall _ Hin) in Hfile.
  - split.
    + split; [done|]. intros (file & Hin%list_elem_of_In & Hfile).
      assert (existsb reaches_validator files = true) as E'
        by (apply existsb_exists; eauto).
      by rewrite E in E'.
    + intros _. cbn [mbind result_bind app]. eexists. split; [done|].
      clear Hc. induction files as [|[f outcome] files IH]; [done|].
      cbn [existsb] in E. apply orb_false_iff in E as [Ef E].
      cbn [flat_map]. rewrite length_app, (IH E). cbn [length]. f_equal.
      unfold reaches_validator, findings in *. cbn [fst snd] in *.
      by destruct outcome as [msg|[| | | | |data]].
Qed.

Lemma contract_not_mapping_witness :
  Task.main YNull [("T001.yaml", Document (YMap task_document))] = Ok ([], 1%Z)
  ∧ Report.main YNull
      [("a.report.yaml", ParseFailure "bad indentation");
       ("b.report.yaml", Document (YMap complete_report))]
    = Raise AttributeError.
Proof.
  split.
  - apply (contract_not_mapping YNull). reflexivity.
  - apply (contract_not_mapping YNull
             [("a.report.yaml", ParseFailure "bad indentation");
              ("b.report.yaml", Document (YMap complete_report))] eq_refl).
    exists ("b.report.yaml", Document (YMap complete_report)).
    split; [|reflexivity]. apply list_elem_of_further, list_elem_of_here.
Defined.

End ContractNotMapping.

(** ** Linkage: file names and ledger ids *)

Section LinkageIds.

Implicit Types (s t id : string).

Lemma endswith_app s t : Path.endswith t (s +:+ t) = true.
Proof.
  induction s as [|c s IH].
  - rewrite str_app_nil_l. destruct t; simpl; by rewrite ?Ascii.eqb_refl, ?String.eqb_refl.
  - rewrite str_app_cons. cbn [Path.endswith]. rewrite IH. apply orb_true_r.
Qed.

Lemma take_app_exact s t : Py.str_take (String.length s) (s +:+ t) = s.
Proof.
  induction s as [|c s IH]; [by destruct t|].
  rewrite str_app_cons. simpl. by rewrite IH.
Qed.

Lemma nonempty_length s : s ≠ "" → Py.nonempty s = true ∧ 0 < String.length s.
Proof. destruct s; [done|]. simpl. split; [done|lia]. Qed.

Lemma stem_suffix s t :
  s ≠ "" → t ≠ "" → Py.before_last "." t = None →
  Path.stem (s +:+ String "." t) = s.
Proof.
  intros [Hs _]%nonempty_length [_ Ht]%nonempty_length Hdot.
  unfold Path.stem. rewrite before_last_app, Hdot, str_app_nil_r, Hs.
  rewrite str_length_app. simpl.
  by destruct (Nat.ltb_spec (S (String.length s))
                 (String.length s + S (String.length t))); [|lia].
Qed.

Lemma stem_task_file id : id ≠ "" → Path.stem (task_file id) = id.
Proof. intros Hid. by apply (stem_suffix id "yaml"). Qed.

Lemma stem_report_file id : Path.stem (report_file id) = id +:+ ".report".
Proof.
  unfold report_file.
  replace (id +:+ ".report.yaml") with ((id +:+ ".report") +:+ String "." "yaml")
    by (by rewrite str_app_assoc).
  apply stem_suffix; [|done..]. by destruct id.
Qed.

End LinkageIds.

Section LinkageScans.

Implicit Types (s t id : string).

Lemma foldl_add_ids {X : Type} (step : gset string → X → gset string)
    (f : X → option string) (xs : list X) (ids : gset string) :
  (∀ ids x, step ids x = match f x with Some id => ids ∪ {[ id ]} | None => ids end) →
  foldl step ids xs = ids ∪ list_to_set (omap f xs).
Proof.
  intros Hstep. revert ids. induction xs as [|x xs IH]; intros ids.
  - simpl. by rewrite (right_id_L ∅ (∪)).
  - cbn [foldl omap list_omap]. rewrite IH, Hstep. destruct (f x) as [id|]; [|done].
    by rewrite list_to_set_cons, (assoc_L (∪)).
Qed.

Lemma rglob_yaml_all (f : string → string) (ids : list string) :
  (∀ id, Path.endswith ".yaml" (f id) = true) →
  Path.rglob_yaml (f <$> ids) = f <$> ids.
Proof.
  intros Hf. unfold Path.rglob_yaml.
  induction ids as [|id ids IH]; [done|]. cbn [fmap list_fmap List.filter].
  rewrite Hf. f_equal. apply IH.
Qed.

Lemma omap_names {X : Type} (f : X → option string) (g : string → X) (ids : list string) :
  Forall (λ id, f (g id) = Some id) ids → omap f (g <$> ids) = ids.
Proof.
  induction 1 as [|id ids Hid _ IH]; [done|].
  cbn [fmap list_fmap omap list_omap]. by rewrite Hid, IH.
Qed.

Lemma task_ids_of_names (ids : list string) :
  Forall (λ id, id ≠ "") ids →
  Ids.get_task_ids (Some (task_file <$> ids)) = list_to_set ids.
Proof.
  intros Hids. unfold Ids.get_task_ids.
  rewrite (rglob_yaml_all task_file) by (intros; apply (endswith_app _ ".yaml")).
  rewrite (foldl_add_ids _ (λ path, Some (Path.stem path))) by done.
  rewrite (left_id_L ∅ (∪)). f_equal. apply omap_names.
  eapply Forall_impl; [exact Hids|]. intros id Hid. by rewrite stem_task_file.
Qed.

Lemma report_ids_of_names (ids : list string) :
  Ids.get_report_ids (Some (report_file <$> ids)) = list_to_set ids.
Proof.
  unfold Ids.get_report_ids.
  rewrite (rglob_yaml_all report_file).
  2:{ intros id. unfold report_file.
      replace (id +:+ ".report.yaml") with ((id +:+ ".report") +:+ ".yaml")
        by (by rewrite str_app_assoc).
      apply endswith_app. }
  rewrite (foldl_add_ids _
             (λ path, if Path.endswith ".report" (Path.stem path)
                      then Some (Py.str_take (String.length (Path.stem path) - 7)
                                   (Path.stem path))
                      else None))
    by (intros ? path; by destruct (Path.endswith ".report" (Path.stem path))).
  rewrite (left_id_L ∅ (∪)). f_equal. apply omap_names.
  apply Forall_forall. intros id _. rewrite stem_report_file.
  rewrite (endswith_app id ".report"), str_length_app.
  replace (String.length id + String.length ".report" - 7) with (String.length id)
    by (simpl; lia).
  by rewrite take_app_exact.
Qed.

(** X8. The naming convention is read back: when the tasks directory
    holds [<id>.yaml] and the reports directory [<id>.report.yaml] for the
    non-empty ids of a list, both scans return exactly these ids, and the
    linkage check reports no task without a report and no report without a
    task: only the ids that the ledger lacks. *)
Theorem ids_of_conventional_names (ids : list string) (ledger : gset string) :
  Forall (λ id, id ≠ "") ids →
  Ids.get_task_ids (Some (task_file <$> ids)) = list_to_set ids
  ∧ Ids.get_report_ids (Some (report_file <$> ids)) = list_to_set ids
  ∧ (Linkage.main (Ids.get_task_ids (Some (task_file <$> ids)))
       (Ids.get_report_ids (Some (report_file <$> ids))) ledger).1
    = Linkage.TaskNotInLedger <$> Linkage.sorted (list_to_set ids ∖ ledger).
Proof.
  intros Hids. rewrite (task_ids_of_names _ Hids), report_ids_of_names.
  split; [done|]. split; [done|].
  unfold Linkage.main. cbn [fst]. rewrite difference_diag_L.
  by rewrite (proj2 (sorted_nil ∅) eq_refl).
Qed.

Lemma ids_of_conventional_names_witness :
  Ids.get_task_ids (Some (task_file <$> ["T001"; "T002"])) = list_to_set ["T001"; "T002"]
  ∧ Ids.get_report_ids (Some (report_file <$> ["T001"; "T002"]))
    = list_to_set ["T001"; "T002"].
Proof.
  assert (H : Forall (λ id : string, id ≠ "") ["T001"; "T002"])
    by (repeat constructor; discriminate).
  destruct (ids_of_conventional_names ["T001"; "T002"] ∅ H) as (Ht & Hr & _).
  by split.
Defined.

End LinkageScans.

Section LedgerIds.

Implicit Types (tasks ids : list yaml) (fields : dict).

Lemma list_to_set_absorb (x : string) (X : gset string) : x ∈ X → X = X ∪ {[ x ]}.
Proof.
  intros Hx. apply set_eq. intros y. rewrite elem_of_union, elem_of_singleton.
  split; [by left|]. by intros [?| ->].
Qed.

Lemma add_ids_all tasks ids :
  (∀ fields id, YMap fields ∈ tasks → Dict.get "id" fields = Some id →
                Ids.hashable id = true) →
  Ids.add_ids tasks ids = ids ++ ids_of tasks.
Proof.
  revert ids. induction tasks as [|t tasks IH]; intros ids Hh.
  - simpl. by rewrite app_nil_r.
  - assert (Htail : ∀ fields id, YMap fields ∈ tasks →
                      Dict.get "id" fields = Some id → Ids.hashable id = true)
      by (intros ? ? ?; apply Hh; by apply list_elem_of_further).
    cbn [Ids.add_ids ids_of omap list_omap].
    destruct t as [| | | | |fields]; try (by apply IH).
    destruct (Dict.get "id" fields) as [id|] eqn:E; [|by apply IH].
    rewrite (Hh fields id (list_elem_of_here _ _) E), IH by done.
    by rewrite <- List.app_assoc.
Qed.

Lemma ids_of_stamped today task_id issue_data pr_data i tasks :
  ids_of (alter (Ledger.stamp_value today task_id issue_data pr_data) i tasks)
  = ids_of tasks.
Proof.
  revert i. induction tasks as [|t tasks IH]; intros [|i]; try done.
  - change (alter _ 0 (t :: tasks)) with
      (Ledger.stamp_value today task_id issue_data pr_data t :: tasks).
    unfold ids_of. cbn [omap list_omap].
    destruct t as [| | | | |fields]; try done.
    cbn [Ledger.stamp_value]. by rewrite stamp_other.
  - change (alter ?f (S i) (t :: tasks)) with (t :: alter f i tasks).
    unfold ids_of in *. cbn [omap list_omap]. by rewrite IH.
Qed.

Lemma ids_of_app tasks fields :
  ids_of (tasks ++ [YMap fields])
  = ids_of tasks ++ match Dict.get "id" fields with Some id => [id] | None => [] end.
Proof.
  unfold ids_of. rewrite omap_app. by f_equal.
Qed.

Lemma strings_app ids ids' : strings (ids ++ ids') = strings ids ∪ strings ids'.
Proof. unfold strings. by rewrite omap_app, list_to_set_app_L. Qed.

Lemma strings_elem s tasks fields :
  YMap fields ∈ tasks → Dict.get "id" fields = Some (YStr s) →
  s ∈ strings (ids_of tasks).
Proof.
  intros Hin Hid. unfold strings, ids_of.
  apply elem_of_list_to_set, list_elem_of_omap. exists (YStr s). split; [|done].
  apply list_elem_of_omap. exists (YMap fields). by split.
Qed.

(** A merge that returns worked on a non-empty mapping whose [tasks] is a
    list: the document on disk, or the fresh ledger in its place. *)
Lemma update_ledger_inv today task_id issue_data pr_data on_disk ledger' :
  Ledger._update_ledger today task_id issue_data pr_data on_disk = Ok ledger' →
  ∃ fields tasks,
    fields ≠ []
    ∧ default (YList []) (Dict.get "tasks" fields) = YList tasks
    ∧ Ledger._update_ledger today task_id issue_data pr_data (Some (YMap fields))
      = Ok ledger'
    ∧ (tasks = [] ∨ ∃ d, on_disk = Some d ∧ Ledger.entries d = tasks)
    ∧ Ids.get_ledger_tasks (Document <$> on_disk) = Ids.add_ids tasks [].
Proof.
  intros Hrun.
  assert (Hfresh : ∀ d, Yaml.truthy d = false →
            Ids.get_ledger_tasks (Some (Document d)) = []).
  { intros [| | | |[]|[]]; done. }
  destruct on_disk as [d|]; [destruct (Yaml.truthy d) eqn:Etruthy|].
  - destruct d as [| | | | |fields];
      try (unfold Ledger._update_ledger in Hrun; rewrite Etruthy in Hrun; done).
    exists fields.
    unfold Ledger._update_ledger in Hrun. rewrite Etruthy in Hrun.
    cbn [Yaml.get_or mbind result_bind] in Hrun.
    assert (fields ≠ []) by (by intros ->).
    unfold Ids.get_ledger_tasks. cbn [fmap option_fmap option_map].
    destruct (Dict.get "tasks" fields) as [[| | |s|l|m]|] eqn:Etasks;
      cbn [default from_option id Yaml.iter mbind result_bind] in Hrun; try done.
    + exfalso. revert Hrun. clear.
      assert (Ledger.find_entry task_id (Yaml.chars s) = None) as ->; [|done].
      induction s as [|c s IH]; [done|]. simpl. by rewrite IH.
    + exists l. split; [done|]. split; [done|]. split.
      { rewrite <- Hrun. unfold Ledger._update_ledger.
        assert (Yaml.truthy (YMap fields) = true) as -> by by destruct fields.
        cbn [Yaml.get_or]. by rewrite Etasks. }
      split; [|done]. right. exists (YMap fields). split; [done|].
      unfold Ledger.entries. by rewrite Etasks.
    + exfalso. revert Hrun. clear.
      assert (Ledger.find_entry task_id (map (λ kv, YStr kv.1) m) = None) as ->;
        [|done].
      induction m as [|[k v] m IH]; [done|]. simpl. by rewrite IH.
    + exists []. split; [done|]. split; [done|]. split.
      { rewrite <- Hrun. unfold Ledger._update_ledger.
        assert (Yaml.truthy (YMap fields) = true) as -> by by destruct fields.
        cbn [Yaml.get_or]. by rewrite Etasks. }
      split; [by left|done].
  - exists [("version", YInt 2); ("tasks", YList [])], [].
    split; [done|]. split; [done|]. split.
    { rewrite <- Hrun. unfold Ledger._update_ledger. by rewrite Etruthy. }
    split; [by left|by apply Hfresh].
  - exists [("version", YInt 2); ("tasks", YList [])], [].
    split; [done|]. split; [done|]. split; [done|]. split; [by left|done].
Qed.

Lemma ledger_ids_after today task_id issue_data pr_data on_disk ledger' :
  Ledger._update_ledger today task_id issue_data pr_data on_disk = Ok ledger' →
  hashable_ids on_disk →
  ledger_ids (Some (Document ledger')) = ledger_ids (Document <$> on_disk) ∪ {[ task_id ]}.
Proof.
  intros (fields & tasks & Hne & Htasks & Hrun & Hdisk & Hbefore)%update_ledger_inv
    Hhash.
  assert (Hh : ∀ entry id, YMap entry ∈ tasks → Dict.get "id" entry = Some id →
                 Ids.hashable id = true).
  { destruct Hdisk as [->|(d & -> & <-)].
    - by intros ? ? ?%not_elem_of_nil.
    - intros entry id. by apply Hhash. }
  unfold ledger_ids. rewrite Hbefore, (add_ids_all _ _ Hh). cbn [app].
  rewrite (update_ledger_tasks _ _ _ _ _ _ Hne Htasks) in Hrun.
  injection Hrun as <-.
  unfold Ids.get_ledger_tasks. rewrite get_set_eq. cbn [Yaml.iter].
  destruct (Ledger.find_entry task_id tasks) as [i|] eqn:Efind.
  - rewrite add_ids_all, ids_of_stamped; cbn [app].
    + apply find_entry_Some in Efind as (t & Hi & (entry & -> & Hid)%is_entry_for_id & _).
      apply list_to_set_absorb. eapply strings_elem; [|done].
      by eapply list_elem_of_lookup_2.
    + intros entry id Hin Hid.
      assert (id ∈ ids_of (alter (Ledger.stamp_value today task_id issue_data pr_data)
                             i tasks)) as Hmem.
      { apply list_elem_of_omap. exists (YMap entry). by split. }
      rewrite ids_of_stamped in Hmem.
      apply list_elem_of_omap in Hmem as ([| | | | |entry'] & Hin' & Hid'); try done.
      by apply (Hh entry').
  - rewrite add_ids_all; cbn [app].
    + rewrite ids_of_app, strings_app, stamp_other by done. f_equal.
      apply (right_id_L ∅ (∪)).
    + intros entry id [Hin|Hin%list_elem_of_singleton]%elem_of_app Hid;
        [by apply (Hh entry)|].
      injection Hin as ->. rewrite stamp_other in Hid by done.
      by injection Hid as <-.
Qed.

Lemma listed_in_ledger task_id (task_ids report_ids ledger : gset string) :
  task_id ∈ ledger →
  Linkage.TaskNotInLedger task_id ∉ (Linkage.main task_ids report_ids ledger).1.
Proof.
  intros Hin. unfold Linkage.main. cbn [fst app].
  rewrite !elem_of_app, !list_elem_of_fmap.
  intros [[(x & [=] & _)|(x & [=] & _)]|(x & [= <-] & Hx)].
  by apply sorted_elem_of, elem_of_difference in Hx as [_ Hx].
Qed.

(** X9. The integrator's ledger entry is what the linkage check looks
    for: when [_update_ledger] returns, and every id that the ledger held
    is one a set accepts, the ids that [get_ledger_tasks] reads from the
    written document are the ids it read before together with the task id;
    so the linkage check does not report this task as missing from the
    ledger. *)
Theorem recorded_task_is_listed today task_id issue_data pr_data on_disk ledger'
    (task_ids report_ids : gset string) :
  Ledger._update_ledger today task_id issue_data pr_data on_disk = Ok ledger' →
  hashable_ids on_disk →
  ledger_ids (Some (Document ledger'))
  = ledger_ids (Document <$> on_disk) ∪ {[ task_id ]}
  ∧ Linkage.TaskNotInLedger task_id
    ∉ (Linkage.main task_ids report_ids (ledger_ids (Some (Document ledger')))).1.
Proof.
  intros Hrun Hhash.
  pose proof (ledger_ids_after _ _ _ _ _ _ Hrun Hhash) as Hids.
  split; [done|]. apply listed_in_ledger. rewrite Hids.
  apply elem_of_union_r. by apply elem_of_singleton.
Qed.

Lemma recorded_task_is_listed_witness :
  ∃ ledger',
    Ledger._update_ledger "2024-05-01" "T002" issue_12 None
      (Some ledger_with_notes) = Ok ledger'
    ∧ Linkage.TaskNotInLedger "T002"
      ∉ (Linkage.main {[ "T002" ]} ∅ (ledger_ids (Some (Document ledger')))).1.
Proof.
  destruct (Ledger._update_ledger "2024-05-01" "T002" issue_12 None
              (Some ledger_with_notes)) as [ledger'|e] eqn:Hrun;
    [|by vm_compute in Hrun].
  exists ledger'. split; [done|].
  apply (recorded_task_is_listed _ _ _ _ _ _ _ _ Hrun).
  intros d fields id [= <-] Hin Hid. vm_compute in Hin.
  repeat (apply elem_of_cons in Hin as [[= ->]|Hin];
          [vm_compute in Hid; by injection Hid as <-|]).
  by apply not_elem_of_nil in Hin.
Defined.

(** X10. The scan of the ledger ends at the first id that a set does not
    accept (a list or a mapping): the entries before it are read, the
    entries after it are not, whatever they hold. *)
Theorem ledger_scan_stops data before fields id after :
  Dict.get "tasks" data = Some (YList (before ++ YMap fields :: after)) →
  (∀ entry id', YMap entry ∈ before → Dict.get "id" entry = Some id' →
                Ids.hashable id' = true) →
  Dict.get "id" fields = Some id →
  Ids.hashable id = false →
  Ids.get_ledger_tasks (Some (Document (YMap data))) = ids_of before.
Proof.
  intros Htasks Hbefore Hid Hno. unfold Ids.get_ledger_tasks.
  rewrite Htasks. cbn [Yaml.iter].
  assert (Hscan : ∀ ids, Ids.add_ids (before ++ YMap fields :: after) ids
                         = ids ++ ids_of before); [|by rewrite Hscan].
  clear Htasks. induction before as [|t before IH]; intros ids.
  - cbn [app Ids.add_ids]. rewrite Hid, Hno. unfold ids_of. simpl.
    by rewrite app_nil_r.
  - assert (Htail : ∀ entry id', YMap entry ∈ before →
                      Dict.get "id" entry = Some id' → Ids.hashable id' = true)
      by (intros ? ? ?; apply Hbefore; by apply list_elem_of_further).
    rewrite <- app_comm_cons. cbn [Ids.add_ids ids_of omap list_omap].
    destruct t as [| | | | |entry]; try (by apply IH).
    destruct (Dict.get "id" entry) as [id'|] eqn:E; [|by apply IH].
    rewrite (Hbefore entry id' (list_elem_of_here _ _) E), IH by done.
    by rewrite <- List.app_assoc.
Qed.

Lemma ledger_scan_stops_witness :
  Ids.get_ledger_tasks (Some (Document ledger_with_list_id)) = [YStr "T001"]
  ∧ ledger_ids (Some (Document ledger_with_list_id)) = {[ "T001" ]}.
Proof.
  assert (H : Ids.get_ledger_tasks (Some (Document ledger_with_list_id))
              = ids_of [YMap [("id", YStr "T001")]]).
  { apply (ledger_scan_stops _ [YMap [("id", YStr "T001")]]
             [("id", YList [YStr "T002"])] (YList [YStr "T002"])
             [YMap [("id", YStr "T003")]]); try reflexivity.
    intros entry id' [[= ->]|Hin%not_elem_of_nil]%elem_of_cons Hid; [|done].
    vm_compute in Hid. by injection Hid as <-. }
  split; [exact H|]. unfold ledger_ids. rewrite H.
  apply (right_id_L ∅ (∪)).
Defined.

End LedgerIds.

(** ** Repository resolution *)

Section RemoteForms.

Implicit Types (s t u old new sep slug : string) (c : ascii) (p : ascii → bool).

Lemma prefix_split s t : String.prefix s t = true → ∃ u, t = s +:+ u.
Proof.
  revert t. induction s as [|c s IH]; intros t; [by exists t|].
  destruct t as [|d t]; [done|]. rewrite prefix_cons.
  destruct (ascii_dec c d) as [<-|]; [|done].
  intros [u ->]%IH. by exists u.
Qed.

Lemma str_in_split s t : Py.str_in s t = true → ∃ u v, t = u +:+ s +:+ v.
Proof.
  induction t as [|c t IH]; rewrite str_in_unfold.
  - rewrite orb_false_r. intros [v ->]%prefix_split. by exists "", v.
  - intros [[v ->]%prefix_split|[u [v ->]]%IH]%orb_true_iff.
    + by exists "", v.
    + by exists (String c u), v.
Qed.

Lemma str_in_trans s t u :
  Py.str_in s t = true → Py.str_in t u = true → Py.str_in s u = true.
Proof.
  intros (a & b & ->)%str_in_split (a' & b' & ->)%str_in_split.
  rewrite !str_app_assoc, <- (str_app_assoc a' a). apply str_in_middle.
Qed.

Lemma str_in_none s t u :
  Py.str_in s t = true → Py.str_in s u = false → Py.str_in t u = false.
Proof.
  intros Hst Hsu. destruct (Py.str_in t u) eqn:E; [|done].
  by rewrite (str_in_trans _ _ _ Hst E) in Hsu.
Qed.

Lemma str_in_false_cons s c t :
  Py.str_in s (String c t) = false →
  String.prefix s (String c t) = false ∧ Py.str_in s t = false.
Proof. rewrite str_in_unfold. by intros [? ?]%orb_false_iff. Qed.

Lemma replace_none old new s :
  Py.str_in old s = false → Py.replace_from old new 0 s = s.
Proof.
  induction s as [|c s IH]; [done|].
  intros [Hp Hs]%str_in_false_cons. cbn [Py.replace_from]. rewrite Hp. by rewrite IH.
Qed.

Lemma replace_app old new s t :
  starts_none old s t = true →
  Py.replace_from old new 0 (s +:+ t) = s +:+ Py.replace_from old new 0 t.
Proof.
  induction s as [|c s IH]; [done|].
  cbn [starts_none]. intros [Hp Hs]%andb_true_iff.
  apply negb_true_iff in Hp. rewrite str_app_cons in *.
  cbn [Py.replace_from]. rewrite Hp. by rewrite IH.
Qed.

Lemma replace_skip old new u s :
  Py.replace_from old new (String.length u) (u +:+ s) = Py.replace_from old new 0 s.
Proof. induction u as [|c u IH]; [done|]. by rewrite str_app_cons. Qed.

Lemma replace_match c old new s :
  Py.replace (String c old) new (String c old +:+ s)
  = new +:+ Py.replace_from (String c old) new 0 s.
Proof.
  unfold Py.replace. rewrite str_app_cons. cbn [Py.replace_from].
  rewrite <- str_app_cons, prefix_app.
  replace (String.length (String c old) - 1) with (String.length old)
    by (simpl; lia).
  by rewrite replace_skip.
Qed.

Lemma split_last_skip sep u s :
  Py.split_last_from sep (String.length u) (u +:+ s) = Py.split_last_from sep 0 s.
Proof. induction u as [|c u IH]; [done|]. by rewrite str_app_cons. Qed.

Lemma split_last_match c sep s :
  Py.split_last_from (String c sep) 0 (String c sep +:+ s)
  = Py.split_last_from (String c sep) 0 s.
Proof.
  rewrite str_app_cons. cbn [Py.split_last_from].
  rewrite <- str_app_cons, prefix_app.
  replace (String.length (String c sep) - 1) with (String.length sep)
    by (simpl; lia).
  by rewrite split_last_skip.
Qed.

Lemma split_last_later sep c s :
  String.prefix sep (String c s) = false → Py.str_in sep s = true →
  Py.split_last_from sep 0 (String c s) = Py.split_last_from sep 0 s.
Proof. intros Hp Hs. cbn [Py.split_last_from]. by rewrite Hp, Hs. Qed.

Lemma split_last_none sep s :
  Py.str_in sep s = false → Py.split_last_from sep 0 s = s.
Proof.
  induction s as [|c s IH]; [done|].
  intros [Hp Hs]%str_in_false_cons. cbn [Py.split_last_from].
  rewrite Hp, Hs. by rewrite IH.
Qed.

(** A [.git] that starts within a text free of [.git] does not end in a
    [.git] appended to it. *)
Lemma starts_none_git s t :
  Py.str_in ".git" s = false → t = "" ∨ t = ".git" →
  starts_none ".git" s t = true.
Proof.
  intros Hs Ht. induction s as [|c s IH]; [done|].
  apply str_in_false_cons in Hs as [Hp Hs]. cbn [starts_none].
  rewrite IH by done. rewrite andb_true_r. apply negb_true_iff.
  destruct Ht as [-> | ->]; [by rewrite str_app_nil_r|].
  clear IH Hs. revert Hp.
  destruct s as [|c1 [|c2 [|c3 s]]]; rewrite !str_app_cons;
    rewrite ?str_app_nil_l, !prefix_cons;
    repeat match goal with
           | |- context [ascii_dec ?a ?b] => destruct (ascii_dec a b) as [<-|]
           end; try done.
  by rewrite prefix_nil.
Qed.

Lemma lstrip_keep p c s : p c = false → Py.lstrip p (String c s) = String c s.
Proof. intros H. simpl. by rewrite H. Qed.

Lemma rstrip_all p t : str_forall p t = true → Py.rstrip p t = "".
Proof.
  induction t as [|c t IH]; [done|]. simpl.
  intros [Hc Ht]%andb_true_iff. by rewrite IH, Hc.
Qed.

Lemma rstrip_app p s t :
  str_forall (λ c, negb (p c)) s = true → str_forall p t = true →
  Py.rstrip p (s +:+ t) = s.
Proof.
  intros Hs Ht. induction s as [|c s IH].
  - rewrite str_app_nil_l. by apply rstrip_all.
  - simpl in Hs. apply andb_true_iff in Hs as [Hc Hs].
    rewrite str_app_cons. cbn [Py.rstrip]. rewrite IH by done.
    apply negb_true_iff in Hc. rewrite Hc. by destruct s.
Qed.

Lemma strip_output s t :
  s ≠ "" → no_space s = true → str_forall Py.is_space t = true →
  Py.strip Py.is_space (s +:+ t) = s.
Proof.
  intros Hne Hs Ht. unfold Py.strip. destruct s as [|c s]; [done|].
  rewrite str_app_cons, lstrip_keep.
  - rewrite <- str_app_cons. by apply rstrip_app.
  - unfold no_space in Hs. simpl in Hs. apply andb_true_iff in Hs as [Hc _].
    by apply negb_true_iff.
Qed.

Lemma parse_ssh slug t :
  plain_slug slug → t = "" ∨ t = ".git" →
  parse_remote ("git@github.com:" +:+ slug +:+ t) = Some slug.
Proof.
  intros (Hgit & Hhub & _) Ht. unfold parse_remote.
  assert (Py.str_in "github.com" ("git@github.com:" +:+ slug +:+ t) = true) as ->
    by reflexivity.
  assert (Py.replace ".git" "" ("git@github.com:" +:+ slug +:+ t)
          = "git@github.com:" +:+ slug) as ->.
  { unfold Py.replace. rewrite (replace_app _ _ "git@github.com:") by reflexivity.
    rewrite (replace_app _ _ slug) by (by apply starts_none_git).
    destruct Ht as [-> | ->]; by rewrite str_app_nil_r. }
  rewrite prefix_app, replace_match, str_app_nil_l. f_equal.
  apply replace_none. by apply (str_in_none "github.com").
Qed.

Lemma parse_https slug t :
  plain_slug slug → t = "" ∨ t = ".git" →
  parse_remote ("https://github.com/" +:+ slug +:+ t) = Some slug.
Proof.
  intros (Hgit & Hhub & _) Ht. unfold parse_remote.
  assert (Py.str_in "github.com" ("https://github.com/" +:+ slug +:+ t) = true) as ->
    by reflexivity.
  assert (Py.replace ".git" "" ("https://github.com/" +:+ slug +:+ t)
          = "https://github.com/" +:+ slug) as ->.
  { unfold Py.replace. rewrite (replace_app _ _ "https://github.com/") by reflexivity.
    rewrite (replace_app _ _ slug) by (by apply starts_none_git).
    destruct Ht as [-> | ->]; by rewrite str_app_nil_r. }
  assert (String.prefix "git@github.com:" ("https://github.com/" +:+ slug) = false)
    as -> by reflexivity.
  assert (Py.str_in "github.com/" ("https://github.com/" +:+ slug) = true) as ->
    by apply (str_in_middle "github.com/" "https://" slug).
  f_equal. unfold Py.split_last.
  change ("https://github.com/" +:+ slug)
    with ("https://" +:+ "github.com/" +:+ slug).
  repeat (rewrite str_app_cons, split_last_later;
          [|reflexivity|apply str_in_middle || apply (str_in_app_l _ _ _ (str_in_middle _ "" _))]).
  rewrite str_app_nil_l, split_last_match.
  apply split_last_none. by apply (str_in_none "github.com").
Qed.

(** X11. The resolver reads all four forms of a GitHub remote: for a slug
    that contains neither [.git] nor [github.com] nor white space, the SSH
    and the HTTPS URL, with or without the [.git] suffix and followed by
    any trailing white space, resolve to the slug, when no override is
    set or the override is empty. *)
Theorem detect_repository_resolves slug url trailing env_repository :
  plain_slug slug →
  url ∈ remote_forms slug →
  str_forall Py.is_space trailing = true →
  env_repository = None ∨ env_repository = Some "" →
  _detect_repository env_repository
    (Some {| returncode := 0; stdout := url +:+ trailing |})
  = Ok (Some slug).
Proof.
  intros Hslug Hurl Htrail Henv.
  assert (Hparse : parse_remote url = Some slug).
  { unfold remote_forms in Hurl.
    repeat (apply elem_of_cons in Hurl as [->|Hurl]).
    - apply parse_ssh; auto.
    - rewrite <- (str_app_nil_r slug) at 1. apply parse_ssh; auto.
    - apply parse_https; auto.
    - rewrite <- (str_app_nil_r slug) at 1. apply parse_https; auto.
    - by apply not_elem_of_nil in Hurl. }
  assert (Hstrip : Py.strip Py.is_space (url +:+ trailing) = url).
  { destruct Hslug as (_ & _ & Hspace). unfold remote_forms in Hurl.
    apply strip_output; [| |done].
    - repeat (apply elem_of_cons in Hurl as [->|Hurl]); try done.
      by apply not_elem_of_nil in Hurl.
    - unfold no_space in *.
      repeat (apply elem_of_cons in Hurl as [->|Hurl]);
        rewrite ?str_forall_app, ?Hspace; try done.
      by apply not_elem_of_nil in Hurl. }
  unfold _detect_repository. cbn [returncode stdout]. rewrite Hstrip, Hparse.
  by destruct Henv as [-> | ->].
Qed.

Lemma detect_repository_resolves_witness :
  _detect_repository None
    (Some {| returncode := 0;
             stdout := ("git@github.com:" +:+ "octocat/hello-world" +:+ ".git")
                       +:+ Py.newline |})
  = Ok (Some "octocat/hello-world").
Proof.
  apply (detect_repository_resolves "octocat/hello-world").
  - by repeat split.
  - apply list_elem_of_here.
  - reflexivity.
  - by left.
Defined.

End RemoteForms.

(** ** The pipeline, stage by stage *)

Section PipelineRuns.

Import Pipeline.

Implicit Types (env : environment) (trace history events : list event).

Lemma every_run_exec {A : Type} (P : list event → result A → Prop) (p : prog A)
    env history :
  every_run P p history →
  P (history ++ (exec env p history).1) (exec env p history).2.
Proof.
  revert history. induction p as [a|e|c k IH]; intros history Hp.
  - simpl. by rewrite app_nil_r.
  - simpl. by rewrite app_nil_r.
  - simpl in Hp. specialize (IH _ _ (Hp (env history c))).
    simpl. destruct (exec env (k (env history c)) _) as [events outcome].
    simpl in *. by rewrite <- List.app_assoc in IH.
Qed.

Lemma ascending_sorted (ns : list nat) :
  ascending ns = true → StronglySorted lt ns.
Proof.
  induction ns as [|n [|m ns] IH]; intros H.
  - constructor.
  - repeat constructor.
  - cbn [ascending] in H. apply andb_true_iff in H as [Hnm Hrest].
    apply Nat.ltb_lt in Hnm. specialize (IH Hrest).
    constructor; [done|].
    apply StronglySorted_inv in IH as [_ Hm].
    constructor; [done|]. eapply Forall_impl; [exact Hm|]. intros; simpl in *; lia.
Qed.

(** Every answer of every subprocess, one case each. *)
Ltac answer :=
  let rc := fresh "rc" in
  let out := fresh "out" in
  intros [[rc out]|].

Ltac split_on_answers :=
  repeat first
    [ progress cbn [every_run prog_bind mbind prog_mbind mret prog_mret try_except
                    run run_checked _branch_exists _has_changes _create_pr
                    _create_branch_and_pr any_exception called_process_error
                    returncode stdout app method token]
    | answer
    | match goal with
      | |- context [(?rc =? 0)%Z] => destruct (rc =? 0)%Z eqn:?
      | |- context [has_output ?r] => destruct (has_output r) eqn:?
      | |- context [Py.nonempty ?t] => destruct (Py.nonempty t) eqn:?
      | |- context [match ?f ?x with Some _ => _ | None => _ end] =>
          destruct (f x) eqn:?
      end ].

Ltac use_answers :=
  cbn;
  repeat match goal with
         | H : _ = true |- _ => rewrite H
         | H : _ = false |- _ => rewrite H
         end;
  cbn.

Section Runs.

Variable int_of_str : string → option Z.
Variable pr_of_json : string → option Ref.
Variable pr_body : string.
Variable auth : option GitHubAuth.
Variable repo : option string.
Variable task : TaskInfo.
Variable issue_data : Ref.

#[local] Abbreviation pipeline :=
  (_create_branch_and_pr int_of_str pr_of_json pr_body auth repo task issue_data).

Ltac start :=
  unfold _create_branch_and_pr;
  set (branch := _generate_branch_name task);
  set (message := _generate_commit_message task issue_data);
  set (pr_title := "[" +:+ task_id task +:+ "] " +:+ title task);
  destruct auth as [[[] [tok|]]|], repo as [r|];
  split_on_answers.

Lemma pipeline_order_runs :
  every_run (λ trace _, ascending (stages trace) = true) pipeline [].
Proof. start; reflexivity. Qed.


Lemma pipeline_commit_runs :
  every_run
    (λ trace outcome,
       commits trace = (if changes_seen trace then commits trace else [])
       ∧ (∀ m, m ∈ commits trace → m = _generate_commit_message task issue_data)
       ∧ (returned outcome = true → changes_seen trace = true →
          commits_made trace = [_generate_commit_message task issue_data]))
    pipeline [].
Proof.
  start; use_answers; (split; [reflexivity|]); (split; [|done]);
    intros m Hm; repeat (apply elem_of_cons in Hm as [->|Hm]; [done|]);
    by apply not_elem_of_nil in Hm.
Qed.

Lemma pipeline_checkout_runs :
  every_run
    (λ trace _,
       checkouts trace
       = [if branch_seen trace
          then git_checkout (_generate_branch_name task)
          else git_checkout_new (_generate_branch_name task)])
    pipeline [].
Proof. start; by use_answers. Qed.


(** X12. Whatever the subprocesses answer, the pipeline goes through its
    stages in order and through each at most once: local branch check,
    remote branch check, checkout, status, add, commit, push, forced push,
    pull request against main, pull request against master. *)
Theorem pipeline_stages_in_order env :
  StronglySorted lt (stages (exec env pipeline []).1).
Proof.
  apply ascending_sorted.
  apply (every_run_exec (λ trace _, ascending (stages trace) = true) pipeline env []).
  apply pipeline_order_runs.
Qed.


(** X14. The pipeline commits exactly when [git status --porcelain]
    printed something: without changes no commit is attempted; every
    commit carries the generated commit message; and a run that returns
    after changes were seen has made exactly one commit. *)
Theorem pipeline_commits_iff_changes env :
  let run := exec env pipeline [] in
  (changes_seen run.1 = false → commits run.1 = [])
  ∧ (∀ m, m ∈ commits run.1 → m = _generate_commit_message task issue_data)
  ∧ (returned run.2 = true → changes_seen run.1 = true →
     commits_made run.1 = [_generate_commit_message task issue_data]).
Proof.
  intros run.
  destruct (every_run_exec _ pipeline env [] pipeline_commit_runs) as (H1 & H2 & H3).
  fold run in H1, H2, H3. cbn [app] in *.
  split; [|by split]. intros Hno. by rewrite Hno in H1.
Qed.

(** X15. An existing branch is switched to, never created again: the
    pipeline runs exactly one checkout, [git checkout B] when the local or
    the remote branch check printed something and [git checkout -b B]
    otherwise, a check that did not start counting as printing nothing. *)
Theorem pipeline_checkout_follows_checks env :
  let run := exec env pipeline [] in
  checkouts run.1
  = [if branch_seen run.1
     then git_checkout (_generate_branch_name task)
     else git_checkout_new (_generate_branch_name task)].
Proof. apply (every_run_exec _ pipeline env [] pipeline_checkout_runs). Qed.


Lemma pipeline_pr_runs :
  every_run
    (λ trace outcome,
       (pr_bases trace = [] ∨ pushed trace = true)
       ∧ (returned outcome = true → pushed trace = true))
    pipeline [].
Proof.
  start; use_answers; (split; [|done]); first [by left|by right].
Qed.

(** X27. No pull request without a push: in every run of the pipeline, a
    pull request is requested only after a push, forced or not, ended
    with status 0; and a run that returns, with or without a pull
    request, has pushed. *)
Theorem pipeline_pr_after_push env :
  let run := exec env pipeline [] in
  (pr_bases run.1 = [] ∨ pushed run.1 = true)
  ∧ (returned run.2 = true → pushed run.1 = true).
Proof. apply (every_run_exec _ pipeline env [] pipeline_pr_runs). Qed.

End Runs.

Lemma pipeline_pr_after_push_witness :
  pushed
    (exec diverged
       (_create_branch_and_pr (λ _, Some 7%Z) (λ _, None) "## Task" cli_login
          (Some "octocat/demo") (task_with "T010" "Fix login bug") issue_12)
       []).1 = true.
Proof.
  by apply (pipeline_pr_after_push (λ _, Some 7%Z) (λ _, None) "## Task" cli_login
              (Some "octocat/demo") (task_with "T010" "Fix login bug") issue_12
              diverged).
Defined.

Lemma pipeline_commits_iff_changes_witness :
  let run :=
    exec diverged
      (_create_branch_and_pr (λ _, Some 7%Z) (λ _, None) "## Task" cli_login
         (Some "octocat/demo") (task_with "T010" "Fix login bug") issue_12)
      [] in
  returned run.2 = true
  ∧ changes_seen run.1 = true
  ∧ commits_made run.1
    = [_generate_commit_message (task_with "T010" "Fix login bug") issue_12].
Proof.
  intros run.
  assert (Hret : returned run.2 = true) by by vm_compute.
  assert (Hseen : changes_seen run.1 = true) by by vm_compute.
  split; [exact Hret|]. split; [exact Hseen|].
  by apply (pipeline_commits_iff_changes (λ _, Some 7%Z) (λ _, None) "## Task"
              cli_login (Some "octocat/demo") (task_with "T010" "Fix login bug")
              issue_12 diverged).
Defined.

End PipelineRuns.

(** ** Reconciliation: what it leaves alone, and a failed search *)

Section ReconcilerFrame.

Import Remote.

Implicit Types (i : issue) (st : store).

Lemma edited_frame n body st : issue_frame <$> edited n body st = issue_frame <$> st.
Proof.
  unfold edited. rewrite <- list_fmap_compose. apply list_fmap_ext.
  intros k i _. simpl. by destruct (issue_number i =? n)%Z.
Qed.

(** X17. Whatever the credentials, the network and the search do,
    reconciliation deletes no issue and changes no number, title, label or
    state: the issues keep all but their bodies, or one issue with a new
    number is put in front of them. *)
Theorem reconcile_frame search_hit auth repo net task body st :
  let run := _create_or_update_issue search_hit auth repo net task body st in
  issue_frame <$> run.2 = issue_frame <$> st
  ∨ ∃ new, run.2 = new :: st
           ∧ (issue_number new ∉ issue_number <$> st)
           ∧ issue_title new = "[" +:+ task_id task +:+ "] " +:+ title task.
Proof.
  unfold _create_or_update_issue, _update_issue, _create_issue. cbn zeta.
  destruct (_find_existing_issue _ _ _ _ _ _) as [i|];
    destruct (can_write auth repo net); cbn [snd]; try (by left).
  - left. apply edited_frame.
  - right. eexists. split; [reflexivity|]. split; [apply next_number_fresh|done].
Qed.

(** X18. A search that fails is taken for a search that finds nothing:
    when the listing request fails and the create request goes through, a
    new issue is created whatever the store holds, so that every such run
    adds one more issue with the task id in its title. *)
Theorem search_failure_creates search_hit auth repo net task body st :
  listing search_hit auth repo net (task_id task) st = None →
  can_write auth repo net = true →
  let run := _create_or_update_issue search_hit auth repo net task body st in
  run.1 = Some {| number := Some (next_number st);
                  url := Some (issue_url (default "" repo) (next_number st)) |}
  ∧ run.2 = created ("[" +:+ task_id task +:+ "] " +:+ title task) body
              ["agent-task"; "automation"] st
  ∧ length (matching (task_id task) run.2)
    = S (length (matching (task_id task) st)).
Proof.
  intros Hlist Hwrite. unfold _create_or_update_issue, _find_existing_issue.
  rewrite Hlist. unfold _create_issue. rewrite Hwrite. cbn zeta. cbn [fst snd].
  split; [done|]. split; [done|].
  unfold matching, created. cbn [List.filter].
  unfold title_has at 1. cbn [issue_title].
  by rewrite (str_in_middle (task_id task) "[" ("] " +:+ title task)).
Qed.

Lemma search_failure_creates_witness :
  let run :=
    _create_or_update_issue title_search cli_login (Some "octocat/demo")
      offline_listing (task_with "T001" "Fix login bug") "## Goal" [tracked 1 true] in
  length (matching "T001" run.2) = 2.
Proof.
  intros run.
  by apply (search_failure_creates title_search cli_login (Some "octocat/demo")
              offline_listing (task_with "T001" "Fix login bug") "## Goal"
              [tracked 1 true] eq_refl eq_refl).
Defined.

End ReconcilerFrame.

(** ** Authentication *)

Section AuthFacts.

Import Auth.

Implicit Types (h : host) (a : GitHubAuth).

(** X19. Credentials that [_ensure_auth] returns are usable: either the
    CLI method, after [gh] was found and [gh auth status] ended with
    status 0, without any prompt; or the token method with a non-empty
    token, which is the first non-empty one of [GITHUB_TOKEN] and
    [GH_TOKEN], read without any prompt, or else the token that was typed,
    stripped, after choice 2, and appended to [.env.local]. *)
Theorem ensure_auth_usable ci_mode h a :
  (_ensure_auth ci_mode h).1 = Ok (Some a) →
  (a = {| method := gh_cli; token := None |}
   ∧ gh_on_path h = true
   ∧ (∃ r, gh_auth_status h = Some r ∧ returncode r = 0%Z)
   ∧ (_ensure_auth ci_mode h).2 = [])
  ∨ (∃ t, a = {| method := token_auth; token := Some t |}
          ∧ Py.nonempty t = true
          ∧ (or_else (getenv h "GITHUB_TOKEN") (getenv h "GH_TOKEN") = Some t
             ∧ (_ensure_auth ci_mode h).2 = []
             ∨ ci_mode = false
               ∧ (∃ choice typed' rest,
                    typed h = Line choice :: Line typed' :: rest
                    ∧ Py.strip Py.is_space choice = "2"
                    ∧ Py.strip Py.is_space typed' = t)
               ∧ env_local_line t ∈ (_ensure_auth ci_mode h).2)).
Proof.
  unfold _ensure_auth.
  destruct (gh_on_path h) eqn:Egh; cbn [andb].
  1: destruct (gh_auth_status h) as [r|] eqn:Estatus;
     [destruct (Z.eqb_spec (returncode r) 0) as [Hrc|Hrc]|].
  1: { cbn [fst snd]. intros [= <-]. left. repeat split; eauto. }
  all: intros Hrun; right.
  all: destruct (or_else (getenv h "GITHUB_TOKEN") (getenv h "GH_TOKEN"))
         as [t|] eqn:Etoken;
       [destruct (Py.nonempty t) eqn:Ene|].
  all: try (cbn [fst snd] in *; injection Hrun as <-; exists t;
            split; [done|]; split; [done|]; by left).
  all: destruct ci_mode; [done|].
  all: unfold _prompt_for_auth, input in *.
  all: destruct (typed h) as [|[choice|] [|[typed'|] rest]] eqn:Etyped;
         cbn [fst snd] in *; try done.
  all: destruct (String.eqb_spec (Py.strip Py.is_space choice) "1"); try done.
  all: destruct (String.eqb_spec (Py.strip Py.is_space choice) "2");
         [|by destruct (String.eqb (Py.strip Py.is_space choice) "3")].
  all: try done.
  all: destruct (Py.nonempty (Py.strip Py.is_space typed')) eqn:Et; [|done].
  all: destruct (env_local_writable h); [|done].
  all: cbn [fst snd] in *; injection Hrun as <-.
  all: eexists; split; [reflexivity|]; split; [done|]; right.
  all: split; [done|]; split;
         [by exists choice, typed', rest
         |apply list_elem_of_further, list_elem_of_further, list_elem_of_here].
Qed.

Lemma ensure_auth_usable_witness :
  (_ensure_auth false (host_with no_env [Line " 2 "; Line "ghp_typed "])).1
  = Ok (Some {| method := token_auth; token := Some "ghp_typed" |})
  ∧ env_local_line "ghp_typed"
    ∈ (_ensure_auth false (host_with no_env [Line " 2 "; Line "ghp_typed "])).2.
Proof.
  assert (Hrun : (_ensure_auth false
                    (host_with no_env [Line " 2 "; Line "ghp_typed "])).1
                 = Ok (Some {| method := token_auth; token := Some "ghp_typed" |}))
    by reflexivity.
  split; [exact Hrun|].
  destruct (ensure_auth_usable _ _ _ Hrun)
    as [(Hcli & _)|(t & Ht & _ & [(Henv & _)|(_ & _ & Hline)])].
  - discriminate Hcli.
  - discriminate Henv.
  - by injection Ht as <-.
Defined.



End AuthFacts.

(** ** Issue and pull-request bodies *)

Section RenderFacts.

Import Render.

Variable repr : yaml → string.
Variables passed_mark failed_mark : string.

Implicit Types (lines : list string) (items : list yaml) (line : yaml → result string).









End RenderFacts.


(** ** The orchestrator *)

Section RunFacts.

Import Integrator.

Implicit Types (c : callees) (calls : list call).



(** X22. The exit code and the ledger of every run. A run ends with 0 or
    1 or raises; it writes the ledger at most once, as its last act, under
    the id given on the command line; it ends with 0 exactly when it wrote
    the ledger after skipping the pull request or after the pull request
    was created, and these are the only runs that record a pull request;
    with [--skip-pr] the pipeline is not called. *)
Theorem run_exit_and_ledger c today ledger_file task_id skip_pr :
  let outcome := (run c today ledger_file task_id skip_pr).1 in
  let calls := (run c today ledger_file task_id skip_pr).2 in
  (outcome = Ok 0%Z ∨ outcome = Ok 1%Z ∨ ∃ e, outcome = Raise e)
  ∧ (ledger_writes calls = []
     ∨ ∃ front document issue_data pr_data,
         calls = front ++ [LedgerWrite document]
         ∧ ledger_writes front = []
         ∧ Ledger._update_ledger today task_id issue_data pr_data ledger_file
           = Ok document
         ∧ (pr_data = None ∨ skip_pr = false ∧ pipeline_calls calls = [issue_data])
         ∧ outcome = Ok (if skip_pr || bool_decide (pr_data ≠ None) then 0 else 1)%Z)
  ∧ (outcome = Ok 0%Z → ledger_writes calls ≠ [])
  ∧ (skip_pr = true → pipeline_calls calls = []).
Proof.
  unfold run, update_and_return. cbn zeta.
  destruct (load_task c) as [task|]; [|by repeat split; auto].
  destruct (detect_repository c) as [[repo|]|e]; [|by repeat split; auto|].
  2: { split; [eauto|]. by repeat split; auto. }
  destruct (Py.nonempty repo); [|by repeat split; auto].
  destruct (ensure_auth c) as [[auth|]|e]; [|by repeat split; auto|].
  2: { split; [eauto|]. by repeat split; auto. }
  destruct (create_or_update_issue c repo auth task (load_report c)) as [issue|e].
  2: { split; [eauto|]. by repeat split; auto. }
  set (issue_data := default {| number := None; url := None |} issue).
  destruct skip_pr.
  - destruct (Ledger._update_ledger today task_id issue_data None ledger_file)
      as [document|e] eqn:Eledger; cbn [fst snd].
    + split; [auto|]. split; [|by split].
      right. exists [IssueCall task], document, issue_data, None. by repeat split; auto.
    + split; [eauto|]. by repeat split; auto.
  - destruct (create_branch_and_pr c repo auth task (load_report c) issue_data)
      as [[pr|]|e].
    + destruct (Ledger._update_ledger today task_id issue_data (Some pr) ledger_file)
        as [document|e] eqn:Eledger; cbn [fst snd].
      * split; [auto|]. split; [|by split].
        right. exists [IssueCall task; PipelineCall task issue_data], document,
                 issue_data, (Some pr).
        by repeat split; auto.
      * split; [eauto|]. by repeat split; auto.
    + destruct (Ledger._update_ledger today task_id issue_data None ledger_file)
        as [document|e] eqn:Eledger; cbn [fst snd].
      * split; [auto|]. split; [|by split].
        right. exists [IssueCall task; PipelineCall task issue_data], document,
                 issue_data, None.
        by repeat split; auto.
      * split; [eauto|]. by repeat split; auto.
    + split; [eauto|]. by repeat split; auto.
Qed.

Lemma run_exit_and_ledger_witness :
  (run pr_fails "2024-05-01" None "T002" true).1 = Ok 0%Z
  ∧ pipeline_calls (run pr_fails "2024-05-01" None "T002" true).2 = []
  ∧ ledger_writes (run pr_fails "2024-05-01" None "T002" true).2 ≠ [].
Proof.
  assert (Hcode : (run pr_fails "2024-05-01" None "T002" true).1 = Ok 0%Z)
    by reflexivity.
  destruct (run_exit_and_ledger pr_fails "2024-05-01" None "T002" true)
    as (_ & _ & Hwritten & Hskip).
  split; [exact Hcode|]. split; [by apply Hskip|by apply Hwritten].
Defined.



End RunFacts.

(** ** The authentication check and the integrator *)

Section CheckFacts.

Variable check_mark : string.

Implicit Types (h : Check.host).

Lemma main_code h :
  Check.main check_mark h
  = if (Check.check_gh_cli_auth check_mark h).1 || (Check.check_token_auth h).1
    then 0%Z else 1%Z.
Proof.
  unfold Check.main.
  by destruct (Check.check_gh_cli_auth check_mark h), (Check.check_token_auth h).
Qed.

Lemma gh_ok_ready h :
  (Check.check_gh_cli_auth check_mark h).1 = true →
  Auth.gh_on_path (Check.auth_host h) = true
  ∧ ∃ r, Auth.gh_auth_status (Check.auth_host h) = Some r
         ∧ (returncode r =? 0)%Z = true.
Proof.
  unfold Check.check_gh_cli_auth.
  destruct (Auth.gh_on_path (Check.auth_host h)); [|done]. cbn [negb].
  destruct (Auth.gh_auth_status (Check.auth_host h)) as [r|]; [|done].
  destruct (returncode r =? 0)%Z eqn:Erc; [|done].
  intros _. split; [done|]. by exists r.
Qed.

Lemma token_ok_set h :
  (Check.check_token_auth h).1 = true →
  ∃ t, Auth.or_else (Auth.getenv (Check.auth_host h) "GITHUB_TOKEN")
         (Auth.getenv (Check.auth_host h) "GH_TOKEN") = Some t
       ∧ Py.nonempty t = true
       ∧ (∃ r, Check.curl_user h = Some r
               ∧ Py.strip Py.is_space (stdout r) = "200").
Proof.
  unfold Check.check_token_auth.
  destruct (Auth.or_else _ _) as [t|]; [|done].
  destruct (Py.nonempty t) eqn:Ene; [|done]. cbn [negb].
  destruct (negb _); [done|].
  destruct (Check.curl_user h) as [r|] eqn:Ecurl; [|done].
  destruct (String.eqb_spec (Py.strip Py.is_space (stdout r)) "200") as [H200|].
  - intros _. exists t. split; [done|]. split; [done|]. by exists r.
  - by destruct (String.eqb _ "401").
Qed.

(** X24. The check is a sound preflight for the integrator: when
    [check_github_auth.py] exits with 0, the integrator's [_ensure_auth]
    on the same host returns credentials, in either mode and without
    asking; and the check exits with 0 or 1 only. *)
Theorem check_passes_integrator_authenticates h ci_mode :
  (Check.main check_mark h = 0%Z ∨ Check.main check_mark h = 1%Z)
  ∧ (Check.main check_mark h = 0%Z →
     ∃ a, Auth._ensure_auth ci_mode (Check.auth_host h) = (Ok (Some a), [])).
Proof.
  rewrite main_code.
  destruct (Check.check_gh_cli_auth check_mark h).1 eqn:Egh; cbn [orb].
  - split; [by left|]. intros _.
    destruct (gh_ok_ready h Egh) as (Hpath & r & Hstatus & Hrc).
    unfold Auth._ensure_auth. rewrite Hpath, Hstatus, Hrc. cbn [andb]. eauto.
  - destruct (Check.check_token_auth h).1 eqn:Etoken; [|by split; [right|]].
    split; [by left|]. intros _.
    destruct (token_ok_set h Etoken) as (t & Ht & Hne & _).
    unfold Auth._ensure_auth. rewrite Ht, Hne.
    destruct (Auth.gh_on_path _ && _); eauto.
Qed.

End CheckFacts.

Lemma check_passes_integrator_authenticates_witness :
  Check.main "" host_with_token = 0%Z
  ∧ ∃ a, Auth._ensure_auth true (Check.auth_host host_with_token) = (Ok (Some a), []).
Proof.
  assert (Hcheck : Check.main "" host_with_token = 0%Z) by reflexivity.
  split; [exact Hcheck|].
  by apply (check_passes_integrator_authenticates "" host_with_token true).
Defined.

(** ** From a run of the integrator to the linkage check *)

Section RunThenLinkage.

Import Integrator.

Lemma run_ledger_write c today ledger_file task_id skip_pr document :
  LedgerWrite document ∈ (run c today ledger_file task_id skip_pr).2 →
  ∃ issue_data pr_data,
    Ledger._update_ledger today task_id issue_data pr_data ledger_file = Ok document.
Proof.
  unfold run, update_and_return. cbn zeta.
  repeat match goal with
         | |- context [match ?x with _ => _ end] =>
             lazymatch x with
             | Ledger._update_ledger _ _ _ _ _ => fail
             | _ => destruct x
             end
         end;
    try (cbn [snd]; by intros ?%not_elem_of_nil).
  all: try (cbn [snd];
            by repeat (intros [?|H]%elem_of_cons; [done|revert H]);
               intros ?%not_elem_of_nil).
  all: match goal with
       | |- context [Ledger._update_ledger ?a ?b ?i ?p ?l] =>
           destruct (Ledger._update_ledger a b i p l) as [d|e] eqn:E
       end; cbn [snd app].
  all: repeat (intros [Heq|H]%elem_of_cons;
               [try done; injection Heq as ->; eauto|revert H]).
  all: by intros ?%not_elem_of_nil.
Qed.

(** X25. The integrator leaves the ledger as the linkage check wants it:
    whenever a run writes the ledger, over a ledger whose ids are all ones
    a set accepts, the linkage check on the written document does not
    report the task given on the command line as missing from the
    ledger, whatever the exit code of the run. *)
Theorem run_then_linkage c today ledger_file task_id skip_pr document
    (task_ids report_ids : gset string) :
  hashable_ids ledger_file →
  LedgerWrite document ∈ (run c today ledger_file task_id skip_pr).2 →
  Linkage.TaskNotInLedger task_id
  ∉ (Linkage.main task_ids report_ids (ledger_ids (Some (Document document)))).1.
Proof.
  intros Hhash (issue_data & pr_data & Hrun)%run_ledger_write.
  apply listed_in_ledger.
  rewrite (ledger_ids_after _ _ _ _ _ _ Hrun Hhash).
  apply elem_of_union_r. by apply elem_of_singleton.
Qed.

Lemma run_then_linkage_witness :
  ∃ document,
    LedgerWrite document ∈ (run pr_fails "2024-05-01" None "T002" false).2
    ∧ Linkage.TaskNotInLedger "T002"
      ∉ (Linkage.main {[ "T002" ]} ∅ (ledger_ids (Some (Document document)))).1.
Proof.
  eexists. split.
  - apply list_elem_of_further, list_elem_of_further, list_elem_of_here.
  - apply (run_then_linkage pr_fails "2024-05-01" None "T002" false).
    + by intros d fields id [=].
    + apply list_elem_of_further, list_elem_of_further, list_elem_of_here.
Defined.

End RunThenLinkage.

(** ** The branch in the ledger and the branch that is pushed *)

Section RecordedBranch.



End RecordedBranch.
